(** * Patrol-distance planner of the drone patrol service

    A shallow embedding of [CalculateDroneDistance] (package [handler]) with
    the record types of package [repository] and the [ScaleFactor] of package
    [config], followed by the properties of the planner: traversal order,
    budget cut-off, distance accounting, totality. *)

From Stdlib Require Import ZArith Lia Bool String.
From stdpp Require Import base list.

Local Open Scope Z_scope.

(** ** Go's [int] on a 64-bit platform *)

Module GoInt.

Definition min_int : Z := - 2 ^ 63.
Definition max_int : Z := 2 ^ 63 - 1.

Definition in_range (z : Z) : Prop := min_int <= z <= max_int.

(** Two's complement wrap-around of a mathematical integer. *)
Definition wrap (z : Z) : Z := (z + 2 ^ 63) mod 2 ^ 64 - 2 ^ 63.

Definition add (a b : Z) : Z := wrap (a + b).
Definition sub (a b : Z) : Z := wrap (a - b).
Definition mul (a b : Z) : Z := wrap (a * b).

(** [float64(a)] for [0 <= a]: exact below [2^53], otherwise rounded to 53
    significant bits, ties to even. *)
Definition float64_of_nonneg (a : Z) : Z :=
  let e := Z.log2 a in
  if e <? 53 then a
  else
    let sh := e - 52 in
    let q := Z.shiftr a sh in
    let r := a - Z.shiftl q sh in
    let half := Z.shiftl 1 (sh - 1) in
    let q' := if (half <? r) || ((half =? r) && Z.odd q) then q + 1 else q in
    Z.shiftl q' sh.

(** [int(math.Abs(float64(d)))].  The conversion back of a float that does
    not fit ([2^63], reached from [d = min_int] or by rounding up) is
    implementation-dependent in Go; amd64 yields [min_int]. *)
Definition abs_via_float64 (d : Z) : Z :=
  let f := float64_of_nonneg (Z.abs d) in
  if 2 ^ 63 <=? f then min_int else f.

End GoInt.

(** ** Package [config] *)

Module config.
Record Config := { ScaleFactor : Z }.
End config.

(** ** Package [repository]: the planner's input and output types *)

Module repository.

Record Tree := { X : Z; Y : Z; Height : Z }.

Record Estate := { Length : Z; Width : Z }.

(** The Go field [Estate] of type [Estate] is [Estate_] here. *)
Record CalculateDroneDistanceInput := {
  Trees : list Tree;
  Estate_ : Estate
}.

Record CalculateDroneDistanceOutput := {
  TotalDistance : Z;
  TotalVerticalDistance : Z;
  TotalHorizontalDistance : Z;
  LastAchievableXCoordinate : Z;
  LastAchievableYCoordinate : Z
}.

(** [&CalculateDroneDistanceOutput{}]: every field at its zero value. *)
Definition zero_output : CalculateDroneDistanceOutput :=
  {| TotalDistance := 0; TotalVerticalDistance := 0;
     TotalHorizontalDistance := 0;
     LastAchievableXCoordinate := 0; LastAchievableYCoordinate := 0 |}.

End repository.

Import config repository.

(** ** Control flow of a loop body *)

(** What a piece of the function body does: fall through with new locals,
    [return] a value, panic (index out of range, negative [make] length), or
    exhaust the fuel of the model's loops. *)
Inductive ctl (S R : Type) : Type :=
| Continue (s : S)
| Return (r : R)
| Panic
| OutOfFuel.

Arguments Continue {S R} s.
Arguments Return {S R} r.
Arguments Panic {S R}.
Arguments OutOfFuel {S R}.

Definition ctl_bind {S T R} (c : ctl S R) (k : S -> ctl T R) : ctl T R :=
  match c with
  | Continue s => k s
  | Return r => Return r
  | Panic => Panic
  | OutOfFuel => OutOfFuel
  end.

(** [for j = lo; j < hi; j++ { body }] *)
Fixpoint for_up {S R} (fuel : nat) (hi : Z) (body : Z -> S -> ctl S R)
    (j : Z) (s : S) : ctl S R :=
  if j <? hi then
    match fuel with
    | O => OutOfFuel
    | Datatypes.S fuel' =>
        ctl_bind (body j s) (for_up fuel' hi body (j + 1))
    end
  else Continue s.

(** [for j = hi; j >= 0; j-- { body }] *)
Fixpoint for_down {S R} (fuel : nat) (body : Z -> S -> ctl S R)
    (j : Z) (s : S) : ctl S R :=
  if 0 <=? j then
    match fuel with
    | O => OutOfFuel
    | Datatypes.S fuel' =>
        ctl_bind (body j s) (for_down fuel' body (j - 1))
    end
  else Continue s.

(** ** The height map [plantationGridArray] *)

Abbreviation grid := (list (list Z)).

(** [g[i][j]] as an rvalue; [None] is Go's index-out-of-range panic. *)
Definition grid_get (g : grid) (i j : Z) : option Z :=
  if (i <? 0) || (j <? 0) then None
  else match g !! Z.to_nat i with
       | Some row => row !! Z.to_nat j
       | None => None
       end.

(** [g[i][j] = v]; [None] is the panic. *)
Definition grid_set (g : grid) (i j : Z) (v : Z) : option grid :=
  if (i <? 0) || (j <? 0) then None
  else match g !! Z.to_nat i with
       | Some row =>
           if Z.to_nat j <? length row
           then Some (<[Z.to_nat i := <[Z.to_nat j := v]> row]> g)
           else None
       | None => None
       end%nat.

(** The two nested loops that allocate the [Width] rows of [Length] cells and
    fill them with 1.  [make] panics on a negative length; the inner [make]
    runs only when there is a row. *)
Definition make_grid (width length : Z) : option grid :=
  if width <? 0 then None
  else if (0 <? width) && (length <? 0) then None
  else Some (replicate (Z.to_nat width) (replicate (Z.to_nat length) 1)).

(** [for _, t := range input.Trees { g[t.Y-1][t.X-1] = t.Height + 1 }].
    The index subtractions are written without wrap-around: they wrap only
    at [min_int], where the wrapped index [max_int] is out of range just as
    the negative one is. *)
Fixpoint plant_trees (g : grid) (trees : list Tree) : option grid :=
  match trees with
  | [] => Some g
  | t :: rest =>
      match grid_set g (Y t - 1) (X t - 1) (GoInt.add (Height t) 1) with
      | Some g' => plant_trees g' rest
      | None => None
      end
  end.

Definition build_grid (input : CalculateDroneDistanceInput) : option grid :=
  match make_grid (Width (Estate_ input)) (Length (Estate_ input)) with
  | Some g => plant_trees g (Trees input)
  | None => None
  end.

(** ** The traversal *)

(** The variables the loops of [CalculateDroneDistance] read and write.  The
    output struct is reached through a pointer that nothing else holds, so it
    is carried by value. *)
Record locals := {
  calculateDroneDistanceOutput : CalculateDroneDistanceOutput;
  totalHorizontalDistance : Z;
  totalVerticalDistance : Z;
  currentHeight : Z;
  previousHeight : Z
}.

(** [var currentHeight, previousHeight int] and the two totals start at 0. *)
Definition initial_locals : locals :=
  {| calculateDroneDistanceOutput := zero_output;
     totalHorizontalDistance := 0;
     totalVerticalDistance := 0;
     currentHeight := 0;
     previousHeight := 0 |}.

(** [totalHorizontalDistance+totalVerticalDistance+currentHeight] *)
Definition budget_need (s : locals) : Z :=
  GoInt.add (GoInt.add (totalHorizontalDistance s) (totalVerticalDistance s))
            (currentHeight s).

(** [maxDistance != nil && *maxDistance < (...)] *)
Definition over_budget (maxDistance : option Z) (s : locals) : bool :=
  match maxDistance with
  | Some m => m <? budget_need s
  | None => false
  end.

(** The two assignments to the last achievable coordinates. *)
Definition set_last (o : CalculateDroneDistanceOutput) (x y : Z)
    : CalculateDroneDistanceOutput :=
  {| TotalDistance := TotalDistance o;
     TotalVerticalDistance := TotalVerticalDistance o;
     TotalHorizontalDistance := TotalHorizontalDistance o;
     LastAchievableXCoordinate := x;
     LastAchievableYCoordinate := y |}.

(** The locals with [currentHeight] and [previousHeight] assigned. *)
Definition with_heights (s : locals) (cur prev : Z) : locals :=
  {| calculateDroneDistanceOutput := calculateDroneDistanceOutput s;
     totalHorizontalDistance := totalHorizontalDistance s;
     totalVerticalDistance := totalVerticalDistance s;
     currentHeight := cur;
     previousHeight := prev |}.

(** [totalVerticalDistance += v] *)
Definition add_vertical (s : locals) (v : Z) : locals :=
  {| calculateDroneDistanceOutput := calculateDroneDistanceOutput s;
     totalHorizontalDistance := totalHorizontalDistance s;
     totalVerticalDistance := GoInt.add (totalVerticalDistance s) v;
     currentHeight := currentHeight s;
     previousHeight := previousHeight s |}.

(** [totalHorizontalDistance += v] *)
Definition add_horizontal (s : locals) (v : Z) : locals :=
  {| calculateDroneDistanceOutput := calculateDroneDistanceOutput s;
     totalHorizontalDistance := GoInt.add (totalHorizontalDistance s) v;
     totalVerticalDistance := totalVerticalDistance s;
     currentHeight := currentHeight s;
     previousHeight := previousHeight s |}.

(** [LastAchievableXCoordinate = j + 1; LastAchievableYCoordinate = i + 1];
    no wrap-around, since [j < Length] and [i < Width]. *)
Definition record_last (s : locals) (i j : Z) : locals :=
  {| calculateDroneDistanceOutput :=
       set_last (calculateDroneDistanceOutput s) (j + 1) (i + 1);
     totalHorizontalDistance := totalHorizontalDistance s;
     totalVerticalDistance := totalVerticalDistance s;
     currentHeight := currentHeight s;
     previousHeight := previousHeight s |}.

(** [increment := int(math.Abs(float64(currentHeight - previousHeight)))] *)
Definition increment (s : locals) : Z :=
  GoInt.abs_via_float64 (GoInt.sub (currentHeight s) (previousHeight s)).

(** The body of [for j = 0; j < input.Estate.Length; j++], statement by
    statement. *)
Definition visit_even (cfg : Config) (g : grid) (width length : Z)
    (maxDistance : option Z) (i j : Z) (s : locals)
    : ctl locals CalculateDroneDistanceOutput :=
  let heights :=
    if j =? 0 then
      if i =? 0 then
        match grid_get g i j with
        | Some cur => Some (with_heights s cur (previousHeight s))
        | None => None
        end
      else
        match grid_get g i j with
        | Some cur =>
            match grid_get g (i - 1) j with
            | Some prev => Some (with_heights s cur prev)
            | None => None
            end
        | None => None
        end
    else
      match grid_get g i j with
      | Some cur =>
          match grid_get g i (j - 1) with
          | Some prev => Some (with_heights s cur prev)
          | None => None
          end
      | None => None
      end in
  match heights with
  | None => Panic
  | Some s =>
      let s := add_vertical s (increment s) in
      let s := if negb ((i =? 0) && (j =? 0))
               then add_horizontal s (ScaleFactor cfg) else s in
      if over_budget maxDistance s
      then Return (calculateDroneDistanceOutput s)
      else
        let s := record_last s i j in
        if (i =? width - 1) && (j =? length - 1) then
          match grid_get g i j with
          | Some h => Continue (add_vertical s h)
          | None => Panic
          end
        else Continue s
  end.

(** The body of [for j = input.Estate.Length - 1; j >= 0; j--], statement by
    statement. *)
Definition visit_odd (cfg : Config) (g : grid) (width length : Z)
    (maxDistance : option Z) (i j : Z) (s : locals)
    : ctl locals CalculateDroneDistanceOutput :=
  let heights :=
    if j =? length - 1 then
      match grid_get g i j with
      | Some cur =>
          match grid_get g (i - 1) j with
          | Some prev => Some (with_heights s cur prev)
          | None => None
          end
      | None => None
      end
    else
      match grid_get g i j with
      | Some cur =>
          match grid_get g i (j + 1) with
          | Some prev => Some (with_heights s cur prev)
          | None => None
          end
      | None => None
      end in
  match heights with
  | None => Panic
  | Some s =>
      let s := add_vertical s (increment s) in
      let s := add_horizontal s (ScaleFactor cfg) in
      if over_budget maxDistance s
      then Return (calculateDroneDistanceOutput s)
      else
        let s := record_last s i j in
        if (i =? width - 1) && (j =? 0) then
          match grid_get g i j with
          | Some h => Continue (add_vertical s h)
          | None => Panic
          end
        else Continue s
  end.

(** The body of [for i = 0; i < input.Estate.Width; i++]: the row is scanned
    upwards when [i%2 == 0], downwards otherwise. *)
Definition scan_row (cfg : Config) (g : grid) (width length : Z)
    (maxDistance : option Z) (i : Z) (s : locals)
    : ctl locals CalculateDroneDistanceOutput :=
  if Z.rem i 2 =? 0
  then for_up (Z.to_nat length) length
         (visit_even cfg g width length maxDistance i) 0 s
  else for_down (Z.to_nat length)
         (visit_odd cfg g width length maxDistance i) (length - 1) s.

Definition traverse (cfg : Config) (g : grid) (width length : Z)
    (maxDistance : option Z) (s : locals)
    : ctl locals CalculateDroneDistanceOutput :=
  for_up (Z.to_nat width) width
    (scan_row cfg g width length maxDistance) 0 s.

(** The three assignments after the loops. *)
Definition finish (s : locals) : CalculateDroneDistanceOutput :=
  {| TotalDistance :=
       GoInt.add (totalVerticalDistance s) (totalHorizontalDistance s);
     TotalVerticalDistance := totalVerticalDistance s;
     TotalHorizontalDistance := totalHorizontalDistance s;
     LastAchievableXCoordinate :=
       LastAchievableXCoordinate (calculateDroneDistanceOutput s);
     LastAchievableYCoordinate :=
       LastAchievableYCoordinate (calculateDroneDistanceOutput s) |}.

(** ** [CalculateDroneDistance] *)

(** How a call ends: with Go's pair of results, with a panic, or with the
    model out of fuel. *)
Inductive outcome (A : Type) : Type :=
| Returned (a : A)
| Panicked
| Exhausted.

Arguments Returned {A} a.
Arguments Panicked {A}.
Arguments Exhausted {A}.

Definition invalid_input_error : string :=
  "err CalculateDroneDistance: invalid input -- nothing to calculate drone distance".

(** [func (s *Server) CalculateDroneDistance(input, maxDistance)].  A [nil]
    pointer is [None]; the receiver contributes [s.Config]. *)
Definition CalculateDroneDistance (cfg : Config)
    (input : option CalculateDroneDistanceInput) (maxDistance : option Z)
    : outcome (option CalculateDroneDistanceOutput * option string) :=
  match input with
  | None => Returned (None, Some invalid_input_error)
  | Some input =>
      match build_grid input with
      | None => Panicked
      | Some g =>
          match traverse cfg g (Width (Estate_ input)) (Length (Estate_ input))
                  maxDistance initial_locals with
          | Continue s => Returned (Some (finish s), None)
          | Return o => Returned (Some o, None)
          | Panic => Panicked
          | OutOfFuel => Exhausted
          end
      end
  end.

(** The tests of [TestCalculateDroneDistance]. *)

Definition cfg10 : Config := {| ScaleFactor := 10 |}.

Definition mk_input (length width : Z) (trees : list (Z * Z * Z))
    : CalculateDroneDistanceInput :=
  {| Trees := map (fun t => {| X := t.1.1; Y := t.1.2; Height := t.2 |}) trees;
     Estate_ := {| Length := length; Width := width |} |}.

Definition total_of (r : outcome (option CalculateDroneDistanceOutput * option string))
    : option Z :=
  match r with
  | Returned (Some o, None) => Some (TotalDistance o)
  | _ => None
  end.

Definition last_of (r : outcome (option CalculateDroneDistanceOutput * option string))
    : option (Z * Z) :=
  match r with
  | Returned (Some o, None) =>
      Some (LastAchievableXCoordinate o, LastAchievableYCoordinate o)
  | _ => None
  end.

(** ** The serpentine path, as the specification words it *)

(** Row [i] left to right when [i] is even, right to left when it is odd. *)
Definition row_cells (length i : Z) : list (Z * Z) :=
  if Z.even i
  then (fun j => (i, j)) <$> seqZ 0 length
  else (fun j => (i, j)) <$> reverse (seqZ 0 length).

(** Rows [0 .. width-1], one after the other. *)
Definition serpentine (width length : Z) : list (Z * Z) :=
  seqZ 0 width ≫= row_cells length.

(** Sequential execution of a body over an explicit list of cells. *)
Fixpoint run_cells {A S R} (body : A -> S -> ctl S R) (l : list A) (s : S)
    : ctl S R :=
  match l with
  | [] => Continue s
  | a :: l' => ctl_bind (body a s) (run_cells body l')
  end.

(** What the function does at one cell, whichever loop reaches it. *)
Definition visit (cfg : Config) (g : grid) (width length : Z)
    (maxDistance : option Z) (c : Z * Z) (s : locals)
    : ctl locals CalculateDroneDistanceOutput :=
  if Z.rem c.1 2 =? 0
  then visit_even cfg g width length maxDistance c.1 c.2 s
  else visit_odd cfg g width length maxDistance c.1 c.2 s.

(** ** The body of the loops, factored *)

(** The cell whose height an even row assigns to [previousHeight] at
    [(i, j)]: none at the very first cell (the variable keeps its value), the
    cell of the previous row at [j = 0], the column to the left otherwise. *)
Definition previous_cell_even (i j : Z) : option (Z * Z) :=
  if j =? 0 then
    if i =? 0 then None else Some (i - 1, j)
  else Some (i, j - 1).

(** The same for an odd row: the cell of the previous row at
    [j = Length-1], the column to the right otherwise. *)
Definition previous_cell_odd (length i j : Z) : option (Z * Z) :=
  if j =? length - 1 then Some (i - 1, j) else Some (i, j + 1).

(** The assignments to [currentHeight] and [previousHeight], given the cell
    read for the latter. *)
Definition read_heights (g : grid) (i j : Z) (prev : option (Z * Z))
    (s : locals) : option (Z * Z) :=
  match grid_get g i j with
  | None => None
  | Some cur =>
      match prev with
      | None => Some (cur, previousHeight s)
      | Some (pi, pj) =>
          match grid_get g pi pj with
          | Some p => Some (cur, p)
          | None => None
          end
      end
  end.

(** Either body up to the budget check: the two heights, [increment], and
    the additions to the two totals.  [charge] tells whether [ScaleFactor]
    is added. *)
Definition measure (cfg : Config) (g : grid) (i j : Z)
    (prev : option (Z * Z)) (charge : bool) (s : locals) : option locals :=
  match read_heights g i j prev s with
  | None => None
  | Some (cur, p) =>
      Some {| calculateDroneDistanceOutput := calculateDroneDistanceOutput s;
              totalHorizontalDistance :=
                if charge
                then GoInt.add (totalHorizontalDistance s) (ScaleFactor cfg)
                else totalHorizontalDistance s;
              totalVerticalDistance :=
                GoInt.add (totalVerticalDistance s)
                  (GoInt.abs_via_float64 (GoInt.sub cur p));
              currentHeight := cur;
              previousHeight := p |}
  end.

(** Either body after the budget check: the last achievable coordinates and,
    when [landing] holds, the height of the cell added once more. *)
Definition settle (g : grid) (i j : Z) (landing : bool) (s : locals)
    : option locals :=
  let o := set_last (calculateDroneDistanceOutput s) (j + 1) (i + 1) in
  if landing then
    match grid_get g i j with
    | Some h =>
        Some {| calculateDroneDistanceOutput := o;
                totalHorizontalDistance := totalHorizontalDistance s;
                totalVerticalDistance := GoInt.add (totalVerticalDistance s) h;
                currentHeight := currentHeight s;
                previousHeight := previousHeight s |}
    | None => None
    end
  else
    Some {| calculateDroneDistanceOutput := o;
            totalHorizontalDistance := totalHorizontalDistance s;
            totalVerticalDistance := totalVerticalDistance s;
            currentHeight := currentHeight s;
            previousHeight := previousHeight s |}.

(** One iteration of an inner loop, given what distinguishes the two loops. *)
Definition visit_with (cfg : Config) (g : grid) (maxDistance : option Z)
    (i j : Z) (prev : option (Z * Z)) (charge landing : bool) (s : locals)
    : ctl locals CalculateDroneDistanceOutput :=
  match measure cfg g i j prev charge s with
  | None => Panic
  | Some s1 =>
      if over_budget maxDistance s1
      then Return (calculateDroneDistanceOutput s1)
      else match settle g i j landing s1 with
           | Some s2 => Continue s2
           | None => Panic
           end
  end.

(** The cell read for [previousHeight] at a cell. *)
Definition previous_cell (length : Z) (c : Z * Z) : option (Z * Z) :=
  if Z.rem c.1 2 =? 0
  then previous_cell_even c.1 c.2
  else previous_cell_odd length c.1 c.2.

(** ** Preconditions and the specification's view of the grid *)

(** The preconditions the validation layer guarantees. *)
Definition tree_in_bounds (e : Estate) (t : Tree) : Prop :=
  1 <= X t <= Length e /\ 1 <= Y t <= Width e.

Definition planner_precondition (input : CalculateDroneDistanceInput) : Prop :=
  1 <= Width (Estate_ input) /\ 1 <= Length (Estate_ input) /\
  Forall (tree_in_bounds (Estate_ input)) (Trees input).

(** A [width] by [length] grid. *)
Definition grid_shape (g : grid) (width length : Z) : Prop :=
  List.length g = Z.to_nat width /\
  Forall (fun row : list Z => List.length row = Z.to_nat length) g.

Definition in_grid (width length : Z) (c : Z * Z) : Prop :=
  0 <= c.1 < width /\ 0 <= c.2 < length.

(** The height the specification gives the cell at 1-based [(x, y)]: 1 on
    bare ground, a tree's height plus 1 under a tree (the last one listed,
    should two share the cell). *)
Definition planted_height (trees : list Tree) (x y : Z) : Z :=
  fold_left
    (fun h t => if (X t =? x) && (Y t =? y) then GoInt.add (Height t) 1 else h)
    trees 1.

(** First and last cell of row [i]. *)
Definition row_first (length i : Z) : Z * Z :=
  (i, if Z.even i then 0 else length - 1).

Definition row_last (length i : Z) : Z * Z :=
  (i, if Z.even i then length - 1 else 0).

(** The estate's final corner: the last cell of the last row. *)
Definition final_corner (width length : Z) : Z * Z :=
  row_last length (width - 1).

(** [chain length p l]: along [l], the cell read for [previousHeight] is the
    one just before in [l], and [p] at the head of [l]. *)
Fixpoint chain (length : Z) (p : option (Z * Z)) (l : list (Z * Z)) : Prop :=
  match l with
  | [] => True
  | c :: l' => previous_cell length c = p /\ chain length (Some c) l'
  end.

Definition last_or {A} (p : option A) (l : list A) : option A :=
  match last l with
  | Some c => Some c
  | None => p
  end.

(** ** The body at a cell, split at the budget check *)

(** Whether [ScaleFactor] is charged at a cell: everywhere but at the very
    first one. *)
Definition charge (c : Z * Z) : bool :=
  if Z.rem c.1 2 =? 0 then negb ((c.1 =? 0) && (c.2 =? 0)) else true.

(** Whether a cell is the one where the landing term is added. *)
Definition landing (width length : Z) (c : Z * Z) : bool :=
  if Z.rem c.1 2 =? 0
  then (c.1 =? width - 1) && (c.2 =? length - 1)
  else (c.1 =? width - 1) && (c.2 =? 0).

(** The locals when the budget check of a cell is evaluated. *)
Definition arrive (cfg : Config) (g : grid) (length : Z) (c : Z * Z)
    (s : locals) : option locals :=
  measure cfg g c.1 c.2 (previous_cell length c) (charge c) s.

(** The locals when the iteration of a cell ends. *)
Definition depart (g : grid) (width length : Z) (c : Z * Z) (s : locals)
    : option locals :=
  settle g c.1 c.2 (landing width length c) s.

(** The locals after the cells of [l] have been visited one after the other
    with no budget in the way. *)
Fixpoint locals_after (cfg : Config) (g : grid) (width length : Z)
    (l : list (Z * Z)) (s : locals) : option locals :=
  match l with
  | [] => Some s
  | c :: l' =>
      match arrive cfg g length c s with
      | None => None
      | Some s1 =>
          match depart g width length c s1 with
          | None => None
          | Some s2 => locals_after cfg g width length l' s2
          end
      end
  end.

(** The value [totalHorizontalDistance+totalVerticalDistance+currentHeight]
    that is compared with [*maxDistance] at the [k]-th cell of [l], when the
    cells before it have been visited. *)
Definition need_from (cfg : Config) (g : grid) (width length : Z)
    (l : list (Z * Z)) (s : locals) (k : nat) : option Z :=
  match l !! k with
  | None => None
  | Some c =>
      match locals_after cfg g width length (take k l) s with
      | None => None
      | Some s' =>
          match arrive cfg g length c s' with
          | None => None
          | Some s1 => Some (budget_need s1)
          end
      end
  end.

(** The same along the whole traversal, from the initial locals. *)
Definition need_at (cfg : Config) (g : grid) (width length : Z) (k : nat)
    : option Z :=
  need_from cfg g width length (serpentine width length) initial_locals k.

(** Position in the traversal of the cell with 1-based coordinates
    [(x, y)], counted from 1; 0 when the traversal has no such cell. *)
Definition traversal_rank (width length : Z) (x y : Z) : nat :=
  match list_find (fun c => c = (y - 1, x - 1)) (serpentine width length) with
  | Some (k, _) => Datatypes.S k
  | None => O
  end.

(** How far along the traversal an output's last achievable cell lies. *)
Definition reach (width length : Z) (o : CalculateDroneDistanceOutput) : nat :=
  traversal_rank width length
    (LastAchievableXCoordinate o) (LastAchievableYCoordinate o).

(** [stops_at cfg g width length m l s k r]: visiting [l] from [s] under the
    budget [m] ends in [r] after exactly [k] cells were afforded.  No cell
    before the [k]-th needs more than [m]; either [k] counts all of [l] and
    [r] falls through with the locals after [l], or the [k]-th cell needs
    more than [m] and [r] returns the output as it stood after [k] cells. *)
Definition stops_at (cfg : Config) (g : grid) (width length : Z) (m : Z)
    (l : list (Z * Z)) (s : locals) (k : nat)
    (r : ctl locals CalculateDroneDistanceOutput) : Prop :=
  (k <= List.length l)%nat /\
  (forall k' v', (k' < k)%nat ->
     need_from cfg g width length l s k' = Some v' -> v' <= m) /\
  ((k = List.length l /\
    exists s', locals_after cfg g width length l s = Some s' /\
               r = Continue s') \/
   (exists v s', need_from cfg g width length l s k = Some v /\ m < v /\
                 locals_after cfg g width length (take k l) s = Some s' /\
                 r = Return (calculateDroneDistanceOutput s'))).

(** The claim of C5 as the specification words it: when the budget check
    first trips at the [k]-th cell, the three distance figures of the output
    are those accumulated through the cells before it. *)
Definition reports_travel_so_far (cfg : Config)
    (input : CalculateDroneDistanceInput) (m : Z) : Prop :=
  forall g k v s' out,
    build_grid input = Some g ->
    need_at cfg g (Width (Estate_ input)) (Length (Estate_ input)) k = Some v ->
    m < v ->
    locals_after cfg g (Width (Estate_ input)) (Length (Estate_ input))
      (take k (serpentine (Width (Estate_ input)) (Length (Estate_ input))))
      initial_locals = Some s' ->
    CalculateDroneDistance cfg (Some input) (Some m)
    = Returned (Some out, None) ->
    TotalHorizontalDistance out = totalHorizontalDistance s' /\
    TotalVerticalDistance out = totalVerticalDistance s' /\
    TotalDistance out
    = GoInt.add (totalVerticalDistance s') (totalHorizontalDistance s').

(** The claim of C1 as the specification words it: when the budget check
    first trips at the [k]-th cell, the last achievable coordinates are the
    1-based coordinates of the cell just before it in the traversal. *)
Definition reports_preceding_cell (cfg : Config)
    (input : CalculateDroneDistanceInput) (m : Z) : Prop :=
  forall g k v out,
    build_grid input = Some g ->
    need_at cfg g (Width (Estate_ input)) (Length (Estate_ input)) k = Some v ->
    m < v ->
    (forall k' v', (k' < k)%nat ->
       need_at cfg g (Width (Estate_ input)) (Length (Estate_ input)) k'
       = Some v' -> v' <= m) ->
    CalculateDroneDistance cfg (Some input) (Some m)
    = Returned (Some out, None) ->
    exists c,
      (exists k', k = Datatypes.S k' /\
         serpentine (Width (Estate_ input)) (Length (Estate_ input)) !! k'
         = Some c) /\
      LastAchievableXCoordinate out = c.2 + 1 /\
      LastAchievableYCoordinate out = c.1 + 1.

(** The claim of C4 as the specification words it: once the first cell's
    [increment] has been added, the accumulated vertical distance is still
    0. *)
Definition first_cell_costs_nothing (cfg : Config)
    (input : CalculateDroneDistanceInput) : Prop :=
  forall g s1,
    build_grid input = Some g ->
    arrive cfg g (Length (Estate_ input)) (0, 0) initial_locals = Some s1 ->
    totalVerticalDistance s1 = 0.

(** The claim of C6 as the specification words it. *)
Definition bare_estate_costs_one (cfg : Config)
    (input : CalculateDroneDistanceInput) : Prop :=
  forall out,
    CalculateDroneDistance cfg (Some input) None = Returned (Some out, None) ->
    TotalVerticalDistance out = 1 /\
    TotalHorizontalDistance out
    = ScaleFactor cfg * (Width (Estate_ input) * Length (Estate_ input) - 1).

(** The output a call returns for the way its loops ended. *)
Definition result_output (r : ctl locals CalculateDroneDistanceOutput)
    : option CalculateDroneDistanceOutput :=
  match r with
  | Continue s => Some (finish s)
  | Return o => Some o
  | _ => None
  end.

(** ** The specification's view of the distances *)

(** The height the specification gives a 0-based cell [(row, column)]. *)
Definition height_at (trees : list Tree) (c : Z * Z) : Z :=
  planted_height trees (c.2 + 1) (c.1 + 1).

(** Sum of the height differences met along [l], coming from height
    [prev]. *)
Fixpoint climb_sum (h : Z * Z -> Z) (prev : Z) (l : list (Z * Z)) : Z :=
  match l with
  | [] => 0
  | c :: l' => Z.abs (h c - prev) + climb_sum h (h c) l'
  end.

(** Heights for which [Height + 1] and every difference of two grid values
    are exact in [float64]. *)
Definition modest_heights (trees : list Tree) : Prop :=
  Forall (fun t => 0 <= Height t < 2 ^ 53 - 1) trees.

(** Sum of the heights of the cells of [l] where the landing term is
    added. *)
Fixpoint landing_sum (h : Z * Z -> Z) (width length : Z) (l : list (Z * Z))
    : Z :=
  match l with
  | [] => 0
  | c :: l' =>
      (if landing width length c then h c else 0)
      + landing_sum h width length l'
  end.

(** The height reached at the end of [l], or [prev] when [l] is empty. *)
Definition last_height (h : Z * Z -> Z) (prev : Z) (l : list (Z * Z)) : Z :=
  match last l with
  | Some c => h c
  | None => prev
  end.

(** * The repository and the HTTP handlers *)

(** ** Errors and what the database driver answers *)

(** Go's [error] values as the code tells them apart: the sentinel
    [sql.ErrNoRows] and any other error. *)
Inductive error : Type :=
| ErrNoRows
| OtherError (msg : string).

(** What [QueryRowContext(...).Scan(...)] yields: an error ([sql.ErrNoRows]
    when the query selects no row) or the scanned columns. *)
Inductive row_result (A : Type) : Type :=
| ScanError (e : error)
| Scanned (a : A).

Arguments ScanError {A} e.
Arguments Scanned {A} a.

(** What [QueryContext] yields: an error, or rows, each of which [Scan] reads
    or fails on. *)
Inductive rows_result (A : Type) : Type :=
| QueryError (e : error)
| Rows (rows : list (row_result A)).

Arguments QueryError {A} e.
Arguments Rows {A} rows.

(** The two queries the read methods below send, as answered by a database:
    the [length, width] of the estate with a given id, and the
    [x, y, height] of the trees of the estate with a given id. *)
Record Db := {
  select_estate : string -> row_result (Z * Z);
  select_trees : string -> rows_result Tree
}.

(** ** Package [repository]: the input and output structs of the methods *)

Module GetEstateByEstateIdInput.
Record t := { Id : string }.
End GetEstateByEstateIdInput.

Module GetEstateByEstateIdOutput.
Record t := { Estate : repository.Estate }.
End GetEstateByEstateIdOutput.

Module IsTreeExistInput.
Record t := { EstateId : string; X : Z; Y : Z }.
End IsTreeExistInput.

Module IsTreeExistOutput.
Record t := { IsExist : bool }.
End IsTreeExistOutput.

Module CreateTreeInput.
Record t := { Id : string; EstateId : string; X : Z; Y : Z; Height : Z }.
End CreateTreeInput.

Module CreateTreeOutput.
Record t := { Id : string }.
End CreateTreeOutput.

Module CreateEstateInput.
(** [Length] and [Width] are [uint16]. *)
Record t := { Id : string; Length : Z; Width : Z }.
End CreateEstateInput.

Module CreateEstateOutput.
Record t := { Id : string }.
End CreateEstateOutput.

Module GetEstateTreesByEstateIdInput.
Record t := { EstateId : string }.
End GetEstateTreesByEstateIdInput.

Module GetEstateTreesByEstateIdOutput.
Record t := { Trees : list Tree; Estate : repository.Estate }.
End GetEstateTreesByEstateIdOutput.

(** [uint16(x)] of an [int]. *)
Definition uint16 (x : Z) : Z := x mod 2 ^ 16.

(** ** [Repository.GetEstateByEstateId] and
       [Repository.GetEstateTreesByEstateId] *)

(** [func (r *Repository) GetEstateByEstateId]: no row is not an error, the
    estate is just absent. *)
Definition Repository_GetEstateByEstateId (db : Db)
    (input : GetEstateByEstateIdInput.t)
    : option GetEstateByEstateIdOutput.t * option error :=
  match select_estate db (GetEstateByEstateIdInput.Id input) with
  | ScanError ErrNoRows => (None, None)
  | ScanError e => (None, Some e)
  | Scanned (l, w) =>
      (Some {| GetEstateByEstateIdOutput.Estate :=
                 {| Length := l; Width := w |} |}, None)
  end.

(** The loop [for rows.Next() { ... rows.Scan ...; append }]: the trees read
    so far, or the first scan error. *)
Fixpoint scan_trees (rows : list (row_result Tree)) (acc : list Tree)
    : list Tree + error :=
  match rows with
  | [] => inl acc
  | ScanError e :: _ => inr e
  | Scanned t :: rest => scan_trees rest (acc ++ [t])
  end.

(** [func (r *Repository) GetEstateTreesByEstateId]: the trees first, then
    the estate; any error of the second query, [sql.ErrNoRows] included, is
    returned as an error. *)
Definition Repository_GetEstateTreesByEstateId (db : Db)
    (input : GetEstateTreesByEstateIdInput.t)
    : option GetEstateTreesByEstateIdOutput.t * option error :=
  match select_trees db (GetEstateTreesByEstateIdInput.EstateId input) with
  | QueryError ErrNoRows => (None, None)
  | QueryError e => (None, Some e)
  | Rows rows =>
      match scan_trees rows [] with
      | inr e => (None, Some e)
      | inl trees =>
          match select_estate db
                  (GetEstateTreesByEstateIdInput.EstateId input) with
          | ScanError e => (None, Some e)
          | Scanned (l, w) =>
              (Some {| GetEstateTreesByEstateIdOutput.Trees := trees;
                       GetEstateTreesByEstateIdOutput.Estate :=
                         {| Length := l; Width := w |} |}, None)
          end
      end
  end.

(** ** [RepositoryInterface] *)

(** The methods the handlers call, over a repository state [DB] that every
    call may change.  The [context.Context] argument is left out. *)
Record RepositoryInterface (DB : Type) := {
  CreateEstate :
    CreateEstateInput.t -> DB ->
    (option CreateEstateOutput.t * option error) * DB;
  GetEstateByEstateId :
    GetEstateByEstateIdInput.t -> DB ->
    (option GetEstateByEstateIdOutput.t * option error) * DB;
  IsTreeExist :
    IsTreeExistInput.t -> DB ->
    (option IsTreeExistOutput.t * option error) * DB;
  CreateTree :
    CreateTreeInput.t -> DB ->
    (option CreateTreeOutput.t * option error) * DB;
  GetEstateTreesByEstateId :
    GetEstateTreesByEstateIdInput.t -> DB ->
    (option GetEstateTreesByEstateIdOutput.t * option error) * DB
}.

Arguments CreateEstate {DB} _ _ _.
Arguments GetEstateByEstateId {DB} _ _ _.
Arguments IsTreeExist {DB} _ _ _.
Arguments CreateTree {DB} _ _ _.
Arguments GetEstateTreesByEstateId {DB} _ _ _.

(** The repository of this package, as far as its two read methods above go;
    the other methods are given. *)
Definition Repository
    (createEstate :
       CreateEstateInput.t -> Db ->
       (option CreateEstateOutput.t * option error) * Db)
    (isTreeExist :
       IsTreeExistInput.t -> Db ->
       (option IsTreeExistOutput.t * option error) * Db)
    (createTree :
       CreateTreeInput.t -> Db ->
       (option CreateTreeOutput.t * option error) * Db)
    : RepositoryInterface Db :=
  {| CreateEstate := createEstate;
     GetEstateByEstateId :=
       fun input db => (Repository_GetEstateByEstateId db input, db);
     IsTreeExist := isTreeExist;
     CreateTree := createTree;
     GetEstateTreesByEstateId :=
       fun input db => (Repository_GetEstateTreesByEstateId db input, db) |}.

(** ** What the handlers receive and answer *)

(** The request structs, as the handlers read them and as the API
    description declares them. *)
Module EstateRequest.
Record t := { Length : Z; Width : Z }.
End EstateRequest.

Module TreeRequest.
Record t := { X : Z; Y : Z; Height : Z }.
End TreeRequest.

Module DronePlanParams.
Record t := { MaxDistance : option Z }.
End DronePlanParams.

(** [DronePlanResponse]: [Distance], and [Rest] with pointers to the two
    coordinates, [nil] unless assigned. *)
Module DronePlanResponse.
Record t := { Distance : Z; Rest : option (option Z * option Z) }.
End DronePlanResponse.

(** The body handed to [ctx.JSON]. *)
Inductive body : Type :=
| ErrorBody (msg : string)
| EstateBody (id : string)
| TreeBody (id : string)
| DronePlanBody (r : DronePlanResponse.t).

(** The status and body handed to [ctx.JSON]. *)
Definition response : Type := Z * body.

Definition StatusOK : Z := 200.
Definition StatusBadRequest : Z := 400.
Definition StatusNotFound : Z := 404.
Definition StatusInternalServerError : Z := 500.

Definition invalid_request : body := ErrorBody "Invalid request".
Definition estate_not_found : body := ErrorBody "Estate not found".
Definition something_happens : body :=
  ErrorBody "Something happens in our end. Let us check.".

(** What a handler takes from its [echo.Context] and from package [uuid]:
    the request body as [json.Decode] reads it ([None] when it fails), the
    verdict of [ctx.Validate], the identifier [uuid.New().String()] draws,
    and [uuid.Parse]. *)
Record Context (Req : Type) := {
  Decode : option Req;
  Validate : Req -> option error;
  NewId : string;
  ParseId : string -> option string
}.

Arguments Decode {Req} _.
Arguments Validate {Req} _ _.
Arguments NewId {Req} _.
Arguments ParseId {Req} _ _.

Record Server (DB : Type) := {
  ServerRepository : RepositoryInterface DB;
  ServerConfig : Config
}.

Arguments ServerRepository {DB} _.
Arguments ServerConfig {DB} _.

(** ** The handlers *)

(** The struct [createEstateInput] that [PostEstate] fills in. *)
Definition createEstateInput (ctx : Context EstateRequest.t)
    (req : EstateRequest.t) : CreateEstateInput.t :=
  {| CreateEstateInput.Id := NewId ctx;
     CreateEstateInput.Length := uint16 (EstateRequest.Length req);
     CreateEstateInput.Width := uint16 (EstateRequest.Width req) |}.

(** [func (s *Server) PostEstate(ctx)] *)
Definition PostEstate {DB} (s : Server DB) (ctx : Context EstateRequest.t)
    (db : DB) : outcome (response * DB) :=
  match Decode ctx with
  | None => Returned ((StatusBadRequest, invalid_request), db)
  | Some req =>
      match Validate ctx req with
      | Some _ => Returned ((StatusBadRequest, invalid_request), db)
      | None =>
          match CreateEstate (ServerRepository s)
                  (createEstateInput ctx req) db with
          | ((_, Some _), db) =>
              Returned ((StatusInternalServerError, something_happens), db)
          | ((None, None), db) => Panicked
          | ((Some output, None), db) =>
              match ParseId ctx (CreateEstateOutput.Id output) with
              | None =>
                  Returned ((StatusInternalServerError, something_happens), db)
              | Some id => Returned ((StatusOK, EstateBody id), db)
              end
          end
      end
  end.

(** [func (s *Server) PostEstateEstateIdTree(ctx, estateId)] *)
Definition PostEstateEstateIdTree {DB} (s : Server DB)
    (ctx : Context TreeRequest.t) (estateId : string) (db : DB)
    : outcome (response * DB) :=
  match Decode ctx with
  | None => Returned ((StatusBadRequest, invalid_request), db)
  | Some req =>
      match Validate ctx req with
      | Some _ => Returned ((StatusBadRequest, invalid_request), db)
      | None =>
          match GetEstateByEstateId (ServerRepository s)
                  {| GetEstateByEstateIdInput.Id := estateId |} db with
          | ((_, Some _), db) =>
              Returned ((StatusInternalServerError, something_happens), db)
          | ((None, None), db) =>
              Returned ((StatusNotFound, estate_not_found), db)
          | ((Some estate, None), db) =>
              let e := GetEstateByEstateIdOutput.Estate estate in
              if ((Length e <? TreeRequest.X req) || (TreeRequest.X req <? 0))
                 || ((Width e <? TreeRequest.Y req) || (TreeRequest.Y req <? 0))
              then Returned ((StatusBadRequest, invalid_request), db)
              else
                match IsTreeExist (ServerRepository s)
                        {| IsTreeExistInput.EstateId := estateId;
                           IsTreeExistInput.X := TreeRequest.X req;
                           IsTreeExistInput.Y := TreeRequest.Y req |} db with
                | ((_, Some _), db) =>
                    Returned
                      ((StatusInternalServerError, something_happens), db)
                | ((None, None), db) => Panicked
                | ((Some isTreeExistOutput, None), db) =>
                    if IsTreeExistOutput.IsExist isTreeExistOutput
                    then Returned ((StatusBadRequest, invalid_request), db)
                    else
                      match CreateTree (ServerRepository s)
                              {| CreateTreeInput.Id := NewId ctx;
                                 CreateTreeInput.EstateId := estateId;
                                 CreateTreeInput.X := TreeRequest.X req;
                                 CreateTreeInput.Y := TreeRequest.Y req;
                                 CreateTreeInput.Height :=
                                   TreeRequest.Height req |} db with
                      | ((_, Some _), db) =>
                          Returned
                            ((StatusInternalServerError, something_happens),
                             db)
                      | ((None, None), db) => Panicked
                      | ((Some output, None), db) =>
                          match ParseId ctx (CreateTreeOutput.Id output) with
                          | None =>
                              Returned
                                ((StatusBadRequest, invalid_request), db)
                          | Some id => Returned ((StatusOK, TreeBody id), db)
                          end
                      end
                end
          end
      end
  end.

(** [func (s *Server) GetEstateEstateIdDronePlan(ctx, estateId, params)] *)
Definition GetEstateEstateIdDronePlan {DB} (s : Server DB)
    (estateId : string) (params : DronePlanParams.t) (db : DB)
    : outcome (response * DB) :=
  match GetEstateTreesByEstateId (ServerRepository s)
          {| GetEstateTreesByEstateIdInput.EstateId := estateId |} db with
  | ((_, Some _), db) =>
      Returned ((StatusInternalServerError, invalid_request), db)
  | ((None, None), db) => Returned ((StatusNotFound, estate_not_found), db)
  | ((Some output, None), db) =>
      let calculateDroneDistanceInput :=
        {| Trees := GetEstateTreesByEstateIdOutput.Trees output;
           Estate_ := GetEstateTreesByEstateIdOutput.Estate output |} in
      match CalculateDroneDistance (ServerConfig s)
              (Some calculateDroneDistanceInput)
              (DronePlanParams.MaxDistance params) with
      | Panicked => Panicked
      | Exhausted => Exhausted
      | Returned (_, Some _) =>
          Returned ((StatusInternalServerError, something_happens), db)
      | Returned (None, None) => Panicked
      | Returned (Some calculateDroneDistanceOutput, None) =>
          let resp :=
            match DronePlanParams.MaxDistance params with
            | None =>
                {| DronePlanResponse.Distance :=
                     TotalDistance calculateDroneDistanceOutput;
                   DronePlanResponse.Rest := None |}
            | Some maxDistance =>
                {| DronePlanResponse.Distance := maxDistance;
                   DronePlanResponse.Rest :=
                     Some (Some (LastAchievableXCoordinate
                                   calculateDroneDistanceOutput),
                           Some (LastAchievableYCoordinate
                                   calculateDroneDistanceOutput)) |}
            end in
          Returned ((StatusOK, DronePlanBody resp), db)
      end
  end.

(** What the API description asks of a tree request:
    [x], [y]: [min=1,max=50000]; [height]: [min=1,max=30]. *)
Definition tree_request_valid (req : TreeRequest.t) : Prop :=
  1 <= TreeRequest.X req <= 50000 /\ 1 <= TreeRequest.Y req <= 50000 /\
  1 <= TreeRequest.Height req <= 30.

(** What the API description asks of an estate request:
    [length], [width]: [min=1,max=50000]. *)
Definition estate_request_valid (req : EstateRequest.t) : Prop :=
  1 <= EstateRequest.Length req <= 50000 /\
  1 <= EstateRequest.Width req <= 50000.

(** ** A database and a server to try the handlers on *)

(** One estate, 5 long and 1 wide, whatever the id, with a tree of height 5
    at (5, 1). *)
Definition sample_db : Db :=
  {| select_estate := fun _ => Scanned (5, 1);
     select_trees :=
       fun _ => Rows [Scanned {| X := 5; Y := 1; Height := 5 |}] |}.

(** A database without estates and without trees. *)
Definition empty_db : Db :=
  {| select_estate := fun _ => ScanError ErrNoRows;
     select_trees := fun _ => Rows [] |}.

(** A server on the repository of this package, whose writes succeed with
    the id they are given and whose cells are all free. *)
Definition sample_server : Server Db :=
  {| ServerRepository :=
       Repository
         (fun input db =>
            ((Some {| CreateEstateOutput.Id := CreateEstateInput.Id input |},
              None), db))
         (fun _ db => ((Some {| IsTreeExistOutput.IsExist := false |}, None), db))
         (fun input db =>
            ((Some {| CreateTreeOutput.Id := CreateTreeInput.Id input |},
              None), db));
     ServerConfig := cfg10 |}.

(** A request context whose body decodes to [req], with a validator that
    accepts what [valid] accepts. *)
Definition sample_context {Req} (req : Req) (valid : Req -> bool)
    : Context Req :=
  {| Decode := Some req;
     Validate := fun r => if valid r then None else Some (OtherError "invalid");
     NewId := "018f49a0-88be-7fd6-a964-4f9742dbc90e";
     ParseId := fun s => Some s |}.

(** A server on a mock repository, as the handler tests set one up: the
    trees of an estate are answered with [answer], the other methods are not
    expected to be called.  The scale factor is the tests' 10. *)
Definition mock_server
    (answer : option GetEstateTreesByEstateIdOutput.t * option error)
    : Server unit :=
  {| ServerRepository :=
       {| CreateEstate := fun _ db => ((None, Some (OtherError "unexpected")), db);
          GetEstateByEstateId :=
            fun _ db => ((None, Some (OtherError "unexpected")), db);
          IsTreeExist := fun _ db => ((None, Some (OtherError "unexpected")), db);
          CreateTree := fun _ db => ((None, Some (OtherError "unexpected")), db);
          GetEstateTreesByEstateId := fun _ db => (answer, db) |};
     ServerConfig := cfg10 |}.

Definition mock_trees (length width : Z) (trees : list (Z * Z * Z))
    : GetEstateTreesByEstateIdOutput.t :=
  {| GetEstateTreesByEstateIdOutput.Trees := Trees (mk_input length width trees);
     GetEstateTreesByEstateIdOutput.Estate :=
       {| Length := length; Width := width |} |}.

(** * Properties *)

(** ** The repository's tests of the planner *)

Example test_nil_input :
  CalculateDroneDistance cfg10 None None
  = Returned (None, Some invalid_input_error).
Proof. reflexivity. Qed.

Example test_single_tree :
  total_of (CalculateDroneDistance cfg10
              (Some (mk_input 5 5 [(3, 3, 5)])) None) = Some 252.
Proof. vm_compute. reflexivity. Qed.

Example test_single_cell :
  total_of (CalculateDroneDistance cfg10
              (Some (mk_input 1 1 [(1, 1, 5)])) None) = Some 12.
Proof. vm_compute. reflexivity. Qed.

Example test_multiple_trees :
  total_of (CalculateDroneDistance cfg10
              (Some (mk_input 5 5 [(2, 2, 5); (3, 3, 3); (4, 4, 4)])) None)
  = Some 266.
Proof. vm_compute. reflexivity. Qed.

Example test_no_trees :
  total_of (CalculateDroneDistance cfg10 (Some (mk_input 5 5 [])) None)
  = Some 242.
Proof. vm_compute. reflexivity. Qed.

Example test_large_estate :
  total_of (CalculateDroneDistance cfg10
              (Some (mk_input 100 100 [(50, 50, 10); (75, 25, 20)])) None)
  = Some 100052.
Proof. vm_compute. reflexivity. Qed.

Example test_coordinates_1 :
  last_of (CalculateDroneDistance cfg10
             (Some (mk_input 5 1 [(5, 1, 5)])) (Some 46)) = Some (4, 1).
Proof. vm_compute. reflexivity. Qed.

Example test_coordinates_2 :
  last_of (CalculateDroneDistance cfg10
             (Some (mk_input 5 1 [(5, 1, 5)])) (Some 32)) = Some (4, 1).
Proof. vm_compute. reflexivity. Qed.

Example test_coordinates_3 :
  last_of (CalculateDroneDistance cfg10
             (Some (mk_input 5 1 [(5, 1, 5)])) (Some 33)) = Some (4, 1).
Proof. vm_compute. reflexivity. Qed.

Example test_coordinates_4 :
  last_of (CalculateDroneDistance cfg10
             (Some (mk_input 5 2 [(5, 1, 5); (5, 2, 10)])) (Some 111))
  = Some (2, 2).
Proof. vm_compute. reflexivity. Qed.

Example test_coordinates_5 :
  last_of (CalculateDroneDistance cfg10
             (Some (mk_input 5 2 [(5, 1, 5); (5, 2, 10)])) (Some 112))
  = Some (1, 2).
Proof. vm_compute. reflexivity. Qed.

(** A tree outside the estate makes the write to the grid panic. *)
Example tree_out_of_bounds_panics :
  CalculateDroneDistance cfg10 (Some (mk_input 5 2 [(6, 2, 10)])) None
  = Panicked.
Proof. vm_compute. reflexivity. Qed.

(** Rounding of [float64]: [2^53 + 1] is not representable. *)
Example float64_rounds :
  GoInt.abs_via_float64 (2 ^ 53 + 1) = 2 ^ 53 /\
  GoInt.abs_via_float64 (2 ^ 53 + 3) = 2 ^ 53 + 4 /\
  GoInt.abs_via_float64 (- 7) = 7 /\
  GoInt.abs_via_float64 GoInt.min_int = GoInt.min_int.
Proof. vm_compute. auto. Qed.

(** ** Machine arithmetic *)

Lemma wrap_in_range z : GoInt.in_range (GoInt.wrap z).
Proof.
  unfold GoInt.in_range, GoInt.wrap, GoInt.min_int, GoInt.max_int.
  pose proof (Z.mod_pos_bound (z + 2 ^ 63) (2 ^ 64) ltac:(lia)). lia.
Qed.

Lemma wrap_small z : GoInt.in_range z -> GoInt.wrap z = z.
Proof.
  unfold GoInt.in_range, GoInt.wrap, GoInt.min_int, GoInt.max_int. intros H.
  rewrite Z.mod_small by lia. lia.
Qed.

Lemma wrap_add_l a b : GoInt.wrap (GoInt.wrap a + b) = GoInt.wrap (a + b).
Proof.
  unfold GoInt.wrap. f_equal.
  replace ((a + 2 ^ 63) mod 2 ^ 64 - 2 ^ 63 + b + 2 ^ 63)
    with ((a + 2 ^ 63) mod 2 ^ 64 + b) by lia.
  rewrite Zplus_mod_idemp_l. f_equal. lia.
Qed.

Lemma add_0_r_in_range a : GoInt.in_range a -> GoInt.add a 0 = a.
Proof. intros H. unfold GoInt.add. rewrite Z.add_0_r. by apply wrap_small. Qed.

Lemma float64_small a : 0 <= a < 2 ^ 53 -> GoInt.float64_of_nonneg a = a.
Proof.
  intros [H0 H]. unfold GoInt.float64_of_nonneg.
  destruct (Z.eq_dec a 0) as [->|Hne]; [reflexivity|].
  assert (Z.log2 a < 53) as Hl by (apply Z.log2_lt_pow2; lia).
  apply Z.ltb_lt in Hl. cbv zeta. by rewrite Hl.
Qed.

Lemma abs_via_float64_exact d :
  Z.abs d < 2 ^ 53 -> GoInt.abs_via_float64 d = Z.abs d.
Proof.
  intros H. unfold GoInt.abs_via_float64.
  rewrite float64_small by lia.
  destruct (2 ^ 63 <=? Z.abs d) eqn:E; [apply Z.leb_le in E; lia|reflexivity].
Qed.

(** ** Loops as runs over lists *)

Lemma ctl_bind_assoc {S T U R} (c : ctl S R) (k : S -> ctl T R)
    (k' : T -> ctl U R) :
  ctl_bind (ctl_bind c k) k' = ctl_bind c (fun s => ctl_bind (k s) k').
Proof. by destruct c. Qed.

Lemma run_cells_app {A S R} (body : A -> S -> ctl S R) l1 l2 s :
  run_cells body (l1 ++ l2) s
  = ctl_bind (run_cells body l1 s) (run_cells body l2).
Proof.
  revert s. induction l1 as [|a l1 IH]; intros s; simpl; [done|].
  rewrite ctl_bind_assoc. destruct (body a s); simpl; auto.
Qed.

Lemma run_cells_fmap {A B S R} (f : A -> B) (body : B -> S -> ctl S R) l s :
  run_cells body (f <$> l) s = run_cells (fun a => body (f a)) l s.
Proof.
  revert s. induction l as [|a l IH]; intros s; simpl; [done|].
  destruct (body (f a) s); simpl; auto.
Qed.

Lemma run_cells_bind {A B S R} (f : A -> list B) (body : B -> S -> ctl S R)
    l s :
  run_cells body (l ≫= f) s
  = run_cells (fun a => run_cells body (f a)) l s.
Proof.
  revert s. induction l as [|a l IH]; intros s; simpl; [done|].
  rewrite run_cells_app. destruct (run_cells body (f a) s); simpl; auto.
Qed.

Lemma run_cells_ext {A S R} (b1 b2 : A -> S -> ctl S R) l s :
  (forall a s', a ∈ l -> b1 a s' = b2 a s') ->
  run_cells b1 l s = run_cells b2 l s.
Proof.
  revert s. induction l as [|a l IH]; intros s H; simpl; [done|].
  rewrite H by constructor.
  destruct (b2 a s); simpl; auto. apply IH. intros; apply H. by constructor.
Qed.

Lemma for_up_run {S R} (body : Z -> S -> ctl S R) fuel hi j s :
  (Z.to_nat (hi - j) <= fuel)%nat ->
  for_up fuel hi body j s = run_cells body (seqZ j (hi - j)) s.
Proof.
  revert j s. induction fuel as [|fuel IH]; intros j s Hf; simpl.
  - destruct (j <? hi) eqn:E.
    + apply Z.ltb_lt in E. lia.
    + apply Z.ltb_ge in E. rewrite seqZ_nil by lia. done.
  - destruct (j <? hi) eqn:E.
    + apply Z.ltb_lt in E. rewrite seqZ_cons by lia. simpl.
      destruct (body j s); simpl; auto.
      rewrite IH by lia. do 2 f_equal; lia.
    + apply Z.ltb_ge in E. rewrite seqZ_nil by lia. done.
Qed.

Lemma reverse_seqZ_succ j :
  0 <= j -> reverse (seqZ 0 (j + 1)) = j :: reverse (seqZ 0 j).
Proof.
  intros H. rewrite seqZ_app by lia. rewrite reverse_app.
  replace (seqZ (0 + j) 1) with [j]; [done|].
  rewrite seqZ_cons by lia. rewrite seqZ_nil by lia. done.
Qed.

Lemma seqZ_snoc n : 1 <= n -> seqZ 0 n = seqZ 0 (n - 1) ++ [n - 1].
Proof.
  intros H.
  assert (seqZ 0 (n - 1 + 1) = seqZ 0 (n - 1) ++ [n - 1]) as E.
  { rewrite seqZ_app by lia.
    rewrite (seqZ_cons _ 1) by lia.
    rewrite (seqZ_nil _ (Z.pred 1)) by lia. done. }
  by replace (n - 1 + 1) with n in E by lia.
Qed.

Lemma reverse_seqZ_pos n :
  1 <= n -> reverse (seqZ 0 n) = (n - 1) :: reverse (seqZ 0 (n - 1)).
Proof. intros H. rewrite seqZ_snoc by lia. apply reverse_snoc. Qed.

Lemma for_down_run {S R} (body : Z -> S -> ctl S R) fuel j s :
  (Z.to_nat (j + 1) <= fuel)%nat ->
  for_down fuel body j s = run_cells body (reverse (seqZ 0 (j + 1))) s.
Proof.
  revert j s. induction fuel as [|fuel IH]; intros j s Hf; simpl.
  - destruct (0 <=? j) eqn:E.
    + apply Z.leb_le in E. lia.
    + apply Z.leb_gt in E. rewrite seqZ_nil by lia. done.
  - destruct (0 <=? j) eqn:E.
    + apply Z.leb_le in E. rewrite reverse_seqZ_succ by lia. simpl.
      destruct (body j s); simpl; auto.
      rewrite IH by lia. do 3 f_equal; lia.
    + apply Z.leb_gt in E. rewrite seqZ_nil by lia. done.
Qed.

Lemma rem_2_even i : 0 <= i -> (Z.rem i 2 =? 0) = Z.even i.
Proof.
  intros H. rewrite Z.rem_mod_nonneg by lia.
  rewrite Zeven_mod. done.
Qed.

Lemma scan_row_run cfg g width length maxDistance i s :
  0 <= i ->
  scan_row cfg g width length maxDistance i s
  = run_cells (visit cfg g width length maxDistance) (row_cells length i) s.
Proof.
  intros Hi. unfold scan_row, row_cells, visit.
  rewrite <- (rem_2_even i Hi).
  destruct (Z.rem i 2 =? 0) eqn:E.
  - rewrite for_up_run by lia. rewrite run_cells_fmap. simpl.
    rewrite Z.sub_0_r. apply run_cells_ext. intros a s' _. by rewrite E.
  - rewrite for_down_run by lia. rewrite run_cells_fmap. simpl.
    replace (length - 1 + 1) with length by lia.
    apply run_cells_ext. intros a s' _. by rewrite E.
Qed.

Lemma traverse_run cfg g width length maxDistance s :
  traverse cfg g width length maxDistance s
  = run_cells (visit cfg g width length maxDistance)
      (serpentine width length) s.
Proof.
  unfold traverse, serpentine. rewrite for_up_run by lia.
  rewrite run_cells_bind. rewrite Z.sub_0_r.
  apply run_cells_ext. intros i s' Hi.
  apply elem_of_seqZ in Hi. apply scan_row_run. lia.
Qed.

(** ** The height map *)

Lemma make_grid_shape width length :
  0 <= width -> 0 <= length ->
  exists g, make_grid width length = Some g /\ grid_shape g width length /\
    forall c, in_grid width length c -> grid_get g c.1 c.2 = Some 1.
Proof.
  intros Hw Hl. unfold make_grid.
  destruct (width <? 0) eqn:E1; [apply Z.ltb_lt in E1; lia|].
  destruct (length <? 0) eqn:E2; [apply Z.ltb_lt in E2; lia|].
  rewrite andb_false_r. eexists; split; [reflexivity|]. split.
  - split; [by rewrite length_replicate|].
    apply Forall_replicate. by rewrite length_replicate.
  - intros [i j] [Hi Hj]; simpl in *. unfold grid_get.
    destruct (i <? 0) eqn:E3; [apply Z.ltb_lt in E3; lia|].
    destruct (j <? 0) eqn:E4; [apply Z.ltb_lt in E4; lia|]. simpl.
    rewrite lookup_replicate_2 by lia. by rewrite lookup_replicate_2 by lia.
Qed.

Lemma grid_get_in_grid g width length c :
  grid_shape g width length -> in_grid width length c ->
  is_Some (grid_get g c.1 c.2).
Proof.
  intros [Hlen Hrows] [Hi Hj]. destruct c as [i j]; simpl in *.
  unfold grid_get.
  destruct (i <? 0) eqn:E3; [apply Z.ltb_lt in E3; lia|].
  destruct (j <? 0) eqn:E4; [apply Z.ltb_lt in E4; lia|]. simpl.
  destruct (lookup_lt_is_Some_2 g (Z.to_nat i)) as [row Hrow]; [lia|].
  rewrite Hrow. apply lookup_lt_is_Some_2.
  rewrite (Forall_lookup_1 _ _ _ _ Hrows Hrow). lia.
Qed.

Lemma grid_set_spec g width length i j v :
  grid_shape g width length -> in_grid width length (i, j) ->
  exists g', grid_set g i j v = Some g' /\ grid_shape g' width length /\
    forall c, grid_get g' c.1 c.2
              = if decide (c = (i, j)) then Some v else grid_get g c.1 c.2.
Proof.
  intros [Hlen Hrows] [Hi Hj]; simpl in *. unfold grid_set.
  destruct (i <? 0) eqn:E3; [apply Z.ltb_lt in E3; lia|].
  destruct (j <? 0) eqn:E4; [apply Z.ltb_lt in E4; lia|]. simpl.
  destruct (lookup_lt_is_Some_2 g (Z.to_nat i)) as [row Hrow]; [lia|].
  rewrite Hrow.
  assert (List.length row = Z.to_nat length) as Hr.
  { exact (Forall_lookup_1 _ _ _ _ Hrows Hrow). }
  destruct (Z.to_nat j <? List.length row)%nat eqn:E5;
    [|apply Nat.ltb_ge in E5; lia].
  apply Nat.ltb_lt in E5.
  eexists; split; [reflexivity|]. split.
  - split; [by rewrite length_insert|].
    apply Forall_insert; [done|]. by rewrite length_insert.
  - intros [i' j']; simpl. unfold grid_get.
    destruct (i' <? 0) eqn:E6.
    { apply Z.ltb_lt in E6. simpl. case_decide as Hc; [|done].
      inversion Hc; lia. }
    destruct (j' <? 0) eqn:E7.
    { apply Z.ltb_lt in E7. simpl. case_decide as Hc; [|done].
      inversion Hc; lia. }
    apply Z.ltb_ge in E6, E7. simpl.
    destruct (decide (Z.to_nat i' = Z.to_nat i)) as [Hii|Hii].
    + rewrite Hii. rewrite list_lookup_insert_eq by lia.
      assert (i' = i) as -> by lia. rewrite Hrow.
      destruct (decide (Z.to_nat j' = Z.to_nat j)) as [Hjj|Hjj].
      * rewrite Hjj. rewrite list_lookup_insert_eq by lia.
        assert (j' = j) as -> by lia. by rewrite decide_True.
      * rewrite list_lookup_insert_ne by lia.
        rewrite decide_False; [done|]. intros Hc; inversion Hc; lia.
    + rewrite list_lookup_insert_ne by lia.
      rewrite decide_False; [done|]. intros Hc; inversion Hc; lia.
Qed.

Lemma plant_trees_spec e trees : forall g (h : Z -> Z -> Z),
  grid_shape g (Width e) (Length e) ->
  Forall (tree_in_bounds e) trees ->
  (forall c, in_grid (Width e) (Length e) c ->
     grid_get g c.1 c.2 = Some (h (c.2 + 1) (c.1 + 1))) ->
  exists g', plant_trees g trees = Some g' /\
    grid_shape g' (Width e) (Length e) /\
    forall c, in_grid (Width e) (Length e) c ->
      grid_get g' c.1 c.2
      = Some (fold_left
                (fun h t => if (X t =? c.2 + 1) && (Y t =? c.1 + 1)
                            then GoInt.add (Height t) 1 else h)
                trees (h (c.2 + 1) (c.1 + 1))).
Proof.
  induction trees as [|t trees IH]; intros g h Hshape Hb Hg; simpl.
  - eauto.
  - inversion Hb as [|? ? [Hx Hy] Hb']; subst.
    destruct (grid_set_spec g (Width e) (Length e) (Y t - 1) (X t - 1)
                (GoInt.add (Height t) 1) Hshape) as (g1 & -> & Hs1 & Hg1).
    { split; simpl; lia. }
    destruct (IH g1
      (fun x y => if (X t =? x) && (Y t =? y)
                  then GoInt.add (Height t) 1 else h x y) Hs1 Hb')
      as (g' & Hp & Hs' & Hg').
    { intros c Hc. rewrite Hg1. rewrite (Hg c Hc). destruct c as [i j].
      simpl. case_decide as Hd.
      - inversion Hd; subst.
        replace (X t - 1 + 1) with (X t) by lia.
        replace (Y t - 1 + 1) with (Y t) by lia.
        by rewrite !Z.eqb_refl.
      - destruct (X t =? j + 1) eqn:E1; [|done].
        destruct (Y t =? i + 1) eqn:E2; [|done].
        apply Z.eqb_eq in E1, E2. exfalso. apply Hd. f_equal; lia. }
    exists g'. split; [done|]. split; [done|]. intros c Hc. by rewrite Hg'.
Qed.

Lemma build_grid_spec input :
  planner_precondition input ->
  exists g, build_grid input = Some g /\
    grid_shape g (Width (Estate_ input)) (Length (Estate_ input)) /\
    forall c, in_grid (Width (Estate_ input)) (Length (Estate_ input)) c ->
      grid_get g c.1 c.2
      = Some (planted_height (Trees input) (c.2 + 1) (c.1 + 1)).
Proof.
  intros (Hw & Hl & Hb). unfold build_grid.
  destruct (make_grid_shape (Width (Estate_ input)) (Length (Estate_ input)))
    as (g0 & -> & Hs0 & Hg0); [lia..|].
  destruct (plant_trees_spec (Estate_ input) (Trees input) g0 (fun _ _ => 1)
              Hs0 Hb Hg0) as (g & Hp & Hs & Hg).
  exists g. split; [done|]. split; [done|]. intros c Hc.
  by rewrite (Hg c Hc).
Qed.

(** ** Shape of the serpentine path *)

Lemma serpentine_succ width length :
  0 <= width ->
  serpentine (width + 1) length
  = serpentine width length ++ row_cells length width.
Proof.
  intros H. unfold serpentine. rewrite seqZ_app by lia.
  rewrite bind_app. f_equal.
  rewrite seqZ_cons by lia. rewrite seqZ_nil by lia. simpl.
  by rewrite app_nil_r.
Qed.

Lemma elem_of_row_cells length i c :
  c ∈ row_cells length i <-> c.1 = i /\ 0 <= c.2 < length.
Proof.
  unfold row_cells. destruct c as [a b]; simpl.
  destruct (Z.even i); rewrite list_elem_of_fmap; split.
  - intros (j & [= -> ->] & Hj). apply elem_of_seqZ in Hj. lia.
  - intros [-> H]. exists b. split; [done|]. apply elem_of_seqZ. lia.
  - intros (j & [= -> ->] & Hj). apply elem_of_reverse, elem_of_seqZ in Hj. lia.
  - intros [-> H]. exists b. split; [done|].
    apply elem_of_reverse, elem_of_seqZ. lia.
Qed.

Lemma elem_of_serpentine width length c :
  c ∈ serpentine width length <-> in_grid width length c.
Proof.
  unfold serpentine, in_grid. rewrite list_elem_of_bind. split.
  - intros (i & Hc & Hi). apply elem_of_row_cells in Hc.
    apply elem_of_seqZ in Hi. lia.
  - intros [Hi Hj]. exists c.1. split.
    + by apply elem_of_row_cells.
    + apply elem_of_seqZ. lia.
Qed.

Lemma NoDup_row_cells length i : NoDup (row_cells length i).
Proof.
  unfold row_cells.
  destruct (Z.even i); (apply NoDup_fmap_2; [by intros ?? [=]|]).
  - apply NoDup_seqZ.
  - rewrite reverse_Permutation. apply NoDup_seqZ.
Qed.

Lemma NoDup_serpentine width length : NoDup (serpentine width length).
Proof.
  unfold serpentine. apply NoDup_bind.
  - intros i1 i2 c _ _ H1 H2.
    apply elem_of_row_cells in H1, H2. lia.
  - intros i _. apply NoDup_row_cells.
  - apply NoDup_seqZ.
Qed.

Lemma length_row_cells length i :
  List.length (row_cells length i) = Z.to_nat length.
Proof.
  unfold row_cells.
  destruct (Z.even i); rewrite length_fmap, ?length_reverse; apply length_seqZ.
Qed.

Lemma row_cells_first length i :
  1 <= length ->
  exists l, row_cells length i = row_first length i :: l.
Proof.
  intros H. unfold row_cells, row_first. destruct (Z.even i).
  - rewrite seqZ_cons by lia. simpl. eauto.
  - rewrite reverse_seqZ_pos by lia. simpl. eauto.
Qed.

Lemma row_cells_last length i :
  1 <= length -> last (row_cells length i) = Some (row_last length i).
Proof.
  intros H. unfold row_cells, row_last. destruct (Z.even i).
  - rewrite seqZ_snoc by lia. rewrite fmap_app. simpl. by rewrite last_snoc.
  - rewrite seqZ_cons by lia. rewrite reverse_cons, fmap_app. simpl.
    by rewrite last_snoc.
Qed.

Lemma serpentine_first width length :
  1 <= width -> 1 <= length ->
  exists l, serpentine width length = (0, 0) :: l.
Proof.
  intros Hw Hl. unfold serpentine. rewrite seqZ_cons by lia. simpl.
  destruct (row_cells_first length 0 Hl) as [l ->].
  unfold row_first. simpl. eauto.
Qed.

Lemma serpentine_last width length :
  1 <= width -> 1 <= length ->
  last (serpentine width length) = Some (final_corner width length).
Proof.
  intros Hw Hl. unfold final_corner.
  replace (serpentine width length)
    with (serpentine (width - 1 + 1) length) by (f_equal; lia).
  rewrite serpentine_succ by lia.
  pose proof (row_cells_last length (width - 1) Hl) as H.
  destruct (row_cells length (width - 1)) as [|c l] eqn:E using rev_ind;
    [done|].
  rewrite last_snoc in H. rewrite app_assoc, last_snoc. done.
Qed.

(** ** The cell read for the previous height is the preceding cell *)

Lemma chain_app length p l1 l2 :
  chain length p (l1 ++ l2)
  <-> chain length p l1 /\ chain length (last_or p l1) l2.
Proof.
  revert p. induction l1 as [|c l1 IH]; intros p; simpl.
  - unfold last_or. simpl. tauto.
  - rewrite IH. unfold last_or. simpl.
    destruct l1 as [|c1 l1]; simpl; [tauto|].
    destruct (last (c1 :: l1)) eqn:E; [tauto|].
    by apply last_None in E.
Qed.

Lemma chain_lookup length p l k c c' :
  chain length p l -> l !! k = Some c' -> l !! Datatypes.S k = Some c ->
  previous_cell length c = Some c'.
Proof.
  revert p k. induction l as [|a l IH]; intros p k Hc H1 H2; [done|].
  destruct Hc as [_ Hc]. destruct k as [|k]; simpl in *.
  - injection H1 as ->. destruct l as [|b l]; [done|].
    injection H2 as ->. by destruct Hc.
  - eapply IH; eauto.
Qed.

Lemma chain_ascending length i (k : nat) : forall a,
  0 <= i -> Z.even i = true -> 1 <= a ->
  chain length (Some (i, a - 1)) ((fun j => (i, j)) <$> seqZ a (Z.of_nat k)).
Proof.
  induction k as [|k IH]; intros a Hi He Ha; [done|].
  rewrite seqZ_cons by lia. simpl. split.
  - unfold previous_cell, previous_cell_even. simpl.
    rewrite rem_2_even by lia. rewrite He.
    destruct (a =? 0) eqn:E; [apply Z.eqb_eq in E; lia|done].
  - replace (Z.pred (Z.of_nat (Datatypes.S k))) with (Z.of_nat k) by lia.
    specialize (IH (Z.succ a) Hi He ltac:(lia)).
    by replace (Z.succ a - 1) with a in IH by lia.
Qed.

Lemma chain_descending length i (k : nat) :
  0 <= i -> Z.even i = false -> Z.of_nat k <= length - 1 ->
  chain length (Some (i, Z.of_nat k))
    ((fun j => (i, j)) <$> reverse (seqZ 0 (Z.of_nat k))).
Proof.
  intros Hi He. induction k as [|k IH]; intros Hk; [done|].
  rewrite reverse_seqZ_pos by lia. simpl.
  replace (Z.of_nat (Datatypes.S k) - 1) with (Z.of_nat k) by lia. split.
  - unfold previous_cell, previous_cell_odd. simpl.
    rewrite rem_2_even by lia. rewrite He.
    destruct (Z.of_nat k =? length - 1) eqn:E; [apply Z.eqb_eq in E; lia|].
    do 2 f_equal. lia.
  - apply IH. lia.
Qed.

Lemma chain_row length i :
  0 <= i -> 1 <= length ->
  chain length (if i =? 0 then None else Some (row_last length (i - 1)))
    (row_cells length i).
Proof.
  intros Hi Hl. unfold row_cells. destruct (Z.even i) eqn:He.
  - rewrite seqZ_cons by lia. simpl. split.
    + unfold previous_cell, previous_cell_even, row_last. simpl.
      rewrite rem_2_even by lia. rewrite He.
      destruct (i =? 0) eqn:E; [done|]. apply Z.eqb_neq in E.
      replace (Z.even (i - 1)) with false; [done|].
      rewrite Z.even_sub. rewrite He. done.
    + pose proof (chain_ascending length i (Z.to_nat (length - 1)) 1 Hi He
                    ltac:(lia)) as H.
      rewrite Z2Nat.id in H by lia. exact H.
  - rewrite reverse_seqZ_pos by lia. simpl. split.
    + unfold previous_cell, previous_cell_odd, row_last. simpl.
      rewrite rem_2_even by lia. rewrite He. rewrite Z.eqb_refl.
      destruct (i =? 0) eqn:E; [apply Z.eqb_eq in E; by subst|].
      replace (Z.even (i - 1)) with true; [done|].
      rewrite Z.even_sub. rewrite He. done.
    + pose proof (chain_descending length i (Z.to_nat (length - 1)) Hi He
                    ltac:(lia)) as H.
      rewrite Z2Nat.id in H by lia. exact H.
Qed.

Lemma chain_serpentine_nat length (n : nat) :
  1 <= length -> chain length None (serpentine (Z.of_nat n) length).
Proof.
  intros Hl. induction n as [|n IH]; [done|].
  replace (Z.of_nat (Datatypes.S n)) with (Z.of_nat n + 1) by lia.
  rewrite serpentine_succ by lia. apply chain_app. split; [done|].
  pose proof (chain_row length (Z.of_nat n) ltac:(lia) Hl) as Hrow.
  destruct n as [|n]; [done|].
  unfold last_or. rewrite serpentine_last by lia. unfold final_corner.
  destruct (Z.of_nat (Datatypes.S n) =? 0) eqn:E;
    [apply Z.eqb_eq in E; lia|done].
Qed.

Lemma chain_serpentine width length :
  1 <= length -> chain length None (serpentine width length).
Proof.
  intros Hl. destruct (Z_lt_le_dec width 0) as [Hw|Hw].
  - unfold serpentine. by rewrite seqZ_nil by lia.
  - rewrite <- (Z2Nat.id width Hw). by apply chain_serpentine_nat.
Qed.

(** ** One cell *)

Lemma visit_even_with cfg g width length maxDistance i j s :
  visit_even cfg g width length maxDistance i j s
  = visit_with cfg g maxDistance i j (previous_cell_even i j)
      (negb ((i =? 0) && (j =? 0)))
      ((i =? width - 1) && (j =? length - 1)) s.
Proof.
  unfold visit_even, visit_with, measure, settle, read_heights,
    previous_cell_even.
  destruct (grid_get g i j) as [cur|] eqn:Ec;
    destruct (j =? 0); destruct (i =? 0); simpl; try done;
    try (destruct (grid_get g (i - 1) j) as [p|]; simpl; [|done]);
    try (destruct (grid_get g i (j - 1)) as [p|]; simpl; [|done]);
    (destruct (over_budget maxDistance _); [done|]);
    try (destruct (((_ =? width - 1) && (_ =? length - 1))); done);
    try (destruct (((_ =? width - 1) && false)); done);
    by destruct (_ =? width - 1).
Qed.

Lemma visit_odd_with cfg g width length maxDistance i j s :
  visit_odd cfg g width length maxDistance i j s
  = visit_with cfg g maxDistance i j (previous_cell_odd length i j) true
      ((i =? width - 1) && (j =? 0)) s.
Proof.
  unfold visit_odd, visit_with, measure, settle, read_heights,
    previous_cell_odd.
  destruct (grid_get g i j) as [cur|] eqn:Ec;
    destruct (j =? length - 1); simpl; try done;
    try (destruct (grid_get g (i - 1) j) as [p|]; simpl; [|done]);
    try (destruct (grid_get g i (j + 1)) as [p|]; simpl; [|done]);
    (destruct (over_budget maxDistance _); [done|]);
    by destruct ((_ =? width - 1) && (j =? 0)).
Qed.

Lemma visit_split cfg g width length maxDistance c s :
  visit cfg g width length maxDistance c s
  = match arrive cfg g length c s with
    | None => Panic
    | Some s1 =>
        if over_budget maxDistance s1
        then Return (calculateDroneDistanceOutput s1)
        else match depart g width length c s1 with
             | Some s2 => Continue s2
             | None => Panic
             end
    end.
Proof.
  unfold visit. rewrite visit_even_with, visit_odd_with.
  unfold visit_with, arrive, depart, previous_cell, charge, landing.
  by destruct (Z.rem c.1 2 =? 0).
Qed.

Lemma previous_cell_in_grid width length c c' :
  in_grid width length c -> previous_cell length c = Some c' ->
  in_grid width length c'.
Proof.
  destruct c as [i j]. unfold in_grid, previous_cell, previous_cell_even,
    previous_cell_odd. simpl. intros [Hi Hj].
  destruct (Z.rem i 2 =? 0) eqn:E.
  - destruct (j =? 0) eqn:Ej; [destruct (i =? 0) eqn:Ei; [done|]|];
      intros [= <-]; simpl; lia.
  - assert (i <> 0) by (intros ->; done).
    destruct (j =? length - 1) eqn:Ej; intros [= <-]; simpl; lia.
Qed.

Section OneCell.

Variables (cfg : Config) (g : grid) (width length : Z).
Hypothesis Hshape : grid_shape g width length.

Lemma arrive_total c s :
  in_grid width length c ->
  exists s1, arrive cfg g length c s = Some s1 /\
    calculateDroneDistanceOutput s1 = calculateDroneDistanceOutput s.
Proof using Hshape.
  intros Hc. unfold arrive, measure, read_heights.
  destruct (grid_get_in_grid g width length c Hshape Hc) as [cur ->].
  destruct (previous_cell length c) as [[pi pj]|] eqn:Ep.
  - pose proof (previous_cell_in_grid _ _ _ _ Hc Ep) as Hp.
    destruct (grid_get_in_grid g width length (pi, pj) Hshape Hp) as [p Hp'].
    simpl in Hp'. rewrite Hp'. eauto.
  - eauto.
Qed.

Lemma depart_total c s :
  in_grid width length c ->
  exists s2, depart g width length c s = Some s2 /\
    calculateDroneDistanceOutput s2
    = set_last (calculateDroneDistanceOutput s) (c.2 + 1) (c.1 + 1) /\
    totalHorizontalDistance s2 = totalHorizontalDistance s.
Proof using Hshape.
  intros Hc. unfold depart, settle.
  destruct (grid_get_in_grid g width length c Hshape Hc) as [h ->].
  destruct (landing width length c); eauto.
Qed.

Lemma locals_after_total l : forall s,
  Forall (in_grid width length) l ->
  exists s', locals_after cfg g width length l s = Some s'.
Proof using Hshape.
  induction l as [|c l IH]; intros s Hl; simpl; [eauto|].
  inversion Hl as [|? ? Hc Hl']; subst.
  destruct (arrive_total c s Hc) as (s1 & -> & _).
  destruct (depart_total c s1 Hc) as (s2 & -> & _).
  by apply IH.
Qed.

Lemma locals_after_app l1 l2 s :
  locals_after cfg g width length (l1 ++ l2) s
  = match locals_after cfg g width length l1 s with
    | Some s' => locals_after cfg g width length l2 s'
    | None => None
    end.
Proof.
  revert s. induction l1 as [|c l1 IH]; intros s; simpl; [done|].
  destruct (arrive cfg g length c s) as [s1|]; [|done].
  destruct (depart g width length c s1) as [s2|]; [|done]. apply IH.
Qed.

(** The three totals of the output struct are not written by the loops. *)
Lemma locals_after_totals l : forall s s',
  Forall (in_grid width length) l ->
  locals_after cfg g width length l s = Some s' ->
  TotalDistance (calculateDroneDistanceOutput s')
  = TotalDistance (calculateDroneDistanceOutput s) /\
  TotalHorizontalDistance (calculateDroneDistanceOutput s')
  = TotalHorizontalDistance (calculateDroneDistanceOutput s) /\
  TotalVerticalDistance (calculateDroneDistanceOutput s')
  = TotalVerticalDistance (calculateDroneDistanceOutput s).
Proof using Hshape.
  induction l as [|c l IH]; intros s s' Hl H; simpl in H.
  - by injection H as ->.
  - inversion Hl as [|? ? Hc Hl']; subst.
    destruct (arrive_total c s Hc) as (s1 & E1 & Ho1). rewrite E1 in H.
    destruct (depart_total c s1 Hc) as (s2 & E2 & Ho2 & _). rewrite E2 in H.
    destruct (IH s2 s' Hl' H) as (-> & -> & ->).
    rewrite Ho2, Ho1. done.
Qed.

(** After a non-empty run the last achievable coordinates are those of the
    last cell visited. *)
Lemma locals_after_last l c s s' :
  Forall (in_grid width length) (l ++ [c]) ->
  locals_after cfg g width length (l ++ [c]) s = Some s' ->
  LastAchievableXCoordinate (calculateDroneDistanceOutput s') = c.2 + 1 /\
  LastAchievableYCoordinate (calculateDroneDistanceOutput s') = c.1 + 1.
Proof using Hshape.
  intros Hl H. rewrite locals_after_app in H.
  destruct (locals_after cfg g width length l s) as [s0|]; [|done].
  simpl in H. apply Forall_app in Hl as [_ Hc].
  inversion Hc as [|? ? Hc' _]; subst.
  destruct (arrive_total c s0 Hc') as (s1 & E1 & Ho1). rewrite E1 in H.
  destruct (depart_total c s1 Hc') as (s2 & E2 & Ho2 & _). rewrite E2 in H.
  injection H as <-. by rewrite Ho2.
Qed.

End OneCell.

(** ** Runs with and without a budget *)

Lemma need_from_0 cfg g width length c l s :
  need_from cfg g width length (c :: l) s 0
  = match arrive cfg g length c s with
    | Some s1 => Some (budget_need s1)
    | None => None
    end.
Proof. reflexivity. Qed.

Lemma need_from_S cfg g width length c l s k :
  need_from cfg g width length (c :: l) s (Datatypes.S k)
  = match arrive cfg g length c s with
    | None => None
    | Some s1 =>
        match depart g width length c s1 with
        | None => None
        | Some s2 => need_from cfg g width length l s2 k
        end
    end.
Proof.
  unfold need_from. simpl.
  destruct (l !! k); destruct (arrive cfg g length c s) as [s1|]; try done;
    destruct (depart g width length c s1); done.
Qed.

Lemma run_unbudgeted cfg g width length l : forall s,
  run_cells (visit cfg g width length None) l s
  = match locals_after cfg g width length l s with
    | Some s' => Continue s'
    | None => Panic
    end.
Proof.
  induction l as [|c l IH]; intros s; simpl; [done|].
  rewrite visit_split. simpl.
  destruct (arrive cfg g length c s) as [s1|]; [|done].
  destruct (depart g width length c s1) as [s2|]; [|done]. simpl. apply IH.
Qed.

Lemma run_budgeted cfg g width length m l :
  grid_shape g width length ->
  forall s, Forall (in_grid width length) l ->
  exists k, stops_at cfg g width length m l s k
              (run_cells (visit cfg g width length (Some m)) l s).
Proof.
  intros Hshape. induction l as [|c l IH]; intros s Hl.
  - exists O. split; [done|]. split; [intros; lia|]. left. simpl. eauto.
  - inversion Hl as [|? ? Hc Hl']; subst. simpl. rewrite visit_split.
    destruct (arrive_total cfg g width length Hshape c s Hc) as (s1 & E1 & Ho1).
    rewrite E1. simpl. destruct (m <? budget_need s1) eqn:Em.
    + apply Z.ltb_lt in Em. exists O.
      split; [simpl; lia|]. split; [intros; lia|]. right.
      exists (budget_need s1), s. rewrite need_from_0, E1, Ho1. done.
    + apply Z.ltb_ge in Em.
      destruct (depart_total g width length Hshape c s1 Hc) as (s2 & E2 & _).
      rewrite E2. simpl.
      destruct (IH s2 Hl') as (k & Hk & Hbefore & Hend).
      exists (Datatypes.S k). split; [simpl; lia|]. split.
      * intros k' v' Hlt Hn. destruct k' as [|k'].
        -- rewrite need_from_0, E1 in Hn. injection Hn as <-. done.
        -- rewrite need_from_S, E1, E2 in Hn. eapply Hbefore; [|done]. lia.
      * destruct Hend as [(-> & s' & Hs' & Hr)|(v & s' & Hv & Hm & Hs' & Hr)].
        -- left. split; [done|]. exists s'. simpl. by rewrite E1, E2.
        -- right. exists v, s'. rewrite need_from_S, E1, E2. simpl.
           by rewrite E1, E2.
Qed.

(** The stopping index is determined by the needs along the path. *)
Lemma stops_at_unique cfg g width length m l s k1 k2 r1 r2 :
  stops_at cfg g width length m l s k1 r1 ->
  stops_at cfg g width length m l s k2 r2 ->
  k1 = k2.
Proof.
  intros (Hk1 & Hb1 & He1) (Hk2 & Hb2 & He2).
  destruct (lt_eq_lt_dec k1 k2) as [[Hlt| ->]|Hlt]; [|done|]; exfalso.
  - destruct He1 as [[-> _]|(v & s' & Hv & Hm & _)]; [lia|].
    specialize (Hb2 k1 v Hlt Hv). lia.
  - destruct He2 as [[-> _]|(v & s' & Hv & Hm & _)]; [lia|].
    specialize (Hb1 k2 v Hlt Hv). lia.
Qed.

Lemma CalculateDroneDistance_run cfg input maxDistance g :
  build_grid input = Some g ->
  CalculateDroneDistance cfg (Some input) maxDistance
  = match run_cells
            (visit cfg g (Width (Estate_ input)) (Length (Estate_ input))
               maxDistance)
            (serpentine (Width (Estate_ input)) (Length (Estate_ input)))
            initial_locals with
    | Continue s => Returned (Some (finish s), None)
    | Return o => Returned (Some o, None)
    | Panic => Panicked
    | OutOfFuel => Exhausted
    end.
Proof.
  intros Hg. unfold CalculateDroneDistance. rewrite Hg.
  by rewrite traverse_run.
Qed.

Lemma serpentine_in_grid width length :
  Forall (in_grid width length) (serpentine width length).
Proof. apply Forall_forall. intros c. apply elem_of_serpentine. Qed.

(** ** The planner returns *)

Ltac precondition_holds :=
  unfold planner_precondition, tree_in_bounds; simpl;
  repeat split; try lia; repeat constructor; simpl; lia.

Lemma planner_returns cfg input maxDistance :
  planner_precondition input ->
  exists g out,
    build_grid input = Some g /\
    grid_shape g (Width (Estate_ input)) (Length (Estate_ input)) /\
    CalculateDroneDistance cfg (Some input) maxDistance
    = Returned (Some out, None).
Proof.
  intros Hpre. destruct (build_grid_spec input Hpre) as (g & Hg & Hshape & _).
  exists g. rewrite (CalculateDroneDistance_run _ _ _ _ Hg).
  pose proof (serpentine_in_grid (Width (Estate_ input))
                (Length (Estate_ input))) as Hin.
  destruct maxDistance as [m|].
  - destruct (run_budgeted cfg g _ _ m _ Hshape initial_locals Hin)
      as (k & _ & _ & [(_ & s' & _ & ->)|(v & s' & _ & _ & _ & ->)]); eauto.
  - rewrite run_unbudgeted.
    destruct (locals_after_total cfg g _ _ Hshape _ initial_locals Hin)
      as [s' ->]. eauto.
Qed.

(** C8. [CalculateDroneDistance] returns an error exactly when its input is
    absent, and then the output is nil: a nil input yields the nil output
    with the invalid-input error; a non-nil input never yields an error; and
    a non-nil input that meets the dimension and tree-bound preconditions
    yields a non-nil output and no error. *)
Theorem error_iff_input_absent (cfg : Config) (maxDistance : option Z) :
  CalculateDroneDistance cfg None maxDistance
  = Returned (None, Some invalid_input_error) /\
  (forall input r,
     CalculateDroneDistance cfg (Some input) maxDistance = Returned r ->
     r.2 = None /\ r.1 <> None) /\
  (forall input, planner_precondition input ->
     exists out, CalculateDroneDistance cfg (Some input) maxDistance
                 = Returned (Some out, None)).
Proof.
  split; [reflexivity|]. split.
  - intros input r. unfold CalculateDroneDistance.
    destruct (build_grid input); [|done].
    destruct (traverse _ _ _ _ _ _); intros [= <-]; done.
  - intros input Hpre.
    destruct (planner_returns cfg input maxDistance Hpre) as (g & out & _ & _ & H).
    eauto.
Qed.

Lemma error_iff_input_absent_witness :
  planner_precondition (mk_input 5 2 [(5, 1, 5); (5, 2, 10)]) /\
  exists out,
    CalculateDroneDistance cfg10
      (Some (mk_input 5 2 [(5, 1, 5); (5, 2, 10)])) (Some 111)
    = Returned (Some out, None).
Proof.
  split; [precondition_holds|].
  apply (error_iff_input_absent cfg10 (Some 111)). precondition_holds.
Defined.

(** C10. Under the preconditions ([Width >= 1], [Length >= 1], every tree
    within [1..Length] by [1..Width]) every grid access is in bounds: the
    tree writes succeed and leave a [Width] by [Length] grid, every cell the
    traversal visits and every cell it reads for the previous height (in
    particular the one of row [i-1]) lies inside the grid, and the call
    returns instead of panicking or running on. *)
Theorem grid_accesses_in_bounds (cfg : Config)
    (input : CalculateDroneDistanceInput) (maxDistance : option Z) :
  planner_precondition input ->
  exists g r,
    build_grid input = Some g /\
    grid_shape g (Width (Estate_ input)) (Length (Estate_ input)) /\
    (forall c, c ∈ serpentine (Width (Estate_ input)) (Length (Estate_ input)) ->
       is_Some (grid_get g c.1 c.2) /\
       forall c', previous_cell (Length (Estate_ input)) c = Some c' ->
                  0 <= c'.1 /\ is_Some (grid_get g c'.1 c'.2)) /\
    CalculateDroneDistance cfg (Some input) maxDistance = Returned r.
Proof.
  intros Hpre.
  destruct (planner_returns cfg input maxDistance Hpre)
    as (g & out & Hg & Hshape & H).
  exists g, (Some out, None). split; [done|]. split; [done|]. split; [|done].
  intros c Hc. apply elem_of_serpentine in Hc. split.
  - by eapply grid_get_in_grid.
  - intros c' Hp. pose proof (previous_cell_in_grid _ _ _ _ Hc Hp) as Hc'.
    split; [apply Hc'|]. by eapply grid_get_in_grid.
Qed.

Lemma grid_accesses_in_bounds_witness :
  exists g r,
    build_grid (mk_input 5 2 [(5, 1, 5); (5, 2, 10)]) = Some g /\
    grid_shape g 2 5 /\
    (forall c, c ∈ serpentine 2 5 ->
       is_Some (grid_get g c.1 c.2) /\
       forall c', previous_cell 5 c = Some c' ->
                  0 <= c'.1 /\ is_Some (grid_get g c'.1 c'.2)) /\
    CalculateDroneDistance cfg10
      (Some (mk_input 5 2 [(5, 1, 5); (5, 2, 10)])) (Some 112) = Returned r.
Proof.
  apply (grid_accesses_in_bounds cfg10
           (mk_input 5 2 [(5, 1, 5); (5, 2, 10)]) (Some 112)).
  precondition_holds.
Defined.

(** C3. Under the preconditions and with no [maxDistance], the output
    satisfies [TotalDistance = TotalHorizontalDistance +
    TotalVerticalDistance]: with Go's addition always, and as an equation
    between integers whenever the sum fits an [int]. *)
Theorem total_is_sum_without_budget (cfg : Config)
    (input : CalculateDroneDistanceInput) :
  planner_precondition input ->
  exists out,
    CalculateDroneDistance cfg (Some input) None = Returned (Some out, None) /\
    TotalDistance out
    = GoInt.add (TotalHorizontalDistance out) (TotalVerticalDistance out) /\
    (GoInt.in_range (TotalHorizontalDistance out + TotalVerticalDistance out) ->
     TotalDistance out
     = TotalHorizontalDistance out + TotalVerticalDistance out).
Proof.
  intros Hpre. destruct (build_grid_spec input Hpre) as (g & Hg & Hshape & _).
  rewrite (CalculateDroneDistance_run _ _ _ _ Hg), run_unbudgeted.
  destruct (locals_after_total cfg g _ _ Hshape _ initial_locals
              (serpentine_in_grid _ _)) as [s' ->].
  exists (finish s'). split; [done|]. simpl. unfold GoInt.add.
  rewrite (Z.add_comm (totalVerticalDistance s')). split; [done|].
  apply wrap_small.
Qed.

Lemma total_is_sum_without_budget_witness :
  planner_precondition (mk_input 5 5 [(3, 3, 5)]) /\
  exists out,
    CalculateDroneDistance cfg10 (Some (mk_input 5 5 [(3, 3, 5)])) None
    = Returned (Some out, None) /\
    TotalDistance out = 252 /\
    TotalDistance out
    = TotalHorizontalDistance out + TotalVerticalDistance out.
Proof.
  split; [precondition_holds|].
  destruct (total_is_sum_without_budget cfg10 (mk_input 5 5 [(3, 3, 5)]))
    as (out & H1 & _ & H3); [precondition_holds|].
  exists out. split; [exact H1|].
  vm_compute in H1. injection H1 as <-. split; [reflexivity|].
  apply H3. unfold GoInt.in_range, GoInt.min_int, GoInt.max_int. simpl. lia.
Defined.

(** ** Where a budgeted run stops *)

Lemma need_from_total cfg g width length l s k :
  grid_shape g width length -> Forall (in_grid width length) l ->
  (k < List.length l)%nat ->
  is_Some (need_from cfg g width length l s k).
Proof.
  intros Hshape Hl Hk. unfold need_from.
  destruct (lookup_lt_is_Some_2 l k Hk) as [c Hc]. rewrite Hc.
  destruct (locals_after_total cfg g width length Hshape (take k l) s
              (Forall_take _ _ _ Hl)) as [s' ->].
  destruct (arrive_total cfg g width length Hshape c s'
              (Forall_lookup_1 _ _ _ _ Hl Hc)) as (s1 & -> & _).
  eauto.
Qed.

Lemma need_from_lt cfg g width length l s k v :
  need_from cfg g width length l s k = Some v -> (k < List.length l)%nat.
Proof.
  unfold need_from. destruct (l !! k) eqn:E; [|done]. intros _.
  by eapply lookup_lt_Some.
Qed.

Lemma locals_after_take_last cfg g width length l k c s s' :
  grid_shape g width length -> Forall (in_grid width length) l ->
  l !! k = Some c ->
  locals_after cfg g width length (take (Datatypes.S k) l) s = Some s' ->
  LastAchievableXCoordinate (calculateDroneDistanceOutput s') = c.2 + 1 /\
  LastAchievableYCoordinate (calculateDroneDistanceOutput s') = c.1 + 1.
Proof.
  intros Hshape Hl Hc H. rewrite (take_S_r _ _ _ Hc) in H.
  eapply locals_after_last; [done| |done].
  rewrite <- (take_S_r _ _ _ Hc). by apply Forall_take.
Qed.

Lemma traversal_rank_lookup width length k c :
  serpentine width length !! k = Some c ->
  traversal_rank width length (c.2 + 1) (c.1 + 1) = Datatypes.S k.
Proof.
  intros Hc. unfold traversal_rank.
  replace (c.1 + 1 - 1, c.2 + 1 - 1) with c
    by (destruct c; simpl; f_equal; lia).
  destruct (list_find (λ c0, c0 = c) (serpentine width length))
    as [[k' c']|] eqn:E.
  - apply list_find_Some in E as (Hk' & -> & _).
    f_equal. eapply NoDup_lookup; eauto using NoDup_serpentine.
  - apply list_find_None in E. rewrite Forall_forall in E.
    exfalso. eapply E; [|done]. by eapply list_elem_of_lookup_2.
Qed.

Lemma traversal_rank_origin width length :
  traversal_rank width length 0 0 = O.
Proof.
  unfold traversal_rank.
  destruct (list_find _ _) as [[k' c']|] eqn:E; [|done].
  apply list_find_Some in E as (Hk' & -> & _).
  apply list_elem_of_lookup_2, elem_of_serpentine in Hk'.
  destruct Hk' as [Hi _]. simpl in Hi. lia.
Qed.

Lemma length_serpentine_nat length (n : nat) :
  List.length (serpentine (Z.of_nat n) length) = (n * Z.to_nat length)%nat.
Proof.
  induction n as [|n IH]; [done|].
  replace (Z.of_nat (Datatypes.S n)) with (Z.of_nat n + 1) by lia.
  rewrite serpentine_succ by lia.
  rewrite length_app, IH, length_row_cells. lia.
Qed.

Lemma length_serpentine width length :
  0 <= width ->
  List.length (serpentine width length)
  = (Z.to_nat width * Z.to_nat length)%nat.
Proof.
  intros H. rewrite <- (Z2Nat.id width H) at 1. apply length_serpentine_nat.
Qed.

(** The output of a run that afforded [k] cells reaches exactly [k] cells
    into the traversal. *)
Lemma reach_after cfg g width length k s' :
  grid_shape g width length ->
  (k <= List.length (serpentine width length))%nat ->
  locals_after cfg g width length (take k (serpentine width length))
    initial_locals = Some s' ->
  reach width length (calculateDroneDistanceOutput s') = k.
Proof.
  intros Hshape Hk H. unfold reach. destruct k as [|k].
  - simpl in H. injection H as <-. apply traversal_rank_origin.
  - destruct (lookup_lt_is_Some_2 (serpentine width length) k) as [c Hc];
      [lia|].
    destruct (locals_after_take_last cfg g width length _ k c _ _ Hshape
                (serpentine_in_grid _ _) Hc H) as [-> ->].
    by apply traversal_rank_lookup.
Qed.

Lemma stops_at_reach cfg g width length m k r :
  grid_shape g width length ->
  stops_at cfg g width length m (serpentine width length) initial_locals k r ->
  exists out, result_output r = Some out /\ reach width length out = k.
Proof.
  intros Hshape (Hk & _ & [(-> & s' & Hs' & ->)|(v & s' & _ & _ & Hs' & ->)]).
  - exists (finish s'). split; [done|].
    rewrite <- (firstn_all (serpentine width length)) in Hs'.
    by apply (reach_after cfg g width length _ s' Hshape).
  - exists (calculateDroneDistanceOutput s'). split; [done|].
    by apply (reach_after cfg g width length k s' Hshape).
Qed.

(** ** The budget cut-off *)

(** What a call with a budget returns, by the number of cells afforded. *)
Lemma budgeted_call cfg input m :
  planner_precondition input ->
  exists g k r out,
    build_grid input = Some g /\
    grid_shape g (Width (Estate_ input)) (Length (Estate_ input)) /\
    stops_at cfg g (Width (Estate_ input)) (Length (Estate_ input)) m
      (serpentine (Width (Estate_ input)) (Length (Estate_ input)))
      initial_locals k r /\
    result_output r = Some out /\
    CalculateDroneDistance cfg (Some input) (Some m)
    = Returned (Some out, None).
Proof.
  intros Hpre. destruct (build_grid_spec input Hpre) as (g & Hg & Hshape & _).
  destruct (run_budgeted cfg g _ _ m _ Hshape initial_locals
              (serpentine_in_grid (Width (Estate_ input))
                 (Length (Estate_ input)))) as (k & Hstop).
  destruct (stops_at_reach _ _ _ _ _ _ _ Hshape Hstop) as (out & Hout & _).
  eexists g, k, _, out. split; [done|]. split; [done|].
  split; [exact Hstop|].
  split; [done|]. rewrite (CalculateDroneDistance_run _ _ _ _ Hg).
  destruct (run_cells _ _ _); simpl in Hout; by try injection Hout as ->.
Qed.

(** The claim of C1 fails when the very first cell is over budget: the
    output then carries the coordinates (0, 0), which no cell has. *)
Lemma preceding_cell_counterexample :
  ~ reports_preceding_cell cfg10 (mk_input 1 1 []) 0.
Proof.
  intros H.
  destruct (H [[1]] O 2 zero_output) as (c & (k' & Hk & _) & _); try done.
  intros k' v' Hlt. lia.
Qed.

(** C1 (amended). Under the preconditions and with a budget [m], the call
    returns an output such that: if the check
    [m < totalHorizontalDistance+totalVerticalDistance+currentHeight] first
    holds at the [k]-th cell of the traversal and that cell is not the very
    first, the last achievable coordinates are the 1-based coordinates of the
    cell just before it; if it holds at the very first cell they are (0, 0);
    and if it holds at no cell they are those of the final corner
    ([x = Length] when [Width] is odd, [x = 1] when it is even, [y = Width]).
    Every cell of the traversal has such a value to compare. *)
Theorem budget_stop_coordinates (cfg : Config)
    (input : CalculateDroneDistanceInput) (m : Z) :
  planner_precondition input ->
  let width := Width (Estate_ input) in
  let length := Length (Estate_ input) in
  exists g out,
    build_grid input = Some g /\
    CalculateDroneDistance cfg (Some input) (Some m)
    = Returned (Some out, None) /\
    (forall k, (k < List.length (serpentine width length))%nat ->
       is_Some (need_at cfg g width length k)) /\
    (forall k v,
       need_at cfg g width length k = Some v -> m < v ->
       (forall k' v', (k' < k)%nat ->
          need_at cfg g width length k' = Some v' -> v' <= m) ->
       match k with
       | O => LastAchievableXCoordinate out = 0 /\
              LastAchievableYCoordinate out = 0
       | Datatypes.S k' =>
           exists c, serpentine width length !! k' = Some c /\
             LastAchievableXCoordinate out = c.2 + 1 /\
             LastAchievableYCoordinate out = c.1 + 1
       end) /\
    ((forall k v, need_at cfg g width length k = Some v -> v <= m) ->
     LastAchievableXCoordinate out = (if Z.odd width then length else 1) /\
     LastAchievableYCoordinate out = width).
Proof.
  intros Hpre width length.
  destruct (budgeted_call cfg input m Hpre)
    as (g & k0 & r & out & Hg & Hshape & Hstop & Hout & Hcall).
  fold width length in Hshape, Hstop.
  pose proof (serpentine_in_grid width length) as Hin.
  exists g, out. split; [done|]. split; [done|]. split; [|split].
  - intros k Hk. by apply need_from_total.
  - intros k v Hv Hm Hbefore.
    assert (k0 = k) as ->.
    { destruct (locals_after_total cfg g width length Hshape
                  (take k (serpentine width length)) initial_locals
                  (Forall_take _ _ _ Hin)) as [s' Hs'].
      apply (stops_at_unique cfg g width length m (serpentine width length)
               initial_locals k0 k r
               (Return (calculateDroneDistanceOutput s')) Hstop).
      split; [apply need_from_lt in Hv; lia|]. split; [exact Hbefore|].
      right. exists v, s'. split; [exact Hv|]. done. }
    destruct Hstop as (Hk & _ & [(-> & _)|(v0 & s' & _ & _ & Hs' & ->)]).
    { apply need_from_lt in Hv. lia. }
    simpl in Hout. injection Hout as <-. destruct k as [|k].
    + simpl in Hs'. by injection Hs' as <-.
    + destruct (lookup_lt_is_Some_2 (serpentine width length) k) as [c Hc];
        [lia|].
      exists c. split; [done|].
      exact (locals_after_take_last cfg g width length _ k c _ _ Hshape Hin
               Hc Hs').
  - intros Hall.
    destruct Hstop as (Hk & _ & [(-> & s' & Hs' & ->)|(v0 & s' & Hv0 & Hm & _)]).
    2:{ specialize (Hall _ _ Hv0). lia. }
    simpl in Hout. injection Hout as <-. simpl.
    destruct Hpre as (Hw & Hl & _). fold width in Hw. fold length in Hl.
    pose proof (serpentine_last width length Hw Hl) as Hlast.
    destruct (serpentine width length) as [|c0 l0] eqn:E using rev_ind;
      [done|]. clear IHl0.
    rewrite last_snoc in Hlast. injection Hlast as ->.
    destruct (locals_after_last cfg g width length Hshape _ _ _ _ Hin Hs')
      as [-> ->].
    unfold final_corner, row_last. simpl.
    replace (Z.even (width - 1)) with (Z.odd width).
    + destruct (Z.odd width); lia.
    + rewrite Z.even_sub. destruct (Z.even width) eqn:Ee;
        rewrite <- Z.negb_even, Ee; done.
Qed.

Lemma budget_stop_coordinates_witness :
  planner_precondition (mk_input 5 2 [(5, 1, 5); (5, 2, 10)]) /\
  exists out,
    CalculateDroneDistance cfg10
      (Some (mk_input 5 2 [(5, 1, 5); (5, 2, 10)])) (Some 111)
    = Returned (Some out, None) /\
    LastAchievableXCoordinate out = 2 /\
    LastAchievableYCoordinate out = 2.
Proof.
  split; [precondition_holds|].
  destruct (budget_stop_coordinates cfg10
              (mk_input 5 2 [(5, 1, 5); (5, 2, 10)]) 111)
    as (g & out & Hg & Hcall & _ & Htrip & _); [precondition_holds|].
  exists out. split; [exact Hcall|].
  vm_compute in Hg. injection Hg as <-.
  destruct (Htrip 9%nat 112) as (c & Hc & Hx & Hy).
  - vm_compute. reflexivity.
  - lia.
  - intros k' v' Hlt.
    do 9 (destruct k' as [|k'];
          [intros Hn; vm_compute in Hn; injection Hn as <-; lia|]).
    lia.
  - vm_compute in Hc. injection Hc as <-. simpl in Hx, Hy. by split.
Defined.

(** The claim of C5 fails in the repository's own budget test (estate 5 by
    1, a tree of height 5 at (5, 1), scale factor 10, budget 46): four cells
    are afforded, 30 horizontal and 1 vertical are accumulated through them,
    and the output reports 0. *)
Lemma travel_so_far_counterexample :
  ~ reports_travel_so_far cfg10 (mk_input 5 1 [(5, 1, 5)]) 46.
Proof.
  intros H.
  destruct (H [[1; 1; 1; 1; 6]] 4%nat 52
              {| calculateDroneDistanceOutput := set_last zero_output 4 1;
                 totalHorizontalDistance := 30;
                 totalVerticalDistance := 1;
                 currentHeight := 1;
                 previousHeight := 1 |}
              (set_last zero_output 4 1)) as (Hh & _);
    try (vm_compute; reflexivity).
  discriminate Hh.
Qed.

(** C5 (amended). Under the preconditions, when the budget check trips at
    some cell of the traversal, the call returns an output whose
    [TotalDistance], [TotalHorizontalDistance] and [TotalVerticalDistance]
    are all 0: the three figures are assigned only after a complete
    traversal, and an early return reports the last achievable coordinates
    alone. *)
Theorem budget_stop_reports_no_distance (cfg : Config)
    (input : CalculateDroneDistanceInput) (m : Z) (g : grid) (k : nat) (v : Z) :
  planner_precondition input ->
  build_grid input = Some g ->
  need_at cfg g (Width (Estate_ input)) (Length (Estate_ input)) k = Some v ->
  m < v ->
  exists out,
    CalculateDroneDistance cfg (Some input) (Some m)
    = Returned (Some out, None) /\
    TotalDistance out = 0 /\
    TotalHorizontalDistance out = 0 /\
    TotalVerticalDistance out = 0.
Proof.
  intros Hpre Hg Hv Hm.
  destruct (budgeted_call cfg input m Hpre)
    as (g' & k0 & r & out & Hg' & Hshape & Hstop & Hout & Hcall).
  rewrite Hg in Hg'. injection Hg' as <-.
  exists out. split; [done|].
  destruct Hstop as (Hk & Hbefore & [(-> & _)|(v0 & s' & _ & _ & Hs' & ->)]).
  - pose proof (need_from_lt _ _ _ _ _ _ _ _ Hv) as Hlt.
    specialize (Hbefore k v Hlt Hv). lia.
  - simpl in Hout. injection Hout as <-.
    by apply (locals_after_totals cfg g _ _ Hshape _ initial_locals s'
                (Forall_take _ _ _ (serpentine_in_grid _ _)) Hs').
Qed.

Lemma budget_stop_reports_no_distance_witness :
  exists out,
    CalculateDroneDistance cfg10 (Some (mk_input 5 1 [(5, 1, 5)])) (Some 46)
    = Returned (Some out, None) /\
    TotalDistance out = 0 /\
    TotalHorizontalDistance out = 0 /\
    TotalVerticalDistance out = 0.
Proof.
  apply (budget_stop_reports_no_distance cfg10 (mk_input 5 1 [(5, 1, 5)]) 46
           [[1; 1; 1; 1; 6]] 4%nat 52).
  - precondition_holds.
  - vm_compute. reflexivity.
  - vm_compute. reflexivity.
  - lia.
Defined.

(** C7. Under the preconditions, for budgets [m1 <= m2] on the same input,
    the last achievable cell returned with [m1] lies no later in the
    traversal than the one returned with [m2]. *)
Theorem reach_monotone (cfg : Config) (input : CalculateDroneDistanceInput)
    (m1 m2 : Z) :
  planner_precondition input ->
  m1 <= m2 ->
  exists out1 out2,
    CalculateDroneDistance cfg (Some input) (Some m1)
    = Returned (Some out1, None) /\
    CalculateDroneDistance cfg (Some input) (Some m2)
    = Returned (Some out2, None) /\
    (reach (Width (Estate_ input)) (Length (Estate_ input)) out1
     <= reach (Width (Estate_ input)) (Length (Estate_ input)) out2)%nat.
Proof.
  intros Hpre Hle.
  destruct (budgeted_call cfg input m1 Hpre)
    as (g & k1 & r1 & out1 & Hg & Hshape & Hstop1 & Hout1 & Hcall1).
  destruct (budgeted_call cfg input m2 Hpre)
    as (g' & k2 & r2 & out2 & Hg' & _ & Hstop2 & Hout2 & Hcall2).
  rewrite Hg in Hg'. injection Hg' as <-.
  exists out1, out2. split; [done|]. split; [done|].
  destruct (stops_at_reach _ _ _ _ _ _ _ Hshape Hstop1) as (o1 & Ho1 & Hr1).
  destruct (stops_at_reach _ _ _ _ _ _ _ Hshape Hstop2) as (o2 & Ho2 & Hr2).
  rewrite Hout1 in Ho1. injection Ho1 as <-.
  rewrite Hout2 in Ho2. injection Ho2 as <-.
  rewrite Hr1, Hr2.
  destruct (le_lt_dec k1 k2) as [|Hlt]; [done|]. exfalso.
  destruct Hstop1 as (Hk1 & Hb1 & _).
  destruct Hstop2 as (_ & _ & [(-> & _)|(v & s' & Hv & Hm & _)]); [lia|].
  specialize (Hb1 k2 v Hlt Hv). lia.
Qed.

Lemma reach_monotone_witness :
  exists out1 out2,
    CalculateDroneDistance cfg10
      (Some (mk_input 5 2 [(5, 1, 5); (5, 2, 10)])) (Some 111)
    = Returned (Some out1, None) /\
    CalculateDroneDistance cfg10
      (Some (mk_input 5 2 [(5, 1, 5); (5, 2, 10)])) (Some 112)
    = Returned (Some out2, None) /\
    reach 2 5 out1 = 9%nat /\ reach 2 5 out2 = 10%nat /\
    (reach 2 5 out1 <= reach 2 5 out2)%nat.
Proof.
  destruct (reach_monotone cfg10 (mk_input 5 2 [(5, 1, 5); (5, 2, 10)])
              111 112) as (out1 & out2 & H1 & H2 & Hle).
  - precondition_holds.
  - lia.
  - exists out1, out2. split; [exact H1|]. split; [exact H2|].
    vm_compute in H1. injection H1 as <-.
    vm_compute in H2. injection H2 as <-.
    split; [vm_compute; reflexivity|]. split; [vm_compute; reflexivity|].
    exact Hle.
Defined.

(** ** The very first cell *)

Lemma first_cell_height input g :
  planner_precondition input -> build_grid input = Some g ->
  grid_get g 0 0 = Some (planted_height (Trees input) 1 1).
Proof.
  intros Hpre Hg. destruct (build_grid_spec input Hpre) as (g' & Hg' & _ & Hh).
  rewrite Hg in Hg'. injection Hg' as <-.
  destruct Hpre as (Hw & Hl & _).
  apply (Hh (0, 0)). split; simpl; lia.
Qed.

Lemma first_cell_arrive cfg input g :
  planner_precondition input -> build_grid input = Some g ->
  let g0 := planted_height (Trees input) 1 1 in
  arrive cfg g (Length (Estate_ input)) (0, 0) initial_locals
  = Some {| calculateDroneDistanceOutput := zero_output;
            totalHorizontalDistance := 0;
            totalVerticalDistance :=
              GoInt.add 0 (GoInt.abs_via_float64 (GoInt.sub g0 0));
            currentHeight := g0;
            previousHeight := 0 |}.
Proof.
  intros Hpre Hg g0. unfold arrive, measure, read_heights. simpl.
  by rewrite (first_cell_height input g Hpre Hg).
Qed.

Lemma first_cell_vertical g0 :
  Z.abs g0 < 2 ^ 53 ->
  GoInt.add 0 (GoInt.abs_via_float64 (GoInt.sub g0 0)) = Z.abs g0.
Proof.
  intros H. unfold GoInt.sub. rewrite Z.sub_0_r.
  rewrite (wrap_small g0)
    by (unfold GoInt.in_range, GoInt.min_int, GoInt.max_int; lia).
  rewrite abs_via_float64_exact by lia.
  unfold GoInt.add. simpl. apply wrap_small.
  unfold GoInt.in_range, GoInt.min_int, GoInt.max_int; lia.
Qed.

Lemma first_cell_need cfg input g :
  planner_precondition input -> build_grid input = Some g ->
  let g0 := planted_height (Trees input) 1 1 in
  Z.abs g0 < 2 ^ 53 ->
  need_at cfg g (Width (Estate_ input)) (Length (Estate_ input)) 0
  = Some (Z.abs g0 + g0).
Proof.
  intros Hpre Hg g0 Hg0. unfold need_at.
  destruct Hpre as (Hw & Hl & Hb).
  destruct (serpentine_first _ _ Hw Hl) as [l ->].
  rewrite need_from_0.
  rewrite (first_cell_arrive cfg input g (conj Hw (conj Hl Hb)) Hg).
  fold g0. unfold budget_need. simpl. rewrite first_cell_vertical by done.
  unfold GoInt.add. rewrite Z.add_0_l.
  rewrite (wrap_small (Z.abs g0))
    by (unfold GoInt.in_range, GoInt.min_int, GoInt.max_int; lia).
  rewrite wrap_small
    by (unfold GoInt.in_range, GoInt.min_int, GoInt.max_int; lia).
  done.
Qed.

(** C9. Under the preconditions, when the budget check trips already at the
    very first cell of the traversal, the call returns, with no error, the
    output whose last achievable coordinates are both 0 (outside the 1-based
    grid) and whose three distance figures are all 0.  With [g0] the
    height-map value of cell (1, 1) (1 on bare ground, the tree's height plus
    1 under a tree), the value compared with [maxDistance] there is
    [2 * g0], so the check trips exactly when [maxDistance < 2 * g0]; this
    holds for every [g0] from 0 up to [2^53], where [float64] is exact, as
    all heights of the data model are. *)
Theorem first_cell_over_budget (cfg : Config)
    (input : CalculateDroneDistanceInput) (m : Z) :
  planner_precondition input ->
  let width := Width (Estate_ input) in
  let length := Length (Estate_ input) in
  let g0 := planted_height (Trees input) 1 1 in
  exists g,
    build_grid input = Some g /\
    grid_get g 0 0 = Some g0 /\
    (forall v, need_at cfg g width length 0 = Some v -> m < v ->
       CalculateDroneDistance cfg (Some input) (Some m)
       = Returned (Some zero_output, None)) /\
    (0 <= g0 < 2 ^ 53 -> need_at cfg g width length 0 = Some (2 * g0)) /\
    (Z.abs g0 < 2 ^ 53 -> m < 2 * g0 ->
     CalculateDroneDistance cfg (Some input) (Some m)
     = Returned (Some zero_output, None)).
Proof.
  intros Hpre width length g0. subst width length.
  destruct (build_grid_spec input Hpre) as (g & Hg & Hshape & _).
  exists g. split; [done|].
  split; [by apply first_cell_height|].
  assert (forall v, need_at cfg g (Width (Estate_ input))
                      (Length (Estate_ input)) 0 = Some v -> m < v ->
            CalculateDroneDistance cfg (Some input) (Some m)
            = Returned (Some zero_output, None)) as Htrip.
  { intros v Hneed Hm.
    destruct (budgeted_call cfg input m Hpre)
      as (g' & k0 & r & out & Hg' & _ & Hstop & Hout & ->).
    rewrite Hg in Hg'. injection Hg' as <-.
    destruct Hstop as (_ & Hbefore & Hend).
    destruct k0 as [|k0].
    - destruct Hend as [(Hlen & _)|(v' & s' & _ & _ & Hs' & ->)].
      + apply need_from_lt in Hneed. lia.
      + simpl in Hs'. injection Hs' as <-. simpl in Hout.
        by injection Hout as <-.
    - specialize (Hbefore O _ ltac:(lia) Hneed). lia. }
  split; [exact Htrip|]. split.
  - intros Hg0.
    rewrite (first_cell_need cfg input g Hpre Hg) by (fold g0; lia).
    fold g0. f_equal. lia.
  - intros Hg0 Hm.
    apply (Htrip _ (first_cell_need cfg input g Hpre Hg Hg0)).
    fold g0. lia.
Qed.

Lemma first_cell_over_budget_witness :
  planner_precondition (mk_input 1 1 [(1, 1, 5)]) /\
  need_at cfg10 [[6]] 1 1 0 = Some 12 /\
  CalculateDroneDistance cfg10 (Some (mk_input 1 1 [(1, 1, 5)])) (Some 11)
  = Returned (Some zero_output, None).
Proof.
  split; [precondition_holds|].
  destruct (first_cell_over_budget cfg10 (mk_input 1 1 [(1, 1, 5)]) 11)
    as (g & Hg & _ & _ & Hneed & H); [precondition_holds|].
  vm_compute in Hg. injection Hg as <-. split.
  - apply Hneed. vm_compute. split; [discriminate|reflexivity].
  - apply H; vm_compute; reflexivity.
Defined.

(** The claim of C4 fails on every estate: on the 5 by 5 estate of the
    repository's first test the first cell adds 1. *)
Lemma first_cell_counterexample :
  ~ first_cell_costs_nothing cfg10 (mk_input 5 5 [(3, 3, 5)]).
Proof.
  intros H.
  destruct (build_grid_spec (mk_input 5 5 [(3, 3, 5)])) as (g & Hg & _);
    [precondition_holds|].
  pose proof (first_cell_arrive cfg10 (mk_input 5 5 [(3, 3, 5)]) g
                ltac:(precondition_holds) Hg) as Ha.
  specialize (H g _ Hg Ha). vm_compute in H. discriminate H.
Qed.

(** C4 (amended). Under the preconditions, the very first cell of the
    traversal, (0, 0), has no previous cell and is charged its own
    height-map value [g0], the climb from the initial [previousHeight] of 0:
    once its [increment] has been added, the accumulated vertical distance is
    [g0] (for [g0] from 0 up to [2^53], where [float64] is exact, as all
    heights of the data model are) and the accumulated horizontal distance
    is 0. *)
Theorem first_cell_costs_its_height (cfg : Config)
    (input : CalculateDroneDistanceInput) (g : grid) :
  planner_precondition input ->
  build_grid input = Some g ->
  let length := Length (Estate_ input) in
  let g0 := planted_height (Trees input) 1 1 in
  serpentine (Width (Estate_ input)) length !! O = Some (0, 0) /\
  previous_cell length (0, 0) = None /\
  exists s1,
    arrive cfg g length (0, 0) initial_locals = Some s1 /\
    currentHeight s1 = g0 /\
    previousHeight s1 = 0 /\
    totalVerticalDistance s1
    = GoInt.add 0 (GoInt.abs_via_float64 (GoInt.sub g0 0)) /\
    totalHorizontalDistance s1 = 0 /\
    (0 <= g0 < 2 ^ 53 -> totalVerticalDistance s1 = g0).
Proof.
  intros Hpre Hg length g0. subst length. split; [|split; [done|]].
  - destruct Hpre as (Hw & Hl & _).
    by destruct (serpentine_first _ _ Hw Hl) as [l ->].
  - rewrite (first_cell_arrive cfg input g Hpre Hg). fold g0.
    eexists. split; [reflexivity|]. simpl. repeat split.
    intros Hg0. rewrite first_cell_vertical by lia. lia.
Qed.

Lemma first_cell_costs_its_height_witness :
  exists s1,
    arrive cfg10 [[6]] 1 (0, 0) initial_locals = Some s1 /\
    totalVerticalDistance s1 = 6 /\
    totalHorizontalDistance s1 = 0.
Proof.
  destruct (first_cell_costs_its_height cfg10 (mk_input 1 1 [(1, 1, 5)])
              [[6]]) as (_ & _ & s1 & Ha & _ & _ & _ & Hh & Hv).
  - precondition_holds.
  - vm_compute. reflexivity.
  - exists s1. split; [exact Ha|]. split; [|exact Hh].
    apply Hv. vm_compute. split; [discriminate|reflexivity].
Defined.

(** ** An estate without trees *)

Lemma landing_final_corner width length c :
  0 <= c.1 ->
  landing width length c = true <-> c = final_corner width length.
Proof.
  intros Hi. destruct c as [i j]. simpl in Hi.
  unfold landing, final_corner, row_last. simpl.
  rewrite rem_2_even by done. split.
  - destruct (Z.even i) eqn:E; intros H;
      apply andb_true_iff in H as [H1 H2];
      apply Z.eqb_eq in H1, H2; subst; by rewrite E.
  - intros [= -> ->].
    destruct (Z.even (width - 1)); by rewrite !Z.eqb_refl.
Qed.

Lemma previous_cell_is_Some length c :
  0 <= c.1 -> c <> (0, 0) -> is_Some (previous_cell length c).
Proof.
  destruct c as [i j]. simpl. intros Hi Hne.
  unfold previous_cell, previous_cell_even, previous_cell_odd. simpl.
  destruct (Z.rem i 2 =? 0).
  - destruct (j =? 0) eqn:Ej; [|eauto].
    destruct (i =? 0) eqn:Ei; [|eauto].
    apply Z.eqb_eq in Ej, Ei. by subst.
  - destruct (j =? length - 1); eauto.
Qed.

Lemma charge_true c : c <> (0, 0) -> charge c = true.
Proof.
  destruct c as [i j]. intros Hne. unfold charge. simpl.
  destruct (Z.rem i 2 =? 0); [|done].
  destruct (i =? 0) eqn:Ei; [|done]. destruct (j =? 0) eqn:Ej; [|done].
  apply Z.eqb_eq in Ej, Ei. by subst.
Qed.

Section Bare.

Variables (cfg : Config) (g : grid) (width length : Z).
Hypothesis Hbare :
  forall c, in_grid width length c -> grid_get g c.1 c.2 = Some 1.

Lemma bare_arrive c s :
  in_grid width length c -> c <> (0, 0) ->
  GoInt.in_range (totalVerticalDistance s) ->
  arrive cfg g length c s
  = Some {| calculateDroneDistanceOutput := calculateDroneDistanceOutput s;
            totalHorizontalDistance :=
              GoInt.add (totalHorizontalDistance s) (ScaleFactor cfg);
            totalVerticalDistance := totalVerticalDistance s;
            currentHeight := 1;
            previousHeight := 1 |}.
Proof using Hbare.
  intros Hc Hne Hv. unfold arrive, measure, read_heights.
  rewrite (Hbare c Hc).
  destruct (previous_cell_is_Some length c) as [[pi pj] Hp];
    [apply Hc|done|].
  rewrite Hp.
  pose proof (Hbare _ (previous_cell_in_grid _ _ _ _ Hc Hp)) as Hg.
  simpl in Hg. rewrite Hg. rewrite charge_true by done.
  replace (GoInt.abs_via_float64 (GoInt.sub 1 1)) with 0 by reflexivity.
  by rewrite add_0_r_in_range.
Qed.

Lemma bare_depart c s :
  in_grid width length c ->
  depart g width length c s
  = Some {| calculateDroneDistanceOutput :=
              set_last (calculateDroneDistanceOutput s) (c.2 + 1) (c.1 + 1);
            totalHorizontalDistance := totalHorizontalDistance s;
            totalVerticalDistance :=
              if landing width length c
              then GoInt.add (totalVerticalDistance s) 1
              else totalVerticalDistance s;
            currentHeight := currentHeight s;
            previousHeight := previousHeight s |}.
Proof using Hbare.
  intros Hc. unfold depart, settle. rewrite (Hbare c Hc).
  by destruct (landing width length c).
Qed.

(** Cells other than the first and the last add [ScaleFactor] to the
    horizontal total and nothing to the vertical one. *)
Lemma bare_middle l : forall s,
  Forall (fun c => in_grid width length c /\ c <> (0, 0) /\
                   c <> final_corner width length) l ->
  GoInt.in_range (totalVerticalDistance s) ->
  GoInt.in_range (totalHorizontalDistance s) ->
  exists s',
    locals_after cfg g width length l s = Some s' /\
    totalVerticalDistance s' = totalVerticalDistance s /\
    totalHorizontalDistance s'
    = GoInt.wrap (totalHorizontalDistance s
                  + ScaleFactor cfg * Z.of_nat (List.length l)).
Proof using Hbare.
  induction l as [|c l IH]; intros s Hl Hv Hh.
  - exists s. split; [done|]. split; [done|]. simpl.
    rewrite Z.mul_0_r, Z.add_0_r. by rewrite wrap_small.
  - inversion Hl as [|? ? (Hc & Hne & Hnf) Hl']; subst. simpl.
    rewrite bare_arrive by done. rewrite bare_depart by done.
    destruct (landing width length c) eqn:El.
    { apply landing_final_corner in El; [done|apply Hc]. }
    simpl.
    match goal with
    | |- context [locals_after _ _ _ _ l ?s2] =>
        destruct (IH s2 Hl') as (s' & -> & Hv' & Hh');
          [done|apply wrap_in_range|]
    end.
    exists s'. split; [done|]. split; [done|].
    rewrite Hh'. simpl. unfold GoInt.add. rewrite wrap_add_l.
    f_equal. lia.
Qed.

End Bare.

(** The traversal of an estate of more than one cell: the first cell, the
    cells in between, the final corner. *)
Lemma serpentine_ends width length :
  1 <= width -> 1 <= length -> ~ (width = 1 /\ length = 1) ->
  exists mid,
    serpentine width length = (0, 0) :: mid ++ [final_corner width length] /\
    final_corner width length <> (0, 0) /\
    Forall (fun c => in_grid width length c /\ c <> (0, 0) /\
                     c <> final_corner width length) mid.
Proof.
  intros Hw Hl Hne.
  destruct (serpentine_first width length Hw Hl) as [tl Htl].
  pose proof (serpentine_last width length Hw Hl) as Hlast.
  pose proof (NoDup_serpentine width length) as Hnd.
  pose proof (serpentine_in_grid width length) as Hin.
  rewrite Htl in Hlast, Hnd, Hin.
  destruct tl as [|x mid _] using rev_ind.
  - exfalso. simpl in Hlast. unfold final_corner, row_last in Hlast.
    injection Hlast as Hi Hj.
    assert (width = 1) as -> by lia. simpl in Hj. lia.
  - rewrite app_comm_cons, last_snoc in Hlast. injection Hlast as ->.
    exists mid. split; [done|].
    apply NoDup_cons in Hnd as [Hfirst Hnd].
    apply NoDup_app in Hnd as (_ & Hmid & _).
    apply Forall_cons in Hin as [_ Hin].
    apply Forall_app in Hin as [Hin _].
    split.
    + intros Heq. apply Hfirst. rewrite Heq. apply elem_of_app. right.
      constructor.
    + apply Forall_forall. intros c Hc. split; [|split].
      * rewrite Forall_forall in Hin. by apply Hin.
      * intros ->. apply Hfirst. apply elem_of_app. by left.
      * intros ->. apply (Hmid _ Hc). constructor.
Qed.

(** The claim of C6 fails on the repository's own test of an estate without
    trees (5 by 5, scale factor 10, total 242): the vertical distance is 2. *)
Lemma bare_estate_counterexample :
  ~ bare_estate_costs_one cfg10 (mk_input 5 5 []).
Proof.
  intros H.
  assert (CalculateDroneDistance cfg10 (Some (mk_input 5 5 [])) None
          = Returned (Some {| TotalDistance := 242;
                              TotalVerticalDistance := 2;
                              TotalHorizontalDistance := 240;
                              LastAchievableXCoordinate := 5;
                              LastAchievableYCoordinate := 5 |}, None)) as Hc
    by (vm_compute; reflexivity).
  destruct (H _ Hc) as [Hv _]. discriminate Hv.
Qed.

(** C6 (amended). For every estate with [Width >= 1], [Length >= 1], no
    trees and no [maxDistance], the output has [TotalVerticalDistance = 2]
    (1 charged at the first cell, 1 for landing at the last) and
    [TotalHorizontalDistance = ScaleFactor * (Width * Length - 1)]: with Go's
    multiplication always, and as an equation between integers whenever the
    product fits an [int]. *)
Theorem bare_estate_distances (cfg : Config)
    (input : CalculateDroneDistanceInput) :
  1 <= Width (Estate_ input) ->
  1 <= Length (Estate_ input) ->
  Trees input = [] ->
  let cells := Width (Estate_ input) * Length (Estate_ input) in
  exists out,
    CalculateDroneDistance cfg (Some input) None = Returned (Some out, None) /\
    TotalVerticalDistance out = 2 /\
    TotalHorizontalDistance out = GoInt.mul (ScaleFactor cfg) (cells - 1) /\
    (GoInt.in_range (ScaleFactor cfg * (cells - 1)) ->
     TotalHorizontalDistance out = ScaleFactor cfg * (cells - 1)).
Proof.
  intros Hw Hl Ht cells. unfold cells. clear cells.
  assert (planner_precondition input) as Hpre.
  { split; [done|]. split; [done|]. rewrite Ht. constructor. }
  destruct (build_grid_spec input Hpre) as (g & Hg & Hshape & Hh).
  rewrite (CalculateDroneDistance_run _ _ _ _ Hg), run_unbudgeted.
  pose proof (first_cell_arrive cfg input g Hpre Hg) as Hfirst.
  rewrite Ht in Hh, Hfirst. simpl in Hh. cbv zeta in Hfirst.
  change (planted_height [] 1 1) with 1 in Hfirst.
  replace (GoInt.add 0 (GoInt.abs_via_float64 (GoInt.sub 1 0))) with 1
    in Hfirst by reflexivity.
  clear Hpre Hg Ht.
  revert Hw Hl Hshape Hh Hfirst.
  generalize (Width (Estate_ input)) as width.
  generalize (Length (Estate_ input)) as length.
  intros length width Hw Hl Hshape Hh Hfirst.
  assert (in_grid width length (0, 0)) as H00 by (split; simpl; lia).
  assert (exists s',
    locals_after cfg g width length (serpentine width length) initial_locals
    = Some s' /\ totalVerticalDistance s' = 2 /\
    totalHorizontalDistance s'
    = GoInt.mul (ScaleFactor cfg) (width * length - 1))
    as (s' & -> & Hv & Hhz).
  { destruct (decide (width = 1 /\ length = 1)) as [[-> ->]|Hne].
    - change (serpentine 1 1) with [(0, 0)]. simpl.
      rewrite Hfirst. rewrite (bare_depart g 1 1 Hh (0, 0) _ H00).
      eexists. split; [reflexivity|]. simpl.
      split; [reflexivity|]. unfold GoInt.mul. by rewrite Z.mul_0_r.
    - destruct (serpentine_ends width length Hw Hl Hne)
        as (mid & Hpath & Hcorner & Hmid).
      pose proof (length_serpentine width length ltac:(lia)) as Hlen.
      assert (in_grid width length (final_corner width length)) as Hfc.
      { apply elem_of_serpentine. rewrite Hpath. apply elem_of_cons. right.
        apply elem_of_app. right. constructor. }
      rewrite Hpath in Hlen. rewrite Hpath.
      rewrite app_comm_cons, locals_after_app. simpl.
      rewrite Hfirst. rewrite (bare_depart g width length Hh (0, 0) _ H00).
      destruct (landing width length (0, 0)) eqn:El0.
      { apply landing_final_corner in El0; [|simpl; lia].
        by rewrite <- El0 in Hcorner. }
      simpl.
      match goal with
      | |- context [locals_after _ _ _ _ mid ?s1] =>
          destruct (bare_middle cfg g width length Hh mid s1 Hmid)
            as (s2 & -> & Hv2 & Hh2); [by vm_compute|by vm_compute|]
      end.
      simpl in Hv2, Hh2.
      rewrite (bare_arrive cfg g width length Hh _ s2 Hfc Hcorner)
        by (rewrite Hv2; by vm_compute).
      rewrite (bare_depart g width length Hh _ _ Hfc).
      assert (landing width length (final_corner width length) = true) as ->
        by (apply landing_final_corner; [apply Hfc|done]).
      eexists. split; [reflexivity|]. simpl. rewrite Hv2, Hh2.
      split; [reflexivity|].
      unfold GoInt.add, GoInt.mul. rewrite wrap_add_l. f_equal.
      simpl in Hlen. rewrite length_app in Hlen. simpl in Hlen. nia. }
  exists (finish s'). split; [done|]. simpl. split; [done|].
  split; [done|]. intros Hr. rewrite Hhz. unfold GoInt.mul.
  by apply wrap_small.
Qed.

Lemma bare_estate_distances_witness :
  exists out,
    CalculateDroneDistance cfg10 (Some (mk_input 5 5 [])) None
    = Returned (Some out, None) /\
    TotalVerticalDistance out = 2 /\
    TotalHorizontalDistance out = 10 * (5 * 5 - 1).
Proof.
  destruct (bare_estate_distances cfg10 (mk_input 5 5 []))
    as (out & H1 & H2 & _ & H4); [simpl; lia|simpl; lia|reflexivity|].
  exists out. split; [exact H1|]. split; [exact H2|].
  apply H4. vm_compute. split; discriminate.
Defined.

(** ** The order of the traversal *)

Lemma arrive_reads cfg g length c s s1 :
  arrive cfg g length c s = Some s1 ->
  grid_get g c.1 c.2 = Some (currentHeight s1) /\
  match previous_cell length c with
  | Some c' => grid_get g c'.1 c'.2 = Some (previousHeight s1)
  | None => previousHeight s1 = previousHeight s
  end /\
  totalVerticalDistance s1
  = GoInt.add (totalVerticalDistance s)
      (GoInt.abs_via_float64
         (GoInt.sub (currentHeight s1) (previousHeight s1))).
Proof.
  unfold arrive, measure, read_heights.
  destruct (grid_get g c.1 c.2) as [cur|]; [|done].
  destruct (previous_cell length c) as [[pi pj]|]; simpl.
  - destruct (grid_get g pi pj) as [p|]; [|done]. by intros [= <-].
  - by intros [= <-].
Qed.

Lemma previous_cell_shape length c c' :
  0 <= c.1 -> previous_cell length c = Some c' ->
  (c'.1 = c.1 /\ (c'.2 = c.2 - 1 \/ c'.2 = c.2 + 1) /\
   c <> row_first length c.1) \/
  (c'.1 = c.1 - 1 /\ c'.2 = c.2 /\ c = row_first length c.1 /\ 1 <= c.1).
Proof.
  destruct c as [i j]. simpl. intros Hi.
  unfold previous_cell, previous_cell_even, previous_cell_odd, row_first.
  simpl. rewrite rem_2_even by done. destruct (Z.even i) eqn:He.
  - destruct (j =? 0) eqn:Ej.
    + apply Z.eqb_eq in Ej. subst. destruct (i =? 0) eqn:Ei; [done|].
      apply Z.eqb_neq in Ei. intros [= <-]. right. simpl. repeat split; lia.
    + apply Z.eqb_neq in Ej. intros [= <-]. left. simpl.
      split; [done|]. split; [by left|]. intros [= ?]. lia.
  - assert (i <> 0) by (intros ->; done).
    destruct (j =? length - 1) eqn:Ej.
    + apply Z.eqb_eq in Ej. subst. intros [= <-]. right. simpl.
      repeat split; lia.
    + apply Z.eqb_neq in Ej. intros [= <-]. left. simpl.
      split; [done|]. split; [by right|]. intros [= ?]. lia.
Qed.

(** C2. Under the preconditions the call is the visit, one after the other,
    of the cells of the serpentine path: rows [i = 0 .. Width-1], a row of
    even index with [j] ascending from 0 to [Length-1], a row of odd index
    with [j] descending from [Length-1] to 0.  A visit is the body up to the
    budget check, the check, and the rest of the body.  At each cell the
    vertical cost is taken between the height of that cell and the height of
    the cell read for [previousHeight]; that cell is the one just before in
    the path: the adjacent column of the same row, except at the first cell
    of each row after the first, where it is the cell of the same column in
    the previous row.  The very first cell reads none. *)
Theorem serpentine_traversal_order (cfg : Config)
    (input : CalculateDroneDistanceInput) (maxDistance : option Z) :
  planner_precondition input ->
  let width := Width (Estate_ input) in
  let length := Length (Estate_ input) in
  let path := serpentine width length in
  exists g,
    build_grid input = Some g /\
    CalculateDroneDistance cfg (Some input) maxDistance
    = match run_cells (visit cfg g width length maxDistance) path
              initial_locals with
      | Continue s => Returned (Some (finish s), None)
      | Return o => Returned (Some o, None)
      | Panic => Panicked
      | OutOfFuel => Exhausted
      end /\
    path = seqZ 0 width ≫=
             (fun i => if Z.even i
                       then (fun j => (i, j)) <$> seqZ 0 length
                       else (fun j => (i, j)) <$> reverse (seqZ 0 length)) /\
    (forall c s,
       visit cfg g width length maxDistance c s
       = match arrive cfg g length c s with
         | None => Panic
         | Some s1 =>
             if over_budget maxDistance s1
             then Return (calculateDroneDistanceOutput s1)
             else match depart g width length c s1 with
                  | Some s2 => Continue s2
                  | None => Panic
                  end
         end) /\
    (forall c s s1,
       arrive cfg g length c s = Some s1 ->
       grid_get g c.1 c.2 = Some (currentHeight s1) /\
       match previous_cell length c with
       | Some c' => grid_get g c'.1 c'.2 = Some (previousHeight s1)
       | None => previousHeight s1 = previousHeight s
       end /\
       totalVerticalDistance s1
       = GoInt.add (totalVerticalDistance s)
           (GoInt.abs_via_float64
              (GoInt.sub (currentHeight s1) (previousHeight s1)))) /\
    path !! O = Some (0, 0) /\
    previous_cell length (0, 0) = None /\
    (forall k c' c,
       path !! k = Some c' -> path !! Datatypes.S k = Some c ->
       previous_cell length c = Some c' /\
       ((c'.1 = c.1 /\ (c'.2 = c.2 - 1 \/ c'.2 = c.2 + 1) /\
         c <> row_first length c.1) \/
        (c'.1 = c.1 - 1 /\ c'.2 = c.2 /\ c = row_first length c.1 /\
         1 <= c.1))).
Proof.
  intros Hpre width length path.
  destruct (build_grid_spec input Hpre) as (g & Hg & _).
  destruct Hpre as (Hw & Hl & _). fold width in Hw. fold length in Hl.
  exists g. split; [done|].
  split; [by apply CalculateDroneDistance_run|].
  split; [reflexivity|].
  split; [intros c s; apply visit_split|].
  split; [intros c s s1; apply arrive_reads|].
  split.
  { unfold path. by destruct (serpentine_first width length Hw Hl) as [l ->]. }
  split; [done|].
  intros k c' c Hk HSk.
  pose proof (chain_lookup length None path k c c'
                (chain_serpentine width length Hl) Hk HSk) as Hp.
  split; [done|]. apply previous_cell_shape; [|done].
  apply list_elem_of_lookup_2, elem_of_serpentine in HSk. apply HSk.
Qed.

Lemma serpentine_traversal_order_witness :
  serpentine 2 3 = [(0, 0); (0, 1); (0, 2); (1, 2); (1, 1); (1, 0)] /\
  previous_cell 3 (1, 2) = Some (0, 2) /\
  previous_cell 3 (1, 1) = Some (1, 2).
Proof.
  destruct (serpentine_traversal_order cfg10 (mk_input 3 2 [(2, 1, 4)]) None)
    as (g & _ & _ & Hpath & _ & _ & _ & _ & Hprev); [precondition_holds|].
  split; [vm_compute; reflexivity|]. split.
  - apply (Hprev 2%nat (0, 2) (1, 2)); vm_compute; reflexivity.
  - apply (Hprev 3%nat (1, 2) (1, 1)); vm_compute; reflexivity.
Defined.

(** * Further properties of the planner *)

(** ** The height map, cell by cell *)

Lemma planted_height_app trees1 trees2 x y :
  planted_height (trees1 ++ trees2) x y
  = fold_left
      (fun h t => if (X t =? x) && (Y t =? y) then GoInt.add (Height t) 1 else h)
      trees2 (planted_height trees1 x y).
Proof. unfold planted_height. by rewrite fold_left_app. Qed.

Lemma fold_planted_absent trees x y h0 :
  Forall (fun t => ~ (X t = x /\ Y t = y)) trees ->
  fold_left
    (fun h t => if (X t =? x) && (Y t =? y) then GoInt.add (Height t) 1 else h)
    trees h0 = h0.
Proof.
  revert h0. induction trees as [|t trees IH]; intros h0 Hno; [done|].
  inversion Hno as [|? ? Ht Hno']; subst. simpl.
  destruct ((X t =? x) && (Y t =? y)) eqn:E; [|by apply IH].
  apply andb_true_iff in E as [E1 E2]. apply Z.eqb_eq in E1, E2. tauto.
Qed.

(** X1. Under the preconditions the height map is a [Width] by [Length]
    grid in which the cell of the 1-based coordinates [(x, y)], stored at row
    [y-1] and column [x-1], holds 1 when no tree is listed at [(x, y)] and
    the height plus 1 of the last tree listed there otherwise. *)
Theorem height_map_cells (input : CalculateDroneDistanceInput) :
  planner_precondition input ->
  exists g,
    build_grid input = Some g /\
    grid_shape g (Width (Estate_ input)) (Length (Estate_ input)) /\
    (forall x y,
       1 <= x <= Length (Estate_ input) -> 1 <= y <= Width (Estate_ input) ->
       Forall (fun t => ~ (X t = x /\ Y t = y)) (Trees input) ->
       grid_get g (y - 1) (x - 1) = Some 1) /\
    (forall before t after,
       Trees input = before ++ t :: after ->
       Forall (fun t' => ~ (X t' = X t /\ Y t' = Y t)) after ->
       grid_get g (Y t - 1) (X t - 1) = Some (GoInt.add (Height t) 1)).
Proof.
  intros Hpre. destruct (build_grid_spec input Hpre) as (g & Hg & Hshape & Hh).
  exists g. split; [done|]. split; [done|]. split.
  - intros x y Hx Hy Hno.
    pose proof (Hh (y - 1, x - 1) ltac:(split; simpl; lia)) as Hc.
    simpl in Hc. rewrite Hc.
    replace (x - 1 + 1) with x by lia. replace (y - 1 + 1) with y by lia.
    f_equal. unfold planted_height. by apply fold_planted_absent.
  - intros before t after Ht Hno.
    destruct Hpre as (_ & _ & Hb). rewrite Ht in Hb.
    apply Forall_app in Hb as [_ Hb]. apply Forall_cons in Hb as [[Hx Hy] _].
    pose proof (Hh (Y t - 1, X t - 1) ltac:(split; simpl; lia)) as Hc.
    simpl in Hc. rewrite Hc.
    replace (X t - 1 + 1) with (X t) by lia.
    replace (Y t - 1 + 1) with (Y t) by lia.
    f_equal. rewrite Ht, planted_height_app. simpl. rewrite !Z.eqb_refl. simpl.
    by apply fold_planted_absent.
Qed.

Lemma height_map_cells_witness :
  exists g,
    build_grid (mk_input 3 2 [(2, 1, 4); (2, 1, 7)]) = Some g /\
    grid_get g 0 0 = Some 1 /\
    grid_get g 0 1 = Some 8.
Proof.
  destruct (height_map_cells (mk_input 3 2 [(2, 1, 4); (2, 1, 7)]))
    as (g & Hg & _ & Hbare & Htree); [precondition_holds|].
  exists g. split; [exact Hg|]. split.
  - apply (Hbare 1 1); simpl; try lia.
    repeat constructor; simpl; lia.
  - apply (Htree [{| X := 2; Y := 1; Height := 4 |}]
             {| X := 2; Y := 1; Height := 7 |} []); [reflexivity|constructor].
Defined.

(** ** Trees outside the estate *)

Lemma grid_set_outside g width length i j v :
  grid_shape g width length -> ~ in_grid width length (i, j) ->
  grid_set g i j v = None.
Proof.
  intros [Hlen Hrows] Hout. unfold grid_set, in_grid in *. simpl in Hout.
  destruct (i <? 0) eqn:Ei; [done|]. destruct (j <? 0) eqn:Ej; [done|].
  apply Z.ltb_ge in Ei, Ej. simpl.
  destruct (g !! Z.to_nat i) as [row|] eqn:Er; [|done].
  pose proof (lookup_lt_Some _ _ _ Er) as Hi.
  pose proof (Forall_lookup_1 _ _ _ _ Hrows Er) as Hr. simpl in Hr.
  destruct (Z.to_nat j <? List.length row)%nat eqn:El; [|done].
  apply Nat.ltb_lt in El. lia.
Qed.

Lemma plant_trees_outside e trees : forall g,
  grid_shape g (Width e) (Length e) ->
  Exists (fun t => ~ tree_in_bounds e t) trees ->
  plant_trees g trees = None.
Proof.
  induction trees as [|t trees IH]; intros g Hshape Hex.
  - inversion Hex.
  - simpl.
    destruct (grid_set g (Y t - 1) (X t - 1) (GoInt.add (Height t) 1))
      as [g'|] eqn:Es; [|done].
    assert (in_grid (Width e) (Length e) (Y t - 1, X t - 1)) as Hin.
    { destruct (decide (in_grid (Width e) (Length e) (Y t - 1, X t - 1)));
        [done|].
      by rewrite (grid_set_outside g _ _ _ _ _ Hshape) in Es. }
    destruct (grid_set_spec g _ _ _ _ (GoInt.add (Height t) 1) Hshape Hin)
      as (g1 & Hg1 & Hs1 & _).
    rewrite Hg1 in Es. injection Es as <-.
    apply IH; [done|].
    apply Exists_cons in Hex as [Hout|Hex]; [|done].
    exfalso. apply Hout. destruct Hin as [Hi Hj]. simpl in Hi, Hj.
    split; lia.
Qed.

(** X2. A tree whose coordinates lie outside [1..Length] by [1..Width]
    makes the write into the height map index out of range: the call panics,
    whatever the dimensions, the other trees and the budget. *)
Theorem tree_outside_estate_panics (cfg : Config)
    (input : CalculateDroneDistanceInput) (maxDistance : option Z) :
  Exists (fun t => ~ tree_in_bounds (Estate_ input) t) (Trees input) ->
  CalculateDroneDistance cfg (Some input) maxDistance = Panicked.
Proof.
  intros Hex. unfold CalculateDroneDistance.
  replace (build_grid input) with (@None grid); [done|]. symmetry.
  unfold build_grid, make_grid.
  destruct (Width (Estate_ input) <? 0) eqn:Ew; [done|].
  apply Z.ltb_ge in Ew.
  destruct (0 <? Width (Estate_ input)) eqn:Ew1; simpl.
  - destruct (Length (Estate_ input) <? 0) eqn:El; [done|].
    apply Z.ltb_ge in El. apply (plant_trees_outside (Estate_ input)); [|done].
    split; [by rewrite length_replicate|].
    apply Forall_replicate. by rewrite length_replicate.
  - apply Z.ltb_ge in Ew1. assert (Width (Estate_ input) = 0) as -> by lia.
    simpl. destruct (Trees input) as [|t trees]; [inversion Hex|].
    simpl. unfold grid_set.
    by destruct ((Y t - 1 <? 0) || (X t - 1 <? 0)).
Qed.

Lemma tree_outside_estate_panics_witness :
  CalculateDroneDistance cfg10
    (Some (mk_input 5 2 [(5, 1, 5); (0, 2, 10)])) (Some 40) = Panicked.
Proof.
  apply (tree_outside_estate_panics cfg10
           (mk_input 5 2 [(5, 1, 5); (0, 2, 10)]) (Some 40)).
  apply Exists_cons. right. apply Exists_cons. left.
  unfold tree_in_bounds. simpl. lia.
Defined.

(** ** Estates without cells *)

Lemma serpentine_empty width length :
  width <= 0 \/ length <= 0 -> serpentine width length = [].
Proof.
  intros H. destruct (Z_lt_le_dec width 0) as [Hw|Hw].
  - unfold serpentine. by rewrite seqZ_nil by lia.
  - apply nil_length_inv. rewrite length_serpentine by done. nia.
Qed.

(** X3. Dimensions the validation layer would refuse.  A negative [Width],
    or a negative [Length] with at least one row, makes [make] panic.  With
    no trees, a [Width] of 0, or a [Length] of 0 with at least one row,
    leaves nothing to traverse: the call returns, with no error and whatever
    the budget, the output whose five fields are all 0. *)
Theorem estate_without_cells (cfg : Config)
    (input : CalculateDroneDistanceInput) (maxDistance : option Z) :
  let width := Width (Estate_ input) in
  let length := Length (Estate_ input) in
  (width < 0 \/ (1 <= width /\ length < 0) ->
   CalculateDroneDistance cfg (Some input) maxDistance = Panicked) /\
  (Trees input = [] -> width = 0 \/ (1 <= width /\ length = 0) ->
   CalculateDroneDistance cfg (Some input) maxDistance
   = Returned (Some zero_output, None)).
Proof.
  intros width length. split.
  - intros H. unfold CalculateDroneDistance, build_grid, make_grid.
    fold width length.
    destruct (width <? 0) eqn:Ew; [done|]. apply Z.ltb_ge in Ew.
    destruct H as [H|[Hw Hl]]; [lia|].
    destruct (0 <? width) eqn:Ew1; [|apply Z.ltb_ge in Ew1; lia].
    destruct (length <? 0) eqn:El; [done|]. apply Z.ltb_ge in El. lia.
  - intros Ht H.
    assert (exists g, build_grid input = Some g) as [g Hg].
    { unfold build_grid, make_grid. fold width length. rewrite Ht.
      destruct (width <? 0) eqn:Ew; [apply Z.ltb_lt in Ew; lia|].
      destruct (0 <? width) eqn:Ew1; simpl; [|eauto].
      apply Z.ltb_lt in Ew1.
      destruct (length <? 0) eqn:El; [apply Z.ltb_lt in El; lia|eauto]. }
    rewrite (CalculateDroneDistance_run _ _ _ _ Hg). fold width length.
    rewrite serpentine_empty by lia. reflexivity.
Qed.

Lemma estate_without_cells_witness :
  CalculateDroneDistance cfg10 (Some (mk_input 0 3 [])) (Some 7)
  = Returned (Some zero_output, None) /\
  CalculateDroneDistance cfg10 (Some (mk_input (- 1) 3 [])) (Some 7)
  = Panicked.
Proof.
  destruct (estate_without_cells cfg10 (mk_input 0 3 []) (Some 7))
    as [_ H0].
  destruct (estate_without_cells cfg10 (mk_input (- 1) 3 []) (Some 7))
    as [Hneg _].
  split.
  - apply H0; [reflexivity|]. right. simpl. lia.
  - apply Hneg. right. simpl. lia.
Defined.

(** ** A budget that is never exceeded *)

Lemma never_exceeded_call cfg input m g :
  planner_precondition input ->
  build_grid input = Some g ->
  (forall k v,
     need_at cfg g (Width (Estate_ input)) (Length (Estate_ input)) k
     = Some v -> v <= m) ->
  exists s',
    locals_after cfg g (Width (Estate_ input)) (Length (Estate_ input))
      (serpentine (Width (Estate_ input)) (Length (Estate_ input)))
      initial_locals = Some s' /\
    CalculateDroneDistance cfg (Some input) (Some m)
    = Returned (Some (finish s'), None).
Proof.
  intros Hpre Hg Hall.
  destruct (budgeted_call cfg input m Hpre)
    as (g' & k0 & r & out & Hg' & Hshape & Hstop & Hout & ->).
  rewrite Hg in Hg'. injection Hg' as <-.
  destruct Hstop as (_ & _ & [(_ & s' & Hs' & ->)|(v & s' & Hv & Hm & _)]).
  - simpl in Hout. injection Hout as <-. eauto.
  - specialize (Hall _ _ Hv). lia.
Qed.

(** X4. Under the preconditions, a budget that no cell of the traversal
    exceeds changes nothing: the call returns exactly what it returns with
    no [maxDistance], the three distance figures included. *)
Theorem sufficient_budget_changes_nothing (cfg : Config)
    (input : CalculateDroneDistanceInput) (m : Z) (g : grid) :
  planner_precondition input ->
  build_grid input = Some g ->
  (forall k v,
     need_at cfg g (Width (Estate_ input)) (Length (Estate_ input)) k
     = Some v -> v <= m) ->
  CalculateDroneDistance cfg (Some input) (Some m)
  = CalculateDroneDistance cfg (Some input) None.
Proof.
  intros Hpre Hg Hall.
  destruct (never_exceeded_call cfg input m g Hpre Hg Hall)
    as (s' & Hs' & ->).
  rewrite (CalculateDroneDistance_run _ _ _ _ Hg), run_unbudgeted.
  by rewrite Hs'.
Qed.

Lemma sufficient_budget_changes_nothing_witness :
  CalculateDroneDistance cfg10 (Some (mk_input 2 1 [(2, 1, 5)])) (Some 22)
  = CalculateDroneDistance cfg10 (Some (mk_input 2 1 [(2, 1, 5)])) None.
Proof.
  apply (sufficient_budget_changes_nothing cfg10 (mk_input 2 1 [(2, 1, 5)])
           22 [[1; 6]]).
  - precondition_holds.
  - vm_compute. reflexivity.
  - intros k v.
    do 2 (destruct k as [|k];
          [intros Hn; vm_compute in Hn; injection Hn as <-; lia|]).
    intros Hn. vm_compute in Hn. discriminate Hn.
Defined.

(** ** The last cell and the total *)

Lemma depart_landing g width length c s s2 h :
  landing width length c = true ->
  grid_get g c.1 c.2 = Some h ->
  depart g width length c s = Some s2 ->
  totalVerticalDistance s2 = GoInt.add (totalVerticalDistance s) h /\
  totalHorizontalDistance s2 = totalHorizontalDistance s.
Proof.
  intros Hl Hh. unfold depart, settle. rewrite Hl, Hh. by intros [= <-].
Qed.

(** X5. Under the preconditions, the value compared with the budget at the
    last cell of the traversal is the [TotalDistance] that the call without
    budget reports: the landing term added afterwards is the hover height
    that the check had already counted.  Hence a budgeted call whose last
    achievable cell is the final corner had a budget of at least that
    total. *)
Theorem last_cell_need_is_total (cfg : Config)
    (input : CalculateDroneDistanceInput) (g : grid) :
  planner_precondition input ->
  build_grid input = Some g ->
  let width := Width (Estate_ input) in
  let length := Length (Estate_ input) in
  let cells := List.length (serpentine width length) in
  exists out,
    CalculateDroneDistance cfg (Some input) None = Returned (Some out, None) /\
    need_at cfg g width length (cells - 1) = Some (TotalDistance out) /\
    forall m out_m,
      CalculateDroneDistance cfg (Some input) (Some m)
      = Returned (Some out_m, None) ->
      reach width length out_m = cells ->
      TotalDistance out <= m.
Proof.
  intros Hpre Hg width length cells.
  destruct (build_grid_spec input Hpre) as (g' & Hg' & Hshape & _).
  rewrite Hg in Hg'. injection Hg' as <-. fold width length in Hshape.
  pose proof (serpentine_in_grid width length) as Hin.
  assert (1 <= width /\ 1 <= length) as [Hw Hl] by (destruct Hpre; tauto).
  pose proof (serpentine_last width length Hw Hl) as Hlast.
  assert (exists out,
    CalculateDroneDistance cfg (Some input) None = Returned (Some out, None) /\
    need_at cfg g width length (cells - 1) = Some (TotalDistance out))
    as (out & Hcall & Hneed).
  { rewrite (CalculateDroneDistance_run _ _ _ _ Hg), run_unbudgeted.
    fold width length. unfold need_at, cells.
    destruct (serpentine width length) as [|c l _] using rev_ind; [done|].
    rewrite last_snoc in Hlast. injection Hlast as ->.
    apply Forall_app in Hin as [Hinl Hinc].
    apply Forall_cons in Hinc as [Hc _].
    rewrite locals_after_app.
    destruct (locals_after_total cfg g width length Hshape l initial_locals
                Hinl) as [s0 Hs0].
    rewrite Hs0. simpl.
    destruct (arrive_total cfg g width length Hshape _ s0 Hc)
      as (s1 & Hs1 & _).
    destruct (depart_total g width length Hshape _ s1 Hc) as (s2 & Hs2 & _).
    rewrite Hs1, Hs2. eexists. split; [reflexivity|].
    unfold need_from. rewrite length_app. simpl.
    replace (List.length l + 1 - 1)%nat with (List.length l) by lia.
    rewrite lookup_app_r by lia. rewrite Nat.sub_diag. simpl.
    rewrite take_app_length. rewrite Hs0, Hs1. f_equal.
    destruct (arrive_reads _ _ _ _ _ _ Hs1) as (Hcur & _).
    destruct (depart_landing g width length _ s1 s2 _
                ltac:(apply landing_final_corner; [apply Hc|done]) Hcur Hs2)
      as [Hv2 Hh2].
    simpl. rewrite Hv2, Hh2. unfold budget_need, GoInt.add.
    rewrite !wrap_add_l. f_equal. lia. }
  exists out. split; [done|]. split; [done|].
  intros m out_m Hm Hreach.
  destruct (budgeted_call cfg input m Hpre)
    as (g' & k0 & r & out' & Hg' & _ & Hstop & Hout & Hcall').
  rewrite Hg in Hg'. injection Hg' as <-. fold width length in Hstop.
  rewrite Hm in Hcall'. injection Hcall' as <-.
  destruct (stops_at_reach _ _ _ _ _ _ _ Hshape Hstop) as (o & Ho & Hk).
  rewrite Hout in Ho. injection Ho as <-. rewrite Hreach in Hk. subst k0.
  destruct Hstop as (_ & Hbefore & _).
  apply (Hbefore (cells - 1)%nat); [|done].
  apply need_from_lt in Hneed. fold cells in Hneed. lia.
Qed.

Lemma last_cell_need_is_total_witness :
  exists out,
    CalculateDroneDistance cfg10 (Some (mk_input 5 5 [(3, 3, 5)])) None
    = Returned (Some out, None) /\
    TotalDistance out = 252 /\
    exists g,
      build_grid (mk_input 5 5 [(3, 3, 5)]) = Some g /\
      need_at cfg10 g 5 5 24 = Some 252.
Proof.
  destruct (build_grid_spec (mk_input 5 5 [(3, 3, 5)]))
    as (g & Hg & _); [precondition_holds|].
  destruct (last_cell_need_is_total cfg10 (mk_input 5 5 [(3, 3, 5)]) g)
    as (out & Hcall & Hneed & _); [precondition_holds|exact Hg|].
  exists out. split; [exact Hcall|].
  assert (TotalDistance out = 252) as Ht.
  { vm_compute in Hcall. by injection Hcall as <-. }
  split; [exact Ht|]. exists g. split; [exact Hg|].
  rewrite <- Ht. exact Hneed.
Defined.

(** ** The horizontal distance, whatever the trees *)

Lemma arrive_horizontal cfg g length c s s1 :
  arrive cfg g length c s = Some s1 ->
  totalHorizontalDistance s1
  = if charge c
    then GoInt.add (totalHorizontalDistance s) (ScaleFactor cfg)
    else totalHorizontalDistance s.
Proof.
  unfold arrive, measure.
  destruct (read_heights g c.1 c.2 (previous_cell length c) s) as [[cur p]|];
    [|done].
  by intros [= <-].
Qed.

Lemma horizontal_run cfg g width length l :
  grid_shape g width length ->
  forall s s',
    Forall (fun c => in_grid width length c /\ c <> (0, 0)) l ->
    GoInt.in_range (totalHorizontalDistance s) ->
    locals_after cfg g width length l s = Some s' ->
    totalHorizontalDistance s'
    = GoInt.wrap (totalHorizontalDistance s
                  + ScaleFactor cfg * Z.of_nat (List.length l)).
Proof.
  intros Hshape. induction l as [|c l IH]; intros s s' Hl Hr H.
  - simpl in *. injection H as <-. rewrite Z.mul_0_r, Z.add_0_r.
    by rewrite wrap_small.
  - apply Forall_cons in Hl as [[Hc Hne] Hl]. simpl in H.
    destruct (arrive cfg g length c s) as [s1|] eqn:E1; [|done].
    destruct (depart_total g width length Hshape c s1 Hc)
      as (s2 & E2 & _ & Hh2).
    rewrite E2 in H.
    pose proof (arrive_horizontal _ _ _ _ _ _ E1) as Hh1.
    rewrite charge_true in Hh1 by done.
    rewrite (IH s2 s' Hl);
      [|rewrite Hh2, Hh1; apply wrap_in_range|exact H].
    rewrite Hh2, Hh1. unfold GoInt.add. rewrite wrap_add_l. f_equal.
    simpl List.length. lia.
Qed.

Lemma path_horizontal cfg g width length s' :
  grid_shape g width length -> 1 <= width -> 1 <= length ->
  locals_after cfg g width length (serpentine width length) initial_locals
  = Some s' ->
  totalHorizontalDistance s'
  = GoInt.mul (ScaleFactor cfg) (width * length - 1).
Proof.
  intros Hshape Hw Hl Hs'.
  pose proof (serpentine_in_grid width length) as Hin.
  pose proof (NoDup_serpentine width length) as Hnd.
  pose proof (length_serpentine width length ltac:(lia)) as Hlen.
  destruct (serpentine_first _ _ Hw Hl) as [tl Htl].
  rewrite Htl in Hin, Hnd, Hlen, Hs'.
  apply Forall_cons in Hin as [H00 Hin].
  apply NoDup_cons in Hnd as [Hfirst _].
  simpl in Hs'.
  destruct (arrive cfg g _ (0, 0) initial_locals) as [s1|] eqn:E1; [|done].
  destruct (depart_total g _ _ Hshape (0, 0) s1 H00) as (s2 & E2 & _ & Hh2).
  rewrite E2 in Hs'.
  pose proof (arrive_horizontal _ _ _ _ _ _ E1) as Hh1. simpl in Hh1.
  rewrite (horizontal_run cfg g _ _ tl Hshape s2 s');
    [| |by rewrite Hh2, Hh1|done].
  - rewrite Hh2, Hh1. unfold GoInt.mul. f_equal. simpl in Hlen. nia.
  - apply Forall_forall. intros c Hc. split.
    + rewrite Forall_forall in Hin. by apply Hin.
    + by intros ->.
Qed.

(** X6. Under the preconditions and with no [maxDistance], the horizontal
    distance does not depend on the trees: every cell but the first adds
    [ScaleFactor], so [TotalHorizontalDistance = ScaleFactor * (Width *
    Length - 1)], with Go's multiplication always and as an equation between
    integers whenever the product fits an [int]. *)
Theorem horizontal_distance_any_trees (cfg : Config)
    (input : CalculateDroneDistanceInput) :
  planner_precondition input ->
  let cells := Width (Estate_ input) * Length (Estate_ input) in
  exists out,
    CalculateDroneDistance cfg (Some input) None = Returned (Some out, None) /\
    TotalHorizontalDistance out = GoInt.mul (ScaleFactor cfg) (cells - 1) /\
    (GoInt.in_range (ScaleFactor cfg * (cells - 1)) ->
     TotalHorizontalDistance out = ScaleFactor cfg * (cells - 1)).
Proof.
  intros Hpre cells.
  destruct (build_grid_spec input Hpre) as (g & Hg & Hshape & _).
  destruct Hpre as (Hw & Hl & _).
  rewrite (CalculateDroneDistance_run _ _ _ _ Hg), run_unbudgeted.
  destruct (locals_after_total cfg g _ _ Hshape _ initial_locals
              (serpentine_in_grid _ _)) as [s' Hs'].
  rewrite Hs'.
  pose proof (path_horizontal cfg g _ _ s' Hshape Hw Hl Hs') as Hh.
  exists (finish s'). split; [done|]. simpl. split; [done|].
  intros Hr. rewrite Hh. by apply wrap_small.
Qed.

Lemma horizontal_distance_any_trees_witness :
  exists out,
    CalculateDroneDistance cfg10
      (Some (mk_input 5 5 [(2, 2, 5); (3, 3, 3); (4, 4, 4)])) None
    = Returned (Some out, None) /\
    TotalHorizontalDistance out = 10 * (5 * 5 - 1).
Proof.
  destruct (horizontal_distance_any_trees cfg10
              (mk_input 5 5 [(2, 2, 5); (3, 3, 3); (4, 4, 4)]))
    as (out & H1 & _ & H3); [precondition_holds|].
  exists out. split; [exact H1|]. apply H3. vm_compute. split; discriminate.
Defined.

(** ** Where the last achievable coordinates can lie *)

(** X7. Under the preconditions, the last achievable coordinates of a
    budgeted call are either (0, 0), exactly when the very first cell is
    over budget, or the 1-based coordinates of a cell of the estate.  With no
    budget they are those of the final corner. *)
Theorem last_coordinates_range (cfg : Config)
    (input : CalculateDroneDistanceInput) :
  planner_precondition input ->
  let width := Width (Estate_ input) in
  let length := Length (Estate_ input) in
  (forall m, exists g out v,
     build_grid input = Some g /\
     CalculateDroneDistance cfg (Some input) (Some m)
     = Returned (Some out, None) /\
     need_at cfg g width length 0 = Some v /\
     ((m < v /\ LastAchievableXCoordinate out = 0 /\
       LastAchievableYCoordinate out = 0) \/
      (v <= m /\ 1 <= LastAchievableXCoordinate out <= length /\
       1 <= LastAchievableYCoordinate out <= width))) /\
  (exists out,
     CalculateDroneDistance cfg (Some input) None = Returned (Some out, None) /\
     LastAchievableXCoordinate out = (if Z.odd width then length else 1) /\
     LastAchievableYCoordinate out = width).
Proof.
  intros Hpre width length.
  assert (1 <= width /\ 1 <= length) as [Hw Hl] by (destruct Hpre; tauto).
  pose proof (serpentine_in_grid width length) as Hin.
  pose proof (length_serpentine width length ltac:(lia)) as Hlen.
  split.
  - intros m.
    destruct (budgeted_call cfg input m Hpre)
      as (g & k0 & r & out & Hg & Hshape & Hstop & Hout & Hcall).
    fold width length in Hshape, Hstop.
    destruct (need_from_total cfg g width length (serpentine width length)
                initial_locals O Hshape Hin ltac:(nia)) as [v Hv].
    exists g, out, v. split; [done|]. split; [done|]. split; [exact Hv|].
    destruct Hstop as (Hk & Hbefore & Hend). destruct k0 as [|k0].
    + left. destruct Hend as [(Hz & _)|(v' & s' & Hv' & Hm & Hs' & ->)];
        [nia|].
      unfold need_at in Hv. rewrite Hv in Hv'. injection Hv' as <-.
      simpl in Hs'. injection Hs' as <-. simpl in Hout.
      injection Hout as <-. done.
    + right. split; [apply (Hbefore O); [lia|exact Hv]|].
      assert (exists s',
        locals_after cfg g width length
          (take (Datatypes.S k0) (serpentine width length)) initial_locals
        = Some s' /\
        LastAchievableXCoordinate out
        = LastAchievableXCoordinate (calculateDroneDistanceOutput s') /\
        LastAchievableYCoordinate out
        = LastAchievableYCoordinate (calculateDroneDistanceOutput s'))
        as (s' & Hs' & -> & ->).
      { destruct Hend as [(Hz & s' & Hs' & ->)|(v' & s' & _ & _ & Hs' & ->)];
          simpl in Hout; injection Hout as <-; exists s'.
        - rewrite Hz, firstn_all. done.
        - done. }
      destruct (lookup_lt_is_Some_2 (serpentine width length) k0) as [c Hc];
        [lia|].
      destruct (locals_after_take_last cfg g width length _ k0 c _ _ Hshape
                  Hin Hc Hs') as [-> ->].
      apply list_elem_of_lookup_2, elem_of_serpentine in Hc.
      destruct Hc as [Hi Hj]. lia.
  - destruct (build_grid_spec input Hpre) as (g & Hg & Hshape & _).
    fold width length in Hshape.
    rewrite (CalculateDroneDistance_run _ _ _ _ Hg), run_unbudgeted.
    fold width length.
    destruct (locals_after_total cfg g width length Hshape _ initial_locals
                Hin) as [s' Hs'].
    rewrite Hs'. exists (finish s'). split; [done|]. simpl.
    pose proof (serpentine_last width length Hw Hl) as Hlast.
    destruct (serpentine width length) as [|c l _] using rev_ind; [done|].
    rewrite last_snoc in Hlast. injection Hlast as ->.
    destruct (locals_after_last cfg g width length Hshape _ _ _ _ Hin Hs')
      as [-> ->].
    unfold final_corner, row_last. simpl.
    replace (Z.even (width - 1)) with (Z.odd width).
    + destruct (Z.odd width); lia.
    + rewrite Z.even_sub. destruct (Z.even width) eqn:Ee;
        rewrite <- Z.negb_even, Ee; done.
Qed.

Lemma last_coordinates_range_witness :
  exists out,
    CalculateDroneDistance cfg10
      (Some (mk_input 5 2 [(5, 1, 5); (5, 2, 10)])) None
    = Returned (Some out, None) /\
    LastAchievableXCoordinate out = 1 /\
    LastAchievableYCoordinate out = 2.
Proof.
  destruct (last_coordinates_range cfg10
              (mk_input 5 2 [(5, 1, 5); (5, 2, 10)])) as [_ H];
    [precondition_holds|].
  exact H.
Defined.

(** ** The vertical distance as the climbs along the path *)

Lemma planted_height_modest trees x y :
  modest_heights trees -> 1 <= planted_height trees x y < 2 ^ 53.
Proof.
  unfold planted_height.
  assert (forall h0, modest_heights trees -> 1 <= h0 < 2 ^ 53 ->
    1 <= fold_left
           (fun h t => if (X t =? x) && (Y t =? y)
                       then GoInt.add (Height t) 1 else h) trees h0
      < 2 ^ 53) as H.
  { induction trees as [|t trees IH]; intros h0 Hm Hh0; [done|].
    apply Forall_cons in Hm as [Ht Hm]. simpl. apply IH; [done|].
    destruct ((X t =? x) && (Y t =? y)); [|done].
    unfold GoInt.add. rewrite wrap_small; [lia|].
    unfold GoInt.in_range, GoInt.min_int, GoInt.max_int. lia. }
  intros Hm. apply H; [done|lia].
Qed.

Lemma depart_vertical g width length c s s2 h :
  grid_get g c.1 c.2 = Some h ->
  depart g width length c s = Some s2 ->
  totalVerticalDistance s2
  = (if landing width length c
     then GoInt.add (totalVerticalDistance s) h
     else totalVerticalDistance s) /\
  currentHeight s2 = currentHeight s /\
  previousHeight s2 = previousHeight s.
Proof.
  intros Hh. unfold depart, settle. rewrite Hh.
  destruct (landing width length c); by intros [= <-].
Qed.

Section Climbs.

Variables (cfg : Config) (g : grid) (width length : Z) (h : Z * Z -> Z).
Hypothesis Hheights :
  forall c, in_grid width length c -> grid_get g c.1 c.2 = Some (h c).
Hypothesis Hmodest :
  forall c, in_grid width length c -> 0 <= h c < 2 ^ 53.

Lemma vertical_run l : forall p s s',
  chain length p l ->
  Forall (in_grid width length) l ->
  match p with
  | Some c' => in_grid width length c'
  | None => 0 <= previousHeight s < 2 ^ 53
  end ->
  GoInt.in_range (totalVerticalDistance s) ->
  locals_after cfg g width length l s = Some s' ->
  totalVerticalDistance s'
  = GoInt.wrap
      (totalVerticalDistance s
       + climb_sum h (match p with
                      | Some c' => h c'
                      | None => previousHeight s
                      end) l
       + landing_sum h width length l).
Proof using Hheights Hmodest.
  induction l as [|c l IH]; intros p s s' Hch Hl Hp Hv H.
  - simpl in *. injection H as <-. rewrite !Z.add_0_r. by rewrite wrap_small.
  - destruct Hch as [Hprev Hch]. apply Forall_cons in Hl as [Hc Hl].
    simpl in H.
    destruct (arrive cfg g length c s) as [s1|] eqn:E1; [|done].
    destruct (depart g width length c s1) as [s2|] eqn:E2; [|done].
    destruct (arrive_reads _ _ _ _ _ _ E1) as (Hcur & Hpv & Hv1).
    rewrite (Hheights c Hc) in Hcur. injection Hcur as Hcur.
    rewrite Hprev in Hpv.
    set (pv := match p with
               | Some c' => h c'
               | None => previousHeight s
               end) in *.
    assert (previousHeight s1 = pv /\ 0 <= pv < 2 ^ 53) as [Hpv1 Hpvr].
    { unfold pv. destruct p as [c'|].
      - rewrite (Hheights c' Hp) in Hpv. injection Hpv as <-.
        split; [done|]. by apply Hmodest.
      - by rewrite Hpv. }
    pose proof (Hmodest c Hc) as Hhc.
    assert (totalVerticalDistance s1
            = GoInt.wrap (totalVerticalDistance s + Z.abs (h c - pv))) as Hv1'.
    { rewrite Hv1, <- Hcur, Hpv1. unfold GoInt.add, GoInt.sub. do 2 f_equal.
      rewrite wrap_small
        by (unfold GoInt.in_range, GoInt.min_int, GoInt.max_int; lia).
      apply abs_via_float64_exact. lia. }
    destruct (depart_vertical g width length c s1 s2 (h c) (Hheights c Hc) E2)
      as (Hv2 & Hc2 & _).
    rewrite (IH (Some c) s2 s' Hch Hl Hc);
      [|rewrite Hv2; destruct (landing width length c);
        [apply wrap_in_range|rewrite Hv1'; apply wrap_in_range]
       |exact H].
    rewrite Hv2. simpl climb_sum. simpl landing_sum.
    destruct (landing width length c).
    + unfold GoInt.add. rewrite Hv1'. rewrite wrap_add_l.
      rewrite <- (Z.add_assoc (GoInt.wrap _)). rewrite wrap_add_l.
      f_equal. lia.
    + rewrite Hv1'. rewrite <- (Z.add_assoc (GoInt.wrap _)).
      rewrite wrap_add_l. f_equal. lia.
Qed.

Lemma landing_sum_none l :
  Forall (fun c => in_grid width length c /\
                   c <> final_corner width length) l ->
  landing_sum h width length l = 0.
Proof.
  induction l as [|c l IH]; intros Hl; [done|].
  apply Forall_cons in Hl as [[Hc Hne] Hl]. simpl. rewrite (IH Hl).
  destruct (landing width length c) eqn:E; [|done].
  apply landing_final_corner in E; [done|apply Hc].
Qed.

Lemma landing_sum_app l1 l2 :
  landing_sum h width length (l1 ++ l2)
  = landing_sum h width length l1 + landing_sum h width length l2.
Proof. induction l1 as [|c l1 IH]; simpl; [done|]. rewrite IH. lia. Qed.

End Climbs.

Lemma height_at_modest trees c :
  modest_heights trees -> 0 <= height_at trees c < 2 ^ 53.
Proof.
  intros Hm. unfold height_at.
  pose proof (planted_height_modest trees (c.2 + 1) (c.1 + 1) Hm). lia.
Qed.

Lemma landing_sum_serpentine h width length :
  1 <= width -> 1 <= length ->
  landing_sum h width length (serpentine width length)
  = h (final_corner width length).
Proof.
  intros Hw Hl.
  pose proof (serpentine_in_grid width length) as Hin.
  pose proof (serpentine_last width length Hw Hl) as Hlast.
  pose proof (NoDup_serpentine width length) as Hnd.
  destruct (serpentine width length) as [|c l _] using rev_ind; [done|].
  rewrite last_snoc in Hlast. injection Hlast as ->.
  apply NoDup_app in Hnd as (_ & Hnot & _).
  apply Forall_app in Hin as [Hinl Hinc].
  apply Forall_cons in Hinc as [Hc _].
  rewrite landing_sum_app. rewrite landing_sum_none.
  - simpl.
    assert (landing width length (final_corner width length) = true) as ->
      by (apply landing_final_corner; [apply Hc|done]).
    lia.
  - apply Forall_forall. intros c Hcl. split.
    + rewrite Forall_forall in Hinl. by apply Hinl.
    + intros ->. apply (Hnot _ Hcl). constructor.
Qed.

Lemma path_vertical cfg input g s' :
  planner_precondition input ->
  modest_heights (Trees input) ->
  build_grid input = Some g ->
  let width := Width (Estate_ input) in
  let length := Length (Estate_ input) in
  let h := height_at (Trees input) in
  locals_after cfg g width length (serpentine width length) initial_locals
  = Some s' ->
  totalVerticalDistance s'
  = GoInt.wrap (climb_sum h 0 (serpentine width length)
                + h (final_corner width length)).
Proof.
  intros Hpre Hmod Hg width length h Hs'.
  destruct (build_grid_spec input Hpre) as (g' & Hg' & Hshape & Hh).
  rewrite Hg in Hg'. injection Hg' as <-.
  fold width length in Hshape, Hh.
  assert (1 <= width /\ 1 <= length) as [Hw Hl] by (destruct Hpre; tauto).
  rewrite (vertical_run cfg g width length h Hh
             ltac:(intros c _; by apply height_at_modest)
             (serpentine width length) None initial_locals s'
             (chain_serpentine width length Hl)
             (serpentine_in_grid width length)
             ltac:(simpl; lia)
             ltac:(by vm_compute) Hs').
  simpl. f_equal. by rewrite landing_sum_serpentine.
Qed.

(** X8. Under the preconditions, with no [maxDistance] and tree heights
    from 0 up to [2^53 - 2] (where [float64] is exact), the vertical distance
    is the height of the first cell, plus the absolute height differences
    between each cell and the one before it along the serpentine path, plus
    the height of the final corner: with Go's addition always, and as an
    equation between integers whenever the sum fits an [int]. *)
Theorem vertical_distance_is_climbs (cfg : Config)
    (input : CalculateDroneDistanceInput) :
  planner_precondition input ->
  modest_heights (Trees input) ->
  let width := Width (Estate_ input) in
  let length := Length (Estate_ input) in
  let h := height_at (Trees input) in
  let climbs :=
    climb_sum h 0 (serpentine width length) + h (final_corner width length) in
  exists out,
    CalculateDroneDistance cfg (Some input) None = Returned (Some out, None) /\
    TotalVerticalDistance out = GoInt.wrap climbs /\
    (GoInt.in_range climbs -> TotalVerticalDistance out = climbs).
Proof.
  intros Hpre Hmod width length h climbs.
  destruct (build_grid_spec input Hpre) as (g & Hg & Hshape & _).
  rewrite (CalculateDroneDistance_run _ _ _ _ Hg), run_unbudgeted.
  destruct (locals_after_total cfg g _ _ Hshape _ initial_locals
              (serpentine_in_grid _ _)) as [s' Hs'].
  rewrite Hs'.
  pose proof (path_vertical cfg input g s' Hpre Hmod Hg Hs') as Hv.
  exists (finish s'). split; [done|]. simpl. split; [exact Hv|].
  intros Hr. rewrite Hv. by apply wrap_small.
Qed.

Lemma vertical_distance_is_climbs_witness :
  exists out,
    CalculateDroneDistance cfg10 (Some (mk_input 5 5 [(3, 3, 5)])) None
    = Returned (Some out, None) /\
    TotalVerticalDistance out = 12.
Proof.
  destruct (vertical_distance_is_climbs cfg10 (mk_input 5 5 [(3, 3, 5)]))
    as (out & H1 & _ & H3).
  - precondition_holds.
  - repeat constructor; simpl; lia.
  - exists out. split; [exact H1|].
    rewrite H3; [vm_compute; reflexivity|]. vm_compute. split; discriminate.
Defined.

(** ** A budget of the total distance *)

Lemma wrap_add_r a b : GoInt.wrap (a + GoInt.wrap b) = GoInt.wrap (a + b).
Proof. rewrite Z.add_comm, wrap_add_l. f_equal. lia. Qed.

Lemma wrap_add_3 a b c :
  GoInt.wrap (GoInt.wrap (GoInt.wrap a + GoInt.wrap b) + c)
  = GoInt.wrap (a + b + c).
Proof.
  rewrite wrap_add_l.
  replace (GoInt.wrap a + GoInt.wrap b + c)
    with (GoInt.wrap a + (GoInt.wrap b + c)) by lia.
  rewrite wrap_add_l.
  replace (a + (GoInt.wrap b + c)) with (a + c + GoInt.wrap b) by lia.
  rewrite wrap_add_r. f_equal. lia.
Qed.

Lemma last_height_cons h prev c l :
  last_height h prev (c :: l) = last_height h (h c) l.
Proof. unfold last_height. rewrite last_cons. by destruct (last l). Qed.

Lemma climb_sum_app h l1 : forall prev l2,
  climb_sum h prev (l1 ++ l2)
  = climb_sum h prev l1 + climb_sum h (last_height h prev l1) l2.
Proof.
  induction l1 as [|c l1 IH]; intros prev l2; [done|].
  simpl. rewrite IH, last_height_cons. lia.
Qed.

Lemma climb_sum_nonneg h l : forall prev, 0 <= climb_sum h prev l.
Proof.
  induction l as [|c l IH]; intros prev; simpl; [done|].
  specialize (IH (h c)). lia.
Qed.

(** Climbing never ends lower than the climbs make up for. *)
Lemma climb_telescope h l : forall prev,
  prev <= climb_sum h prev l + last_height h prev l.
Proof.
  induction l as [|c l IH]; intros prev.
  - unfold last_height. simpl. lia.
  - simpl. rewrite last_height_cons. specialize (IH (h c)). lia.
Qed.

Section NeedExact.

Variables (cfg : Config) (g : grid) (width length : Z) (h : Z * Z -> Z).
Hypothesis Hshape : grid_shape g width length.
Hypothesis Hheights :
  forall c, in_grid width length c -> grid_get g c.1 c.2 = Some (h c).
Hypothesis Hmodest :
  forall c, in_grid width length c -> 0 <= h c < 2 ^ 53.
Hypothesis Hwidth : 1 <= width.
Hypothesis Hlength : 1 <= length.

Lemma arrive_climb p c s s1 :
  previous_cell length c = p ->
  in_grid width length c ->
  match p with
  | Some c' => in_grid width length c'
  | None => 0 <= previousHeight s < 2 ^ 53
  end ->
  arrive cfg g length c s = Some s1 ->
  currentHeight s1 = h c /\
  totalVerticalDistance s1
  = GoInt.wrap (totalVerticalDistance s
                + Z.abs (h c - match p with
                                | Some c' => h c'
                                | None => previousHeight s
                                end)).
Proof using Hheights Hmodest.
  intros Hprev Hc Hp E1.
  destruct (arrive_reads _ _ _ _ _ _ E1) as (Hcur & Hpv & Hv1).
  rewrite (Hheights c Hc) in Hcur. injection Hcur as Hcur.
  rewrite Hprev in Hpv. split; [done|].
  set (pv := match p with
             | Some c' => h c'
             | None => previousHeight s
             end) in *.
  assert (previousHeight s1 = pv /\ 0 <= pv < 2 ^ 53) as [Hpv1 Hpvr].
  { unfold pv. destruct p as [c'|].
    - rewrite (Hheights c' Hp) in Hpv. injection Hpv as <-.
      split; [done|]. by apply Hmodest.
    - by rewrite Hpv. }
  pose proof (Hmodest c Hc) as Hhc.
  rewrite Hv1, <- Hcur, Hpv1. unfold GoInt.add, GoInt.sub. do 2 f_equal.
  rewrite wrap_small
    by (unfold GoInt.in_range, GoInt.min_int, GoInt.max_int; lia).
  apply abs_via_float64_exact. lia.
Qed.

(** The horizontal total after a non-empty prefix of the traversal. *)
Lemma horizontal_prefix l1 l2 s0 :
  serpentine width length = l1 ++ l2 ->
  locals_after cfg g width length l1 initial_locals = Some s0 ->
  totalHorizontalDistance s0
  = GoInt.wrap (ScaleFactor cfg * Z.of_nat (Nat.pred (List.length l1))).
Proof using Hshape Hwidth Hlength.
  intros Hpath Hs0.
  pose proof (serpentine_in_grid width length) as Hin.
  pose proof (NoDup_serpentine width length) as Hnd.
  destruct (serpentine_first _ _ Hwidth Hlength) as [tl Htl].
  rewrite Hpath in Hin, Hnd, Htl.
  destruct l1 as [|c0 tl1].
  - simpl in Hs0. injection Hs0 as <-. simpl. by rewrite Z.mul_0_r.
  - simpl in Htl. injection Htl as -> _.
    apply Forall_app in Hin as [Hin _].
    apply NoDup_app in Hnd as (Hnd & _ & _).
    apply Forall_cons in Hin as [H00 Hin].
    apply NoDup_cons in Hnd as [Hfirst _].
    simpl in Hs0.
    destruct (arrive cfg g _ (0, 0) initial_locals) as [s1|] eqn:E1; [|done].
    destruct (depart_total g _ _ Hshape (0, 0) s1 H00) as (s2 & E2 & _ & Hh2).
    rewrite E2 in Hs0.
    pose proof (arrive_horizontal _ _ _ _ _ _ E1) as Hh1. simpl in Hh1.
    rewrite (horizontal_run cfg g _ _ tl1 Hshape s2 s0);
      [| |by rewrite Hh2, Hh1|done].
    + rewrite Hh2, Hh1. simpl. f_equal.
    + apply Forall_forall. intros c Hc. split.
      * rewrite Forall_forall in Hin. by apply Hin.
      * by intros ->.
Qed.

(** The value compared with the budget at a cell, in closed form. *)
Lemma need_at_exact l1 c l2 :
  serpentine width length = l1 ++ c :: l2 ->
  need_at cfg g width length (List.length l1)
  = Some (GoInt.wrap (ScaleFactor cfg * Z.of_nat (List.length l1)
                      + climb_sum h 0 (l1 ++ [c]) + h c)).
Proof using Hshape Hheights Hmodest Hwidth Hlength.
  intros Hpath.
  pose proof (serpentine_in_grid width length) as Hin.
  pose proof (NoDup_serpentine width length) as Hnd.
  pose proof (chain_serpentine width length Hlength) as Hch.
  pose proof (serpentine_last width length Hwidth Hlength) as Hlast.
  pose proof (serpentine_first _ _ Hwidth Hlength) as [tl Htl].
  unfold need_at, need_from. rewrite Hpath in *.
  rewrite list_lookup_middle by done. rewrite take_app_length.
  apply Forall_app in Hin as [Hin1 Hinc].
  apply Forall_cons in Hinc as [Hc _].
  apply chain_app in Hch as [Hch1 [Hprev _]].
  destruct (locals_after_total cfg g width length Hshape l1 initial_locals
              Hin1) as [s0 Hs0].
  destruct (arrive_total cfg g width length Hshape c s0 Hc) as (s1 & Hs1 & _).
  rewrite Hs0, Hs1. f_equal.
  (* the vertical total *)
  assert (Forall (fun c' => in_grid width length c' /\
                            c' <> final_corner width length) l1) as Hmid.
  { apply Forall_forall. intros c' Hc'. split.
    - rewrite Forall_forall in Hin1. by apply Hin1.
    - intros ->. rewrite last_app_cons in Hlast.
      apply last_Some_elem_of in Hlast.
      apply NoDup_app in Hnd as (_ & Hnot & _). by apply (Hnot _ Hc'). }
  pose proof (vertical_run cfg g width length h Hheights Hmodest l1 None
                initial_locals s0 Hch1 Hin1 ltac:(simpl; lia)
                ltac:(by vm_compute) Hs0) as Hv0.
  rewrite (landing_sum_none width length h l1 Hmid) in Hv0. simpl in Hv0.
  rewrite Z.add_0_r in Hv0.
  assert (match last_or None l1 with
          | Some c' => h c'
          | None => previousHeight s0
          end = last_height h 0 l1 /\
          match last_or None l1 with
          | Some c' => in_grid width length c'
          | None => 0 <= previousHeight s0 < 2 ^ 53
          end) as [Hpv Hp].
  { unfold last_or, last_height. destruct (last l1) as [c'|] eqn:El.
    - split; [done|]. apply last_Some_elem_of in El.
      rewrite Forall_forall in Hin1. by apply Hin1.
    - apply last_None in El. subst l1. simpl in Hs0. injection Hs0 as <-.
      simpl. split; [done|lia]. }
  destruct (arrive_climb _ c s0 s1 Hprev Hc Hp Hs1) as [Hcur Hv1].
  rewrite Hpv, Hv0 in Hv1. rewrite wrap_add_l in Hv1.
  (* the horizontal total *)
  pose proof (horizontal_prefix l1 (c :: l2) s0 Hpath Hs0) as Hh0.
  pose proof (arrive_horizontal _ _ _ _ _ _ Hs1) as Hh1.
  assert (totalHorizontalDistance s1
          = GoInt.wrap (ScaleFactor cfg * Z.of_nat (List.length l1))) as Hh.
  { rewrite Hh1, Hh0. destruct l1 as [|c0 tl1].
    - simpl in Htl. injection Htl as -> _. simpl. by rewrite Z.mul_0_r.
    - simpl in Htl. injection Htl as -> _.
      rewrite charge_true.
      + unfold GoInt.add. rewrite wrap_add_l. f_equal. simpl. lia.
      + intros ->. apply NoDup_cons in Hnd as [Hfirst _]. apply Hfirst.
        apply elem_of_app. right. constructor. }
  unfold budget_need, GoInt.add. rewrite Hh, Hv1, Hcur.
  rewrite climb_sum_app. simpl climb_sum.
  rewrite wrap_add_3. f_equal. lia.
Qed.

End NeedExact.

(** X9. Under the preconditions, with tree heights from 0 up to
    [2^53 - 2], a non-negative [ScaleFactor] and a total
    [ScaleFactor * (Width * Length - 1)] plus climbs that fits an [int]: the
    call without budget reports exactly that total as [TotalDistance], and
    every budget of at least that total is enough for the whole estate: the
    budgeted call returns the same output. *)
Theorem budget_of_total_suffices (cfg : Config)
    (input : CalculateDroneDistanceInput) :
  planner_precondition input ->
  modest_heights (Trees input) ->
  0 <= ScaleFactor cfg ->
  let width := Width (Estate_ input) in
  let length := Length (Estate_ input) in
  let h := height_at (Trees input) in
  let total :=
    ScaleFactor cfg * (width * length - 1)
    + (climb_sum h 0 (serpentine width length)
       + h (final_corner width length)) in
  GoInt.in_range total ->
  exists out,
    CalculateDroneDistance cfg (Some input) None = Returned (Some out, None) /\
    TotalDistance out = total /\
    forall m, total <= m ->
      CalculateDroneDistance cfg (Some input) (Some m)
      = Returned (Some out, None).
Proof.
  intros Hpre Hmod Hsf width length h total Hrange.
  destruct (build_grid_spec input Hpre) as (g & Hg & Hshape & Hh).
  fold width length in Hshape, Hh.
  assert (1 <= width /\ 1 <= length) as [Hw Hl] by (destruct Hpre; tauto).
  pose proof (serpentine_in_grid width length) as Hin.
  destruct (locals_after_total cfg g width length Hshape _ initial_locals Hin)
    as [s' Hs'].
  exists (finish s'). split; [|split].
  - rewrite (CalculateDroneDistance_run _ _ _ _ Hg), run_unbudgeted.
    fold width length. by rewrite Hs'.
  - simpl.
    rewrite (path_vertical cfg input g s' Hpre Hmod Hg Hs').
    rewrite (path_horizontal cfg g width length s' Hshape Hw Hl Hs').
    unfold GoInt.add, GoInt.mul. rewrite wrap_add_l, wrap_add_r.
    fold width length h. rewrite <- (wrap_small total Hrange).
    f_equal. unfold total. lia.
  - intros m Hm.
    destruct (never_exceeded_call cfg input m g Hpre Hg) as (s'' & Hs'' & ->).
    2:{ fold width length in Hs''. rewrite Hs' in Hs''. by injection Hs'' as <-. }
    fold width length. intros k v Hv.
    pose proof (need_from_lt _ _ _ _ _ _ _ _ Hv) as Hk.
    destruct (lookup_lt_is_Some_2 _ _ Hk) as [c Hc].
    pose proof (take_drop_middle _ _ _ Hc) as Hsplit. symmetry in Hsplit.
    set (l1 := take k (serpentine width length)) in *.
    set (l2 := drop (Datatypes.S k) (serpentine width length)) in *.
    assert (List.length l1 = k) as Hlen1
      by (unfold l1; rewrite length_take; lia).
    pose proof (need_at_exact cfg g width length h Hshape Hh
                  ltac:(intros c' _; by apply height_at_modest) Hw Hl
                  l1 c l2 Hsplit) as Hexact.
    rewrite Hlen1, Hv in Hexact. injection Hexact as ->.
    pose proof (length_serpentine width length ltac:(lia)) as Hcells.
    pose proof (serpentine_last width length Hw Hl) as Hlast.
    assert (climb_sum h 0 (l1 ++ [c]) + h c
            <= climb_sum h 0 (serpentine width length)
               + h (final_corner width length)) as Hclimb.
    { rewrite Hsplit in Hlast |- *.
      replace (l1 ++ c :: l2) with ((l1 ++ [c]) ++ l2)
        by (by rewrite <- app_assoc).
      rewrite (climb_sum_app h (l1 ++ [c])).
      replace (last_height h 0 (l1 ++ [c])) with (h c)
        by (unfold last_height; by rewrite last_snoc).
      pose proof (climb_telescope h l2 (h c)) as Htel.
      replace (last_height h (h c) l2) with (h (final_corner width length))
        in Htel; [lia|].
      rewrite last_app_cons, last_cons in Hlast. unfold last_height.
      destruct (last l2); by injection Hlast as ->. }
    pose proof (climb_sum_nonneg h (l1 ++ [c]) 0) as Hnn.
    pose proof (height_at_modest (Trees input) c Hmod) as Hhc. fold h in Hhc.
    assert (ScaleFactor cfg * Z.of_nat k
            <= ScaleFactor cfg * (width * length - 1)) as Hhor by nia.
    rewrite wrap_small.
    + unfold total in Hm. lia.
    + unfold GoInt.in_range in *. unfold total in Hrange.
      unfold GoInt.min_int, GoInt.max_int in *. nia.
Qed.

Lemma budget_of_total_suffices_witness :
  exists out,
    CalculateDroneDistance cfg10
      (Some (mk_input 5 2 [(5, 1, 5); (5, 2, 10)])) None
    = Returned (Some out, None) /\
    TotalDistance out = 112 /\
    CalculateDroneDistance cfg10
      (Some (mk_input 5 2 [(5, 1, 5); (5, 2, 10)])) (Some 112)
    = Returned (Some out, None).
Proof.
  destruct (budget_of_total_suffices cfg10
              (mk_input 5 2 [(5, 1, 5); (5, 2, 10)]))
    as (out & H1 & H2 & H3).
  - precondition_holds.
  - repeat constructor; simpl; lia.
  - simpl. lia.
  - vm_compute. split; discriminate.
  - exists out. split; [exact H1|]. split.
    + rewrite H2. vm_compute. reflexivity.
    + apply H3. vm_compute. discriminate.
Defined.

(** * Properties of the repository and of the handlers *)

(** ** Reading the trees of an estate *)

Lemma scan_trees_acc rows : forall acc,
  scan_trees rows acc
  = match scan_trees rows [] with
    | inl trees => inl (acc ++ trees)
    | inr e => inr e
    end.
Proof.
  induction rows as [|[e|t] rows IH]; intros acc; simpl.
  - by rewrite app_nil_r.
  - done.
  - rewrite (IH (acc ++ [t])), (IH [t]).
    destruct (scan_trees rows []); [|done]. by rewrite <- app_assoc.
Qed.

Lemma scan_trees_Scanned trees : scan_trees (Scanned <$> trees) [] = inl trees.
Proof.
  induction trees as [|t trees IH]; [done|].
  rewrite fmap_cons. cbn [scan_trees]. rewrite scan_trees_acc, IH. done.
Qed.

Lemma scan_trees_inl rows trees :
  scan_trees rows [] = inl trees -> rows = Scanned <$> trees.
Proof.
  revert trees. induction rows as [|[e|t] rows IH]; intros trees; simpl.
  - by intros [= <-].
  - done.
  - rewrite scan_trees_acc. destruct (scan_trees rows []) as [l|]; [|done].
    intros [= <-]. rewrite fmap_cons. f_equal. by apply IH.
Qed.

(** X10. [GetEstateTreesByEstateId] returns an output exactly when the
    tree query yields rows that all scan and the estate query yields a row;
    the output then lists the trees in row order with the estate's length
    and width.  It never returns both an output and an error, and when the
    estate query finds no row it returns the error [sql.ErrNoRows], not the
    absent output that stands for a missing estate. *)
Theorem trees_of_estate_read (db : Db) (input : GetEstateTreesByEstateIdInput.t) :
  let id := GetEstateTreesByEstateIdInput.EstateId input in
  (forall out err,
     Repository_GetEstateTreesByEstateId db input = (Some out, err) <->
     err = None /\
     exists trees l w,
       select_trees db id = Rows (Scanned <$> trees) /\
       select_estate db id = Scanned (l, w) /\
       out = {| GetEstateTreesByEstateIdOutput.Trees := trees;
                GetEstateTreesByEstateIdOutput.Estate :=
                  {| Length := l; Width := w |} |}) /\
  (forall trees,
     select_trees db id = Rows (Scanned <$> trees) ->
     select_estate db id = ScanError ErrNoRows ->
     Repository_GetEstateTreesByEstateId db input = (None, Some ErrNoRows)).
Proof.
  intros id. unfold Repository_GetEstateTreesByEstateId. fold id. split.
  - intros out err. split.
    + destruct (select_trees db id) as [[|msg]|rows]; try done.
      destruct (scan_trees rows []) as [trees|e] eqn:Es; [|done].
      apply scan_trees_inl in Es. subst rows.
      destruct (select_estate db id) as [e|[l w]]; [done|].
      intros [= <- <-]. split; [done|]. by exists trees, l, w.
    + intros (-> & trees & l & w & -> & -> & ->).
      by rewrite scan_trees_Scanned.
  - intros trees -> ->. by rewrite scan_trees_Scanned.
Qed.

Lemma trees_of_estate_read_witness :
  Repository_GetEstateTreesByEstateId
    {| select_estate := fun _ => ScanError ErrNoRows;
       select_trees := fun _ => Rows [] |}
    {| GetEstateTreesByEstateIdInput.EstateId := "e" |}
  = (None, Some ErrNoRows).
Proof.
  destruct (trees_of_estate_read
              {| select_estate := fun _ => ScanError ErrNoRows;
                 select_trees := fun _ => Rows [] |}
              {| GetEstateTreesByEstateIdInput.EstateId := "e" |})
    as [_ H].
  apply (H []); reflexivity.
Defined.

(** ** The drone plan handler *)

Lemma planner_never_errs cfg input maxDistance o e :
  CalculateDroneDistance cfg (Some input) maxDistance <> Returned (o, Some e).
Proof.
  unfold CalculateDroneDistance. destruct (build_grid input); [|done].
  by destruct (traverse _ _ _ _ _ _).
Qed.

(** X11. Whatever the repository answers, the drone plan handler never
    responds with the body it keeps for an error of
    [CalculateDroneDistance]: the planner is always given an input, so that
    branch cannot be taken.  Its 500 responses all carry "Invalid request",
    and stem from an error of the repository. *)
Theorem drone_plan_never_blames_planner {DB} (s : Server DB)
    (estateId : string) (params : DronePlanParams.t) (db db' : DB)
    (status : Z) (b : body) :
  GetEstateEstateIdDronePlan s estateId params db
  = Returned ((status, b), db') ->
  b <> something_happens /\
  (status = StatusInternalServerError ->
   b = invalid_request /\
   exists o e,
     GetEstateTreesByEstateId (ServerRepository s)
       {| GetEstateTreesByEstateIdInput.EstateId := estateId |} db
     = ((o, Some e), db')).
Proof.
  unfold GetEstateEstateIdDronePlan.
  destruct (GetEstateTreesByEstateId _ _ db) as [[[output|] [e|]] db1];
    try (intros [= <- <- <-]; split; [done|]; intros _; split; [done|]; eauto);
    try (intros [= <- <- <-]; split; [done|]; done).
  destruct (CalculateDroneDistance _ _ _) as [[[out|] [e|]]| |] eqn:Ec;
    try done;
    try (by apply planner_never_errs in Ec).
  intros [= <- <- <-]. split; [done|]. done.
Qed.

Lemma drone_plan_never_blames_planner_witness :
  invalid_request <> something_happens.
Proof.
  apply (drone_plan_never_blames_planner
           {| ServerRepository :=
                Repository (fun _ db => ((None, None), db))
                  (fun _ db => ((None, None), db))
                  (fun _ db => ((None, None), db));
              ServerConfig := cfg10 |}
           "e" {| DronePlanParams.MaxDistance := None |}
           {| select_estate := fun _ => ScanError ErrNoRows;
              select_trees := fun _ => Rows [] |}
           {| select_estate := fun _ => ScanError ErrNoRows;
              select_trees := fun _ => Rows [] |}
           StatusInternalServerError invalid_request).
  reflexivity.
Defined.

(** X12. For an estate and trees that meet the planner's preconditions,
    the drone plan handler answers 200.  With no [max-distance] the distance
    is the planner's [TotalDistance] and there is no [rest].  With
    [max-distance] the distance is that very budget, whatever the planner
    computed, and [rest] carries the planner's last achievable coordinates:
    (0, 0) or the coordinates of a cell of the estate. *)
Theorem drone_plan_response {DB} (s : Server DB) (estateId : string)
    (params : DronePlanParams.t) (db db' : DB)
    (output : GetEstateTreesByEstateIdOutput.t) :
  GetEstateTreesByEstateId (ServerRepository s)
    {| GetEstateTreesByEstateIdInput.EstateId := estateId |} db
  = ((Some output, None), db') ->
  let input :=
    {| Trees := GetEstateTreesByEstateIdOutput.Trees output;
       Estate_ := GetEstateTreesByEstateIdOutput.Estate output |} in
  planner_precondition input ->
  exists out,
    CalculateDroneDistance (ServerConfig s) (Some input)
      (DronePlanParams.MaxDistance params) = Returned (Some out, None) /\
    match DronePlanParams.MaxDistance params with
    | None =>
        GetEstateEstateIdDronePlan s estateId params db
        = Returned
            ((StatusOK,
              DronePlanBody {| DronePlanResponse.Distance := TotalDistance out;
                               DronePlanResponse.Rest := None |}), db')
    | Some m =>
        exists x y,
          GetEstateEstateIdDronePlan s estateId params db
          = Returned
              ((StatusOK,
                DronePlanBody
                  {| DronePlanResponse.Distance := m;
                     DronePlanResponse.Rest := Some (Some x, Some y) |}), db') /\
          x = LastAchievableXCoordinate out /\
          y = LastAchievableYCoordinate out /\
          ((x = 0 /\ y = 0) \/
           (1 <= x <= Length (Estate_ input) /\
            1 <= y <= Width (Estate_ input)))
    end.
Proof.
  intros Hrepo input Hpre.
  destruct (planner_returns (ServerConfig s) input
              (DronePlanParams.MaxDistance params) Hpre)
    as (g & out & Hg & Hshape & Hcall).
  exists out. split; [done|].
  unfold GetEstateEstateIdDronePlan. rewrite Hrepo. fold input. rewrite Hcall.
  destruct (DronePlanParams.MaxDistance params) as [m|]; [|done].
  exists (LastAchievableXCoordinate out), (LastAchievableYCoordinate out).
  split; [done|]. split; [done|]. split; [done|].
  destruct (budgeted_call (ServerConfig s) input m Hpre)
    as (g' & k0 & r & out' & Hg' & _ & Hstop & Hout & Hcall').
  rewrite Hg in Hg'. injection Hg' as <-.
  rewrite Hcall in Hcall'. injection Hcall' as <-.
  pose proof (serpentine_in_grid (Width (Estate_ input))
                (Length (Estate_ input))) as Hin.
  destruct Hstop as (Hk & _ & Hend). destruct k0 as [|k0].
  - left. destruct Hend as [(Hz & s' & Hs' & ->)|(v' & s' & _ & _ & Hs' & ->)];
      simpl in Hout; injection Hout as <-.
    + symmetry in Hz. apply nil_length_inv in Hz. rewrite Hz in Hs'.
      simpl in Hs'. by injection Hs' as <-.
    + simpl in Hs'. by injection Hs' as <-.
  - right.
    assert (exists s',
      locals_after (ServerConfig s) g (Width (Estate_ input))
        (Length (Estate_ input))
        (take (Datatypes.S k0)
           (serpentine (Width (Estate_ input)) (Length (Estate_ input))))
        initial_locals = Some s' /\
      LastAchievableXCoordinate out
      = LastAchievableXCoordinate (calculateDroneDistanceOutput s') /\
      LastAchievableYCoordinate out
      = LastAchievableYCoordinate (calculateDroneDistanceOutput s'))
      as (s' & Hs' & -> & ->).
    { destruct Hend as [(Hz & s' & Hs' & ->)|(v' & s' & _ & _ & Hs' & ->)];
        simpl in Hout; injection Hout as <-; exists s'.
      - rewrite Hz, firstn_all. done.
      - done. }
    destruct (lookup_lt_is_Some_2
                (serpentine (Width (Estate_ input)) (Length (Estate_ input)))
                k0) as [c Hc]; [lia|].
    destruct (locals_after_take_last _ g _ _ _ k0 c _ _ Hshape Hin Hc Hs')
      as [-> ->].
    apply list_elem_of_lookup_2, elem_of_serpentine in Hc.
    destruct Hc as [Hi Hj]. lia.
Qed.

Lemma drone_plan_response_witness :
  GetEstateEstateIdDronePlan sample_server "e"
    {| DronePlanParams.MaxDistance := Some 46 |} sample_db
  = Returned
      ((StatusOK,
        DronePlanBody {| DronePlanResponse.Distance := 46;
                         DronePlanResponse.Rest := Some (Some 4, Some 1) |}),
       sample_db).
Proof.
  destruct (drone_plan_response sample_server "e"
              {| DronePlanParams.MaxDistance := Some 46 |} sample_db sample_db
              {| GetEstateTreesByEstateIdOutput.Trees :=
                   [{| X := 5; Y := 1; Height := 5 |}];
                 GetEstateTreesByEstateIdOutput.Estate :=
                   {| Length := 5; Width := 1 |} |})
    as (out & Hcall & x & y & H & Hx & Hy & _).
  - reflexivity.
  - precondition_holds.
  - vm_compute in Hcall. injection Hcall as <-.
    simpl in Hx, Hy. subst x y. exact H.
Defined.

(** ** A missing estate *)

(** X13. For an estate id the database does not know, the two handlers
    disagree: the tree handler, which looks the estate up with
    [GetEstateByEstateId], answers 404 "Estate not found", while the drone
    plan handler, which reads it with [GetEstateTreesByEstateId], answers
    500 "Invalid request", since that method reports the missing row as an
    error. *)
Theorem missing_estate_responses (s : Server Db)
    (createEstate :
       CreateEstateInput.t -> Db ->
       (option CreateEstateOutput.t * option error) * Db)
    (isTreeExist :
       IsTreeExistInput.t -> Db ->
       (option IsTreeExistOutput.t * option error) * Db)
    (createTree :
       CreateTreeInput.t -> Db ->
       (option CreateTreeOutput.t * option error) * Db)
    (db : Db) (estateId : string) (trees : list Tree)
    (ctx : Context TreeRequest.t) (req : TreeRequest.t)
    (params : DronePlanParams.t) :
  ServerRepository s = Repository createEstate isTreeExist createTree ->
  select_estate db estateId = ScanError ErrNoRows ->
  select_trees db estateId = Rows (Scanned <$> trees) ->
  Decode ctx = Some req ->
  Validate ctx req = None ->
  PostEstateEstateIdTree s ctx estateId db
  = Returned ((StatusNotFound, estate_not_found), db) /\
  GetEstateEstateIdDronePlan s estateId params db
  = Returned ((StatusInternalServerError, invalid_request), db).
Proof.
  intros Hrepo Hest Htrees Hdec Hval. split.
  - unfold PostEstateEstateIdTree. rewrite Hdec, Hval, Hrepo. simpl.
    unfold Repository_GetEstateByEstateId. simpl. by rewrite Hest.
  - unfold GetEstateEstateIdDronePlan. rewrite Hrepo. simpl.
    unfold Repository_GetEstateTreesByEstateId. simpl.
    by rewrite Htrees, scan_trees_Scanned, Hest.
Qed.

Lemma missing_estate_responses_witness :
  PostEstateEstateIdTree sample_server
    (sample_context {| TreeRequest.X := 1; TreeRequest.Y := 1;
                       TreeRequest.Height := 5 |} (fun _ => true))
    "e" empty_db
  = Returned ((StatusNotFound, estate_not_found), empty_db) /\
  GetEstateEstateIdDronePlan sample_server "e"
    {| DronePlanParams.MaxDistance := None |} empty_db
  = Returned ((StatusInternalServerError, invalid_request), empty_db).
Proof.
  eapply (missing_estate_responses sample_server _ _ _ empty_db "e" []);
    reflexivity.
Defined.

(** ** The tree handler *)

(** X14. The tree handler answers 200 only when the whole chain went
    through: the body decoded and validated, the estate was found, the
    coordinates lie within [0..Length] by [0..Width], no tree was reported
    at them, [CreateTree] succeeded on exactly the request's coordinates and
    height, and the returned id parsed.  When validation enforces the API's
    [min=1] on the coordinates, the tree so created meets the bounds the
    planner needs. *)
Theorem tree_created_only_in_bounds {DB} (s : Server DB)
    (ctx : Context TreeRequest.t) (estateId : string) (db db' : DB)
    (b : body) :
  PostEstateEstateIdTree s ctx estateId db = Returned ((StatusOK, b), db') ->
  exists req estate db1 db2 output id,
    Decode ctx = Some req /\
    Validate ctx req = None /\
    GetEstateByEstateId (ServerRepository s)
      {| GetEstateByEstateIdInput.Id := estateId |} db
    = ((Some estate, None), db1) /\
    let e := GetEstateByEstateIdOutput.Estate estate in
    0 <= TreeRequest.X req <= Length e /\
    0 <= TreeRequest.Y req <= Width e /\
    IsTreeExist (ServerRepository s)
      {| IsTreeExistInput.EstateId := estateId;
         IsTreeExistInput.X := TreeRequest.X req;
         IsTreeExistInput.Y := TreeRequest.Y req |} db1
    = ((Some {| IsTreeExistOutput.IsExist := false |}, None), db2) /\
    CreateTree (ServerRepository s)
      {| CreateTreeInput.Id := NewId ctx;
         CreateTreeInput.EstateId := estateId;
         CreateTreeInput.X := TreeRequest.X req;
         CreateTreeInput.Y := TreeRequest.Y req;
         CreateTreeInput.Height := TreeRequest.Height req |} db2
    = ((Some output, None), db') /\
    ParseId ctx (CreateTreeOutput.Id output) = Some id /\
    b = TreeBody id /\
    (tree_request_valid req ->
     tree_in_bounds e {| X := TreeRequest.X req; Y := TreeRequest.Y req;
                         Height := TreeRequest.Height req |}).
Proof.
  unfold PostEstateEstateIdTree.
  destruct (Decode ctx) as [req|] eqn:Hdec; [|done].
  destruct (Validate ctx req) as [e|] eqn:Hval; [done|].
  destruct (GetEstateByEstateId _ _ db) as [[[estate|] [e|]] db1] eqn:Hest;
    try done.
  set (e := GetEstateByEstateIdOutput.Estate estate).
  destruct ((Length e <? TreeRequest.X req) || (TreeRequest.X req <? 0)
            || ((Width e <? TreeRequest.Y req) || (TreeRequest.Y req <? 0)))
    eqn:Hb; [done|].
  apply orb_false_iff in Hb as [Hbx Hby].
  apply orb_false_iff in Hbx as [Hx1 Hx2].
  apply orb_false_iff in Hby as [Hy1 Hy2].
  apply Z.ltb_ge in Hx1, Hx2, Hy1, Hy2.
  destruct (IsTreeExist _ _ db1) as [[[[[|]]|] [e1|]] db2] eqn:Hex; try done.
  destruct (CreateTree _ _ db2) as [[[output|] [e2|]] db3] eqn:Hcr; try done.
  destruct (ParseId ctx (CreateTreeOutput.Id output)) as [id|] eqn:Hid;
    [|done].
  intros [= <- <-].
  exists req, estate, db1, db2, output, id.
  fold e. repeat match goal with |- _ /\ _ => split end; try done; try lia.
  intros (Hvx & Hvy & _). unfold tree_in_bounds. simpl. lia.
Qed.

Lemma tree_created_only_in_bounds_witness :
  exists req,
    Decode (sample_context {| TreeRequest.X := 2; TreeRequest.Y := 1;
                              TreeRequest.Height := 7 |} (fun _ => true))
    = Some req /\
    0 <= TreeRequest.X req <= 5 /\ 0 <= TreeRequest.Y req <= 1.
Proof.
  destruct (tree_created_only_in_bounds sample_server
              (sample_context {| TreeRequest.X := 2; TreeRequest.Y := 1;
                                 TreeRequest.Height := 7 |} (fun _ => true))
              "e" sample_db sample_db
              (TreeBody "018f49a0-88be-7fd6-a964-4f9742dbc90e"))
    as (req & estate & db1 & db2 & output & id & Hdec & _ & Hest & Hx & Hy & _).
  - reflexivity.
  - exists req. split; [exact Hdec|].
    vm_compute in Hest. injection Hest as <- _. simpl in Hx, Hy. done.
Defined.

(** X15. A validated tree request for an existing estate whose coordinates
    lie outside [0..Length] by [0..Width] is answered 400 before the
    repository is asked anything more: its state is as the estate lookup
    left it.  A request on a cell where a tree is reported is answered 400
    as well, with the state as that check left it; [CreateTree] is not
    called in either case. *)
Theorem tree_rejected_without_write {DB} (s : Server DB)
    (ctx : Context TreeRequest.t) (estateId : string) (db db1 : DB)
    (req : TreeRequest.t) (estate : GetEstateByEstateIdOutput.t) :
  Decode ctx = Some req ->
  Validate ctx req = None ->
  GetEstateByEstateId (ServerRepository s)
    {| GetEstateByEstateIdInput.Id := estateId |} db
  = ((Some estate, None), db1) ->
  let e := GetEstateByEstateIdOutput.Estate estate in
  (~ (0 <= TreeRequest.X req <= Length e /\
      0 <= TreeRequest.Y req <= Width e) ->
   PostEstateEstateIdTree s ctx estateId db
   = Returned ((StatusBadRequest, invalid_request), db1)) /\
  (forall db2,
     0 <= TreeRequest.X req <= Length e ->
     0 <= TreeRequest.Y req <= Width e ->
     IsTreeExist (ServerRepository s)
       {| IsTreeExistInput.EstateId := estateId;
          IsTreeExistInput.X := TreeRequest.X req;
          IsTreeExistInput.Y := TreeRequest.Y req |} db1
     = ((Some {| IsTreeExistOutput.IsExist := true |}, None), db2) ->
     PostEstateEstateIdTree s ctx estateId db
     = Returned ((StatusBadRequest, invalid_request), db2)).
Proof.
  intros Hdec Hval Hest e. unfold PostEstateEstateIdTree.
  rewrite Hdec, Hval, Hest. fold e. split.
  - intros Hout.
    destruct ((Length e <? TreeRequest.X req) || (TreeRequest.X req <? 0)
              || ((Width e <? TreeRequest.Y req) || (TreeRequest.Y req <? 0)))
      eqn:Hb; [done|].
    apply orb_false_iff in Hb as [Hbx Hby].
    apply orb_false_iff in Hbx as [Hx1 Hx2].
    apply orb_false_iff in Hby as [Hy1 Hy2].
    apply Z.ltb_ge in Hx1, Hx2, Hy1, Hy2. lia.
  - intros db2 Hx Hy Hex.
    replace ((Length e <? TreeRequest.X req) || (TreeRequest.X req <? 0)
             || ((Width e <? TreeRequest.Y req) || (TreeRequest.Y req <? 0)))
      with false.
    + by rewrite Hex.
    + symmetry. rewrite !orb_false_iff. rewrite !Z.ltb_ge. lia.
Qed.

Lemma tree_rejected_without_write_witness :
  PostEstateEstateIdTree sample_server
    (sample_context {| TreeRequest.X := 6; TreeRequest.Y := 1;
                       TreeRequest.Height := 7 |} (fun _ => true))
    "e" sample_db
  = Returned ((StatusBadRequest, invalid_request), sample_db).
Proof.
  destruct (tree_rejected_without_write sample_server
              (sample_context {| TreeRequest.X := 6; TreeRequest.Y := 1;
                                 TreeRequest.Height := 7 |} (fun _ => true))
              "e" sample_db sample_db
              {| TreeRequest.X := 6; TreeRequest.Y := 1;
                 TreeRequest.Height := 7 |}
              {| GetEstateByEstateIdOutput.Estate :=
                   {| Length := 5; Width := 1 |} |})
    as [H _]; [reflexivity|reflexivity|reflexivity|].
  apply H. simpl. lia.
Defined.

(** ** The estate handler *)

(** X16. [PostEstate] converts the requested length and width to
    [uint16].  Within the API's limits (1 to 50000) the repository is given
    the requested dimensions unchanged.  Beyond 65535 the conversion wraps:
    two requests that pass validation and whose dimensions differ by
    multiples of 65536 are handled alike, down to the response and the
    repository state. *)
Theorem estate_dimensions_as_uint16 {DB} (s : Server DB)
    (ctx ctx' : Context EstateRequest.t) (req req' : EstateRequest.t)
    (db : DB) :
  Decode ctx = Some req ->
  Validate ctx req = None ->
  (estate_request_valid req ->
   createEstateInput ctx req
   = {| CreateEstateInput.Id := NewId ctx;
        CreateEstateInput.Length := EstateRequest.Length req;
        CreateEstateInput.Width := EstateRequest.Width req |}) /\
  (Decode ctx' = Some req' ->
   Validate ctx' req' = None ->
   NewId ctx' = NewId ctx ->
   ParseId ctx' = ParseId ctx ->
   (exists k, EstateRequest.Length req'
              = EstateRequest.Length req + 65536 * k) ->
   (exists k, EstateRequest.Width req'
              = EstateRequest.Width req + 65536 * k) ->
   PostEstate s ctx' db = PostEstate s ctx db).
Proof.
  intros Hdec Hval. split.
  - intros [[Hl1 Hl2] [Hw1 Hw2]]. unfold createEstateInput, uint16.
    rewrite !Z.mod_small by lia. done.
  - intros Hdec' Hval' Hid Hparse [k Hk] [j Hj].
    unfold PostEstate. rewrite Hdec, Hdec', Hval, Hval'.
    replace (createEstateInput ctx' req') with (createEstateInput ctx req).
    + by rewrite Hparse.
    + unfold createEstateInput, uint16. rewrite Hid, Hk, Hj.
      f_equal; rewrite (Z.mul_comm 65536);
        change 65536 with (2 ^ 16); by rewrite Z_mod_plus_full.
Qed.

Lemma estate_dimensions_as_uint16_witness :
  PostEstate sample_server
    (sample_context {| EstateRequest.Length := 65541;
                       EstateRequest.Width := 3 |} (fun _ => true)) sample_db
  = PostEstate sample_server
      (sample_context {| EstateRequest.Length := 5;
                         EstateRequest.Width := 3 |} (fun _ => true)) sample_db.
Proof.
  destruct (estate_dimensions_as_uint16 sample_server
              (sample_context {| EstateRequest.Length := 5;
                                 EstateRequest.Width := 3 |} (fun _ => true))
              (sample_context {| EstateRequest.Length := 65541;
                                 EstateRequest.Width := 3 |} (fun _ => true))
              {| EstateRequest.Length := 5; EstateRequest.Width := 3 |}
              {| EstateRequest.Length := 65541; EstateRequest.Width := 3 |}
              sample_db) as [_ H]; [reflexivity|reflexivity|].
  apply H; try reflexivity.
  - exists 1. reflexivity.
  - exists 0. reflexivity.
Defined.

(** ** Within the limits of the API *)

Lemma planted_height_limited trees x y :
  Forall (fun t => 1 <= Height t <= 30) trees ->
  1 <= planted_height trees x y <= 31.
Proof.
  unfold planted_height.
  assert (forall h0, Forall (fun t => 1 <= Height t <= 30) trees ->
    1 <= h0 <= 31 ->
    1 <= fold_left
           (fun h t => if (X t =? x) && (Y t =? y)
                       then GoInt.add (Height t) 1 else h) trees h0
      <= 31) as H.
  { induction trees as [|t trees IH]; intros h0 Hm Hh0; [done|].
    apply Forall_cons in Hm as [Ht Hm]. simpl. apply IH; [done|].
    destruct ((X t =? x) && (Y t =? y)); [|done].
    unfold GoInt.add. rewrite wrap_small; [lia|].
    unfold GoInt.in_range, GoInt.min_int, GoInt.max_int. lia. }
  intros Hm. apply H; [done|lia].
Qed.

Lemma climb_sum_limited h l : forall prev,
  (forall c, 1 <= h c <= 31) -> 0 <= prev <= 31 ->
  0 <= climb_sum h prev l <= 31 * Z.of_nat (List.length l).
Proof.
  induction l as [|c l IH]; intros prev Hh Hp; simpl; [lia|].
  specialize (IH (h c) Hh ltac:(specialize (Hh c); lia)).
  specialize (Hh c). lia.
Qed.

(** X17. Within the limits the API sets (length and width up to 50000,
    tree heights from 1 to 30) and with a [ScaleFactor] from 0 to [10^9], no
    addition of the planner wraps around: with no [maxDistance] the three
    figures are the exact integers [ScaleFactor * (Width * Length - 1)], the
    climbs along the path, and their sum, and the total stays below
    [2^62]. *)
Theorem validated_plan_is_exact (cfg : Config)
    (input : CalculateDroneDistanceInput) :
  planner_precondition input ->
  Width (Estate_ input) <= 50000 ->
  Length (Estate_ input) <= 50000 ->
  Forall (fun t => 1 <= Height t <= 30) (Trees input) ->
  0 <= ScaleFactor cfg <= 10 ^ 9 ->
  let width := Width (Estate_ input) in
  let length := Length (Estate_ input) in
  let h := height_at (Trees input) in
  let climbs :=
    climb_sum h 0 (serpentine width length) + h (final_corner width length) in
  exists out,
    CalculateDroneDistance cfg (Some input) None = Returned (Some out, None) /\
    TotalHorizontalDistance out = ScaleFactor cfg * (width * length - 1) /\
    TotalVerticalDistance out = climbs /\
    TotalDistance out
    = ScaleFactor cfg * (width * length - 1) + climbs /\
    2 <= TotalDistance out < 2 ^ 62.
Proof.
  intros Hpre Hwmax Hlmax Hheights Hsf width length h climbs.
  assert (modest_heights (Trees input)) as Hmod.
  { eapply Forall_impl; [exact Hheights|]. simpl. intros t Ht. lia. }
  destruct (build_grid_spec input Hpre) as (g & Hg & Hshape & _).
  fold width length in Hshape.
  assert (1 <= width /\ 1 <= length) as [Hw Hl] by (destruct Hpre; tauto).
  rewrite (CalculateDroneDistance_run _ _ _ _ Hg), run_unbudgeted.
  fold width length.
  destruct (locals_after_total cfg g width length Hshape _ initial_locals
              (serpentine_in_grid _ _)) as [s' Hs'].
  rewrite Hs'. exists (finish s'). split; [done|]. simpl.
  pose proof (path_vertical cfg input g s' Hpre Hmod Hg Hs') as Hv.
  pose proof (path_horizontal cfg g width length s' Hshape Hw Hl Hs') as Hh.
  fold width length h climbs in Hv.
  assert (forall c, 1 <= h c <= 31) as Hhc
    by (intros c; by apply planted_height_limited).
  pose proof (climb_sum_limited h (serpentine width length) 0 Hhc
                ltac:(lia)) as Hclimb.
  rewrite length_serpentine in Hclimb by lia.
  pose proof (Hhc (final_corner width length)) as Hcorner.
  pose proof (Hhc (0, 0)) as Hfirst.
  assert (1 <= width * length <= 2500000000) as Hcells by nia.
  assert (0 <= ScaleFactor cfg * (width * length - 1)
          <= 10 ^ 9 * 2500000000) as Hhor by nia.
  assert (1 <= climb_sum h 0 (serpentine width length)) as Hpos.
  { destruct (serpentine_first width length Hw Hl) as [tl ->]. simpl.
    pose proof (climb_sum_nonneg h tl (h (0, 0))). lia. }
  assert (Z.of_nat (Z.to_nat width * Z.to_nat length) = width * length)
    as Hn by lia.
  rewrite Hn in Hclimb.
  assert (totalVerticalDistance s' = climbs) as Hv'.
  { rewrite Hv. apply wrap_small.
    unfold GoInt.in_range, GoInt.min_int, GoInt.max_int, climbs. lia. }
  assert (totalHorizontalDistance s'
          = ScaleFactor cfg * (width * length - 1)) as Hh'.
  { rewrite Hh. apply wrap_small.
    unfold GoInt.in_range, GoInt.min_int, GoInt.max_int. lia. }
  rewrite Hv', Hh'. split; [done|]. split; [done|].
  unfold GoInt.add. rewrite wrap_small
    by (unfold GoInt.in_range, GoInt.min_int, GoInt.max_int, climbs; lia).
  split; [lia|]. unfold climbs. lia.
Qed.

Lemma validated_plan_is_exact_witness :
  exists out,
    CalculateDroneDistance cfg10
      (Some (mk_input 5 5 [(2, 2, 5); (3, 3, 3); (4, 4, 4)])) None
    = Returned (Some out, None) /\
    TotalHorizontalDistance out = 10 * (5 * 5 - 1) /\
    TotalDistance out = 266.
Proof.
  destruct (validated_plan_is_exact cfg10
              (mk_input 5 5 [(2, 2, 5); (3, 3, 3); (4, 4, 4)]))
    as (out & H1 & H2 & _ & H4 & _).
  - precondition_holds.
  - simpl. lia.
  - simpl. lia.
  - repeat constructor; simpl; lia.
  - simpl. lia.
  - exists out. split; [exact H1|]. split; [exact H2|].
    rewrite H4. vm_compute. reflexivity.
Defined.

(** ** The repository's tests of the drone plan handler *)

Example test_drone_plan_1 :
  GetEstateEstateIdDronePlan
    (mock_server
       (Some (mock_trees 5 1
                [(1, 1, 5); (2, 1, 2); (3, 1, 1); (4, 1, 5); (5, 1, 3)]),
        None))
    "e" {| DronePlanParams.MaxDistance := None |} tt
  = Returned
      ((StatusOK,
        DronePlanBody {| DronePlanResponse.Distance := 60;
                         DronePlanResponse.Rest := None |}), tt).
Proof. vm_compute. reflexivity. Qed.

Example test_drone_plan_2 :
  GetEstateEstateIdDronePlan
    (mock_server
       (Some (mock_trees 5 1 [(2, 1, 5); (3, 1, 3); (4, 1, 4)]), None))
    "e" {| DronePlanParams.MaxDistance := None |} tt
  = Returned
      ((StatusOK,
        DronePlanBody {| DronePlanResponse.Distance := 54;
                         DronePlanResponse.Rest := None |}), tt).
Proof. vm_compute. reflexivity. Qed.

Example test_drone_plan_not_found :
  GetEstateEstateIdDronePlan (mock_server (None, None))
    "e" {| DronePlanParams.MaxDistance := None |} tt
  = Returned ((StatusNotFound, estate_not_found), tt).
Proof. reflexivity. Qed.
